(** * Garden action execution: tasks, routers, versions

    A shallow embedding of the task classes ([tasks/run.ts], [tasks/test.ts],
    [tasks/build.ts], [tasks/publish.ts]) and of the Run and Test action
    routers ([router/run.ts], [router/test.ts]).  Asynchronous functions are
    computations in a state-and-exception monad [Js]; every effect the code
    performs on a collaborator (event bus, logger, plugin handler, temporary
    directory, artifact store) is appended to a trace, in program order.

    What the tasks and routers import from modules that are not among the
    sources is a field of the class [Env], or is modelled where it is used.
    The version provider and the scheduler are not among the sources either;
    they are modelled from the specification, at the end of the definitions. *)

From stdpp Require Import base option list strings pretty gmap sorting.
From Stdlib Require Import ZArith.

Local Open Scope string_scope.
Local Open Scope list_scope.

(** ** Data model *)

Inductive ActionKind := Build | Deploy | Run | Test.

Global Instance ActionKind_eq_dec : EqDecision ActionKind.
Proof. solve_decision. Defined.

Definition kindName (k : ActionKind) : string :=
  match k with
  | Build => "Build"
  | Deploy => "Deploy"
  | Run => "Run"
  | Test => "Test"
  end.

(** [ActionState]: "ready", "not-ready", "unknown", "failed". *)
Inductive ActionState := Ready | NotReady | Unknown | Failed.

Global Instance ActionState_eq_dec : EqDecision ActionState.
Proof. solve_decision. Defined.

(** Values a handler can put in an outputs object. *)
Inductive JsValue := JStr (s : string) | JNum (z : Z) | JBool (b : bool).

Abbreviation Outputs := (gmap string JsValue).

Record NamespaceStatus := {
  pluginName : string;
  namespaceName : string;
  namespaceState : string;
}.

(** [RunResult]: the detail of a Run or Test result. *)
Record RunResult := {
  success : bool;
  exitCode : option Z;
  log : string;
  startedAt : Z;
  completedAt : Z;
  namespaceStatus : option NamespaceStatus;
}.

(** [BuildResult]: the detail of a build status. *)
Record BuildResult := {
  buildLog : option string;
  fetched : bool;
  fresh : bool;
}.

(** The detail of a [PublishActionResult]. *)
Record PublishResult := {
  published : bool;
  message : option string;
  identifier : option string;
}.

(** [ActionStatus]: state, detail (or null), outputs.  [GetRunResult] and
    [GetTestResult] carry a [RunResult], [BuildStatus] a [BuildResult],
    [PublishActionResult] a [PublishResult]. *)
Record ActionStatus (D : Type) := {
  state : ActionState;
  detail : option D;
  outputs : Outputs;
}.
Global Arguments state {D} _.
Global Arguments detail {D} _.
Global Arguments outputs {D} _.

Abbreviation GetRunResult := (ActionStatus RunResult).
Abbreviation GetTestResult := (ActionStatus RunResult).
Abbreviation BuildStatus := (ActionStatus BuildResult).
Abbreviation PublishActionResult := (ActionStatus PublishResult).

(** An action as the tasks and routers read it.  [allowPublish] is
    [getConfig("allowPublish")], which may be undefined. *)
Record Action := {
  kind : ActionKind;
  name : string;
  type : string;
  versionString : string;
  moduleName : string;
  moduleVersion : string;
  allowPublish : option bool;
  isDisabled : bool;
  files : list string;
}.

(** [action.key()]: the lower-case kind and the name. *)
Definition key (a : Action) : string :=
  match kind a with
  | Build => "build"
  | Deploy => "deploy"
  | Run => "run"
  | Test => "test"
  end +:+ "." +:+ name a.

Record ActionReference := { refKind : ActionKind; refName : string }.

(** ** Events *)

(** [RunStatus]: the status carried by taskStatus and testStatus events. *)
Record RunStatus := {
  runState : string;
  runStartedAt : option Z;
  runCompletedAt : option Z;
}.

Record StatusPayload := {
  p_actionName : string;
  p_actionVersion : string;
  p_entityName : string;       (* taskName / testName *)
  p_moduleName : string;
  p_moduleVersion : string;
  p_entityVersion : string;    (* taskVersion / testVersion *)
  p_actionUid : option string;
  p_status : RunStatus;
}.

Record LogPayload := {
  l_timestamp : Z;
  l_actionUid : string;
  l_entityType : string;
  l_entityKey : string;
  l_moduleName : string;
  l_data : string;
}.

Inductive Payload :=
| PStatus (p : StatusPayload)
| PLog (p : LogPayload)
| PNamespace (ns : NamespaceStatus).

Record Event := { eventName : string; payload : Payload }.

(** ** Errors *)

Inductive JsError :=
| RunTaskError (message : option string)
| TestError (message : option string)
| PluginError (message : string)
| ConfigurationError (message : string)
| RuntimeError (message : string).

Inductive Completion (A : Type) :=
| Normal (a : A)
| Throw (e : JsError).
Global Arguments Normal {A} a.
Global Arguments Throw {A} e.

(** ** Observable effects *)

(** What a plugin handler receives. *)
Record Params := {
  action : Action;
  interactive : bool;
  silent : bool;
  artifactsPath : option string;
}.

Inductive LogOp :=
| LogNew (section msg : string)      (* makeNewLogContextWithMessage, makeNewLogContext *)
| LogInfo (msg : string)
| LogVerbose (msg : string)
| LogSetSuccess (msg : string)
| LogSetWarn (msg : string)
| LogSetError (msg : option string).

Inductive Obs :=
| ObsEmit (e : Event)                        (* garden.events.emit *)
| ObsLog (l : LogOp)
| ObsHandler (k : ActionKind) (handlerType : string) (p : Params)
                                             (* a plugin handler is invoked *)
| ObsHandlerDone (c : Completion GetRunResult)
                                             (* and has returned or thrown *)
| ObsValidate (a : Action) (phase : string) (o : Outputs)
| ObsTmpDir
| ObsRealpath (p : string)
| ObsCopyArtifacts (artifactsPath key : string)
| ObsCleanup (path : string)
| ObsSyncFromSrc (a : Action)
| ObsSyncDependencyProducts (a : Action).

(** ** Tasks as values *)

(** What [getBaseDependencyParams()] hands on to an upstream task. *)
Record BaseParams := {
  forceActions : list ActionReference;
  fromWatch : bool;
  devModeDeployNames : list string;
  localModeDeployNames : list string;
}.

(** [BaseActionTaskParams] with the fields the subclasses add. *)
Record TaskParams := {
  base : BaseParams;
  taskAction : Action;
  force : bool;
  tagTemplate : option string;     (* PublishTaskParams *)
  taskSilent : option bool;        (* TestTaskParams *)
  taskInteractive : option bool;   (* TestTaskParams *)
}.

Inductive Task :=
| BuildTask (p : TaskParams)
| PublishTask (p : TaskParams)
| RunTask (p : TaskParams)
| TestTask (p : TaskParams).

(** The [type] field of each class. *)
Definition taskType (t : Task) : string :=
  match t with
  | BuildTask _ => "build"
  | PublishTask _ => "publish"
  | RunTask _ => "run"
  | TestTask _ => "test"
  end.

(** The [concurrencyLimit] field; [None] where the class does not set one. *)
Definition concurrencyLimit (t : Task) : option nat :=
  match t with
  | BuildTask _ => Some 5
  | PublishTask _ => Some 5
  | RunTask _ | TestTask _ => None
  end.

(** ** The monad *)

(** [World] is the state of the collaborators that the engine cannot see
    into. *)
Record St (World : Type) := { trace : list Obs; world : World }.
Global Arguments trace {World} _.
Global Arguments world {World} _.

Definition Js (World A : Type) : Type := St World → Completion A * St World.

Section Monad.
Context {World : Type}.

Definition ret {A} (a : A) : Js World A := λ s, (Normal a, s).

Definition throw {A} (e : JsError) : Js World A := λ s, (Throw e, s).

Definition bind {A B} (m : Js World A) (f : A → Js World B) : Js World B :=
  λ s, match m s with
       | (Normal a, s') => f a s'
       | (Throw e, s') => (Throw e, s')
       end.

(** [try { body } catch (err) { handler err }] *)
Definition try_catch {A} (body : Js World A) (handler : JsError → Js World A)
  : Js World A :=
  λ s, match body s with
       | (Normal a, s') => (Normal a, s')
       | (Throw e, s') => handler e s'
       end.

(** [try { body } finally { fin }]: the finaliser always runs; when it throws,
    its error replaces the completion of the body. *)
Definition try_finally {A} (body : Js World A) (fin : Js World unit) : Js World A :=
  λ s, match body s with
       | (c, s') =>
           match fin s' with
           | (Normal _, s'') => (c, s'')
           | (Throw e, s'') => (Throw e, s'')
           end
       end.

(** The state after one more observation. *)
Definition seen (o : Obs) (s : St World) : St World :=
  {| trace := trace s ++ [o]; world := world s |}.

Definition observe (o : Obs) : Js World unit := λ s, (Normal tt, seen o s).

(** A call to a collaborator: recorded in the trace, then run on the world. *)
Definition external {A} (o : Obs) (f : World → Completion A * World) : Js World A :=
  λ s, match f (world s) with
       | (c, w) => (c, {| trace := trace s ++ [o]; world := w |})
       end.

Definition emit (eventName : string) (p : Payload) : Js World unit :=
  observe (ObsEmit {| eventName := eventName; payload := p |}).

Definition logOp (l : LogOp) : Js World unit := observe (ObsLog l).

End Monad.

Declare Scope js_scope.
Delimit Scope js_scope with js.
Notation "'await' x ← m 'in' k" := (bind m (λ x, k))
  (at level 10, x name, m at level 100, k at level 200) : js_scope.
Notation "'exec' m 'in' k" := (bind m (λ _, k))
  (at level 10, m at level 100, k at level 200) : js_scope.
Local Open Scope js_scope.

(** ** Collaborators *)

(** A "log" event a handler sends to [params.events] while it runs. *)
Record PluginLog := {
  timestamp : Z;
  data : string;
  origin : option string;
}.

(** A plugin handler: the log events it sends, then its completion. *)
Definition Handler (World : Type) : Type :=
  Params → World → list PluginLog * Completion GetRunResult * World.

(** The action router the tasks get from [garden.getActionRouter()].  Its
    [run] and [test] members are the routers of router/run.ts and
    router/test.ts; router/build.ts is not among the sources. *)
Record ActionRouter (World : Type) := {
  run_run : Params → Js World GetRunResult;
  run_getResult : Params → Js World GetRunResult;
  test_run : Params → Js World GetTestResult;
  test_getResult : Params → Js World GetTestResult;
  build_getStatus : Action → Js World BuildStatus;
  build_build : Action → Js World BuildStatus;
  build_publish : Action → option string → Js World PublishActionResult;
}.
Global Arguments run_run {World} _.
Global Arguments run_getResult {World} _.
Global Arguments test_run {World} _.
Global Arguments test_getResult {World} _.
Global Arguments build_getStatus {World} _.
Global Arguments build_build {World} _.
Global Arguments build_publish {World} _.

(** Everything the routers and tasks import that is not among the sources. *)
Class Env (World DependencyResults ExecutedAction : Type) := {
  uuidv4 : World → string * World;
  newDate : World → Z;
  tmp_dir : World → Completion string * World;
  makeTempDir : World → Completion string * World;
  realpath : string → World → Completion string * World;
  normalizePath : string → string;
  tmp_cleanup : string → World → Completion unit * World;
  copyArtifacts : string → string → World → Completion unit * World;
  getArtifactKey : string → string → string → string;
  renderOutputStream : string → option string → string;
  runStatus : option RunResult → RunStatus;
  (** the plugin handlers registered for an action kind, action type and
      handler type *)
  handlers : ActionKind → string → string → option (Handler World);
  (** the first key of the outputs that violates the output schema declared
      for this kind and type of action in the given phase, with what the
      schema asks of it ("must be a string"); [None] for valid outputs *)
  schemaViolation : ActionKind → string → string → Outputs → option (string * string);
  getResolvedAction : Action → DependencyResults → Js World Action;
  getExecutedAction : Action → DependencyResults → Js World Action;
  executeAction : ∀ D, Action → ActionStatus D → ExecutedAction;
  longDescription : Action → string;
  matchesRef : Action → ActionReference → bool;
  syncFromSrc : Action → World → Completion unit * World;
  syncDependencyProducts : Action → World → Completion unit * World;
  (** [resolveProviders] and [resolveTemplateString] on a [BuildTagContext] *)
  resolveTag : string → Action → Js World string;
}.

Section Engine.
Context {World DependencyResults ExecutedAction : Type}.
Context `{!Env World DependencyResults ExecutedAction}.

Local Abbreviation Js := (Js World).

(** Modelled from the spec: [router.callHandler] of router/base.ts is not
    among the sources.  It dispatches to the plugin handler registered for
    the action's kind and type and the handler type, falling back to the
    default handler the caller supplies; the handler's log events go to the
    listener on [params.events]. *)
Fixpoint deliver (onLog : PluginLog → Js unit) (ls : list PluginLog) : Js unit :=
  match ls with
  | [] => ret tt
  | l :: ls' => exec onLog l in deliver onLog ls'
  end.

Definition invoke (h : Handler World) (p : Params) (onLog : PluginLog → Js unit)
  : Js GetRunResult :=
  λ s, match h p (world s) with
       | (ls, c, w) =>
           match deliver onLog ls {| trace := trace s; world := w |} with
           | (Normal _, s') => (c, s')
           | (Throw e, s') => (Throw e, s')
           end
       end.

Definition noHandler (k : ActionKind) (handlerType : string) (a : Action) : JsError :=
  PluginError ("No '" +:+ handlerType +:+ "' handler configured for "
                 +:+ kindName k +:+ " type '" +:+ type a +:+ "'").

Definition callHandler (k : ActionKind) (p : Params) (handlerType : string)
    (defaultHandler : option (Handler World)) (onLog : PluginLog → Js unit)
  : Js GetRunResult :=
  match handlers k (type (action p)) handlerType with
  | Some h =>
      exec observe (ObsHandler k handlerType p) in
      λ s, match invoke h p onLog s with
           | (c, s') => (c, seen (ObsHandlerDone c) s')
           end
  | None =>
      match defaultHandler with
      | Some d => invoke d p onLog
      | None => throw (noHandler k handlerType (action p))
      end
  end.

(** Modelled from the spec: [router.validateActionOutputs] of router/base.ts
    is not among the sources.  It checks the outputs against the schema the
    action type declares for the phase and throws on a mismatch; the message
    is the one the router tests expect. *)
Definition validationMessage (phase : string) (a : Action) (k why : string) : string :=
  "Error validating " +:+ phase +:+ " action outputs from " +:+ kindName (kind a)
    +:+ " '" +:+ name a +:+ "': key ." +:+ k +:+ " " +:+ why +:+ ".".

Definition validateActionOutputs (a : Action) (phase : string) (o : Outputs) : Js unit :=
  exec observe (ObsValidate a phase o) in
  match schemaViolation (kind a) (type a) phase o with
  | None => ret tt
  | Some (k, why) => throw (PluginError (validationMessage phase a k why))
  end.

(** Modelled from the spec: [router.emitNamespaceEvent] of router/base.ts is
    not among the sources; it emits a namespaceStatus event when the result
    carries a namespace status. *)
Definition emitNamespaceEvent (ns : option NamespaceStatus) : Js unit :=
  match ns with
  | Some n => emit "namespaceStatus" (PNamespace n)
  | None => ret tt
  end.

(** *** router/run.ts and router/test.ts *)

Definition statusPayload (a : Action) (uid : option string) (st : RunStatus) : Payload :=
  PStatus {| p_actionName := name a;
             p_actionVersion := versionString a;
             p_entityName := name a;
             p_moduleName := moduleName a;
             p_moduleVersion := moduleVersion a;
             p_entityVersion := versionString a;
             p_actionUid := uid;
             p_status := st |}.

Definition runningStatus (now : Z) : RunStatus :=
  {| runState := "running"; runStartedAt := Some now; runCompletedAt := None |}.

(** [uuidv4()] and [new Date()] *)
Definition freshUid : Js string :=
  λ s, match uuidv4 (world s) with
       | (u, w) => (Normal u, {| trace := trace s; world := w |})
       end.

Definition now : Js Z := λ s, (Normal (newDate (world s)), s).

(** The listener both routers put on [params.events] for "log". *)
Definition onLog (p : Params) (actionUid entityType entityKey : string)
    (l : PluginLog) : Js unit :=
  exec (if interactive p then ret tt
        else logOp (LogInfo (renderOutputStream (data l) (origin l)))) in
  emit "log" (PLog {| l_timestamp := timestamp l;
                      l_actionUid := actionUid;
                      l_entityType := entityType;
                      l_entityKey := entityKey;
                      l_moduleName := moduleName (action p);
                      l_data := data l |}).

(** The [finally] block of both [run] functions: copy everything from the
    temporary directory, and then clean it up. *)
Definition collectArtifacts (artifactType : string) (a : Action)
    (tmpDir artifactsPath : string) : Js unit :=
  try_finally
    (external (ObsCopyArtifacts artifactsPath
                 (getArtifactKey artifactType (name a) (versionString a)))
       (copyArtifacts artifactsPath
          (getArtifactKey artifactType (name a) (versionString a))))
    (external (ObsCleanup tmpDir) (tmp_cleanup tmpDir)).

Definition handlerParams (p : Params) (artifactsPath : string) : Params :=
  {| action := action p; interactive := interactive p; silent := silent p;
     artifactsPath := Some artifactsPath |}.

(** The [try] block of both [run] functions. *)
Definition handle (k : ActionKind) (statusEvent entityType entityKey : string)
    (p : Params) (artifactsPath actionUid : string) : Js GetRunResult :=
  let a := action p in
  await result ← callHandler k (handlerParams p artifactsPath) "run" None
                   (onLog p actionUid entityType entityKey) in
  exec validateActionOutputs a "runtime" (outputs result) in
  exec emit statusEvent (statusPayload a (Some actionUid) (runStatus (detail result))) in
  exec emitNamespaceEvent (d ← detail result; namespaceStatus d) in
  ret result.

(** [runRouter(...).run] *)
Definition runRouter_run (p : Params) : Js GetRunResult :=
  let a := action p in
  await actionUid ← freshUid in
  await tmpDir ← external ObsTmpDir tmp_dir in
  await path ← external (ObsRealpath tmpDir) (realpath tmpDir) in
  let artifactsPath := normalizePath path in
  await startedAt ← now in
  exec emit "taskStatus" (statusPayload a (Some actionUid) (runningStatus startedAt)) in
  try_finally
    (handle Run "taskStatus" "task" (name a) p artifactsPath actionUid)
    (collectArtifacts "run" a tmpDir artifactsPath).

(** [testRouter(...).run] *)
Definition testRouter_run (p : Params) : Js GetTestResult :=
  let a := action p in
  await tmpDir ← external ObsTmpDir makeTempDir in
  await path ← external (ObsRealpath tmpDir) (realpath tmpDir) in
  let artifactsPath := normalizePath path in
  await actionUid ← freshUid in
  await startedAt ← now in
  exec emit "testStatus" (statusPayload a (Some actionUid) (runningStatus startedAt)) in
  try_finally
    (handle Test "testStatus" "test" (moduleName a +:+ "." +:+ name a) p
       artifactsPath actionUid)
    (collectArtifacts "test" a tmpDir artifactsPath).

(** The default handler of both [getResult] functions. *)
Definition defaultGetResult : Handler World :=
  λ _ w, ([], Normal {| state := Unknown; detail := None; outputs := (∅ : Outputs) |}, w).

(** [getResult] of either router.  No listener is put on [params.events]. *)
Definition getResult (k : ActionKind) (statusEvent : string) (p : Params)
  : Js GetRunResult :=
  let a := action p in
  await result ← callHandler k p "getResult" (Some defaultGetResult) (λ _, ret tt) in
  exec emit statusEvent (statusPayload a None (runStatus (detail result))) in
  exec validateActionOutputs a "runtime" (outputs result) in
  ret result.

Definition runRouter_getResult : Params → Js GetRunResult := getResult Run "taskStatus".
Definition testRouter_getResult : Params → Js GetTestResult := getResult Test "testStatus".

(** *** Tasks *)

(** What [process] and [getStatus] of an execute task return: the status
    spread together with [executedAction]. *)
Record TaskResult (D : Type) := {
  status : ActionStatus D;
  executedAction : ExecutedAction;
}.
Global Arguments status {D} _.
Global Arguments executedAction {D} _.

Definition withExecuted {D} (a : Action) (st : ActionStatus D) : TaskResult D :=
  {| status := st; executedAction := executeAction D a st |}.

Definition routerParams (a : Action) (silent interactive : bool) : Params :=
  {| action := a; interactive := interactive; silent := silent; artifactsPath := None |}.

(** [catch (err) { log.setError(); throw err }] *)
Definition logAndRethrow {A} (err : JsError) : Js A :=
  exec logOp (LogSetError None) in throw err.

(** *** tasks/run.ts *)

Definition RunTask_getStatus (router : ActionRouter World) (p : TaskParams)
    (dependencyResults : DependencyResults) : Js (option (TaskResult RunResult)) :=
  exec logOp (LogNew (name (taskAction p)) "Checking result...") in
  await action ← getResolvedAction (taskAction p) dependencyResults in
  try_catch
    (await st ← run_getResult router (routerParams action false false) in
     exec logOp (LogSetSuccess "Done") in
     match detail st with
     | None => ret None
     | Some _ => ret (Some (withExecuted action st))
     end)
    logAndRethrow.

Definition RunTask_process (router : ActionRouter World) (p : TaskParams)
    (dependencyResults : DependencyResults) : Js (TaskResult RunResult) :=
  await action ← getResolvedAction (taskAction p) dependencyResults in
  exec logOp (LogNew (key action) "Running...") in
  await st ← try_catch (run_run router (routerParams action false false))
               logAndRethrow in
  exec (if decide (state st = Ready)
        then logOp (LogSetSuccess "Done")
        else exec logOp (LogSetError (Some "Failed!")) in
             throw (RunTaskError (log <$> detail st))) in
  ret (withExecuted action st).

(** *** tasks/test.ts *)

(** The constructor's defaults: [silent = true], [interactive = false]. *)
Definition testSilent (p : TaskParams) : bool := default true (taskSilent p).
Definition testInteractive (p : TaskParams) : bool := default false (taskInteractive p).

(** [status.detail?.success] as a condition *)
Definition succeeded (st : GetTestResult) : bool :=
  match detail st with
  | Some d => success d
  | None => false
  end.

Definition TestTask_getStatus (router : ActionRouter World) (p : TaskParams)
    (dependencyResults : DependencyResults) : Js (option (TaskResult RunResult)) :=
  await action ← getResolvedAction (taskAction p) dependencyResults in
  await st ← test_getResult router (routerParams action false false) in
  if succeeded st then
    exec logOp (LogNew (key action) "Already passed") in
    exec logOp (LogSetSuccess "Already passed") in
    ret (Some (withExecuted action st))
  else ret None.

(** [!!exitCode ? `Failed with code ${exitCode}!` : `Failed!`] *)
Definition failedMsg (exitCode : option Z) : string :=
  match exitCode with
  | Some c => if decide (c = 0%Z) then "Failed!"
              else "Failed with code " +:+ pretty c +:+ "!"
  | None => "Failed!"
  end.

Definition TestTask_process (router : ActionRouter World) (p : TaskParams)
    (dependencyResults : DependencyResults) : Js (TaskResult RunResult) :=
  await action ← getResolvedAction (taskAction p) dependencyResults in
  exec logOp (LogNew (key action) "Running...") in
  await st ← try_catch
               (test_run router (routerParams action (testSilent p) (testInteractive p)))
               logAndRethrow in
  exec (if succeeded st
        then logOp (LogSetSuccess "Success")
        else exec logOp (LogSetError (Some (failedMsg (d ← detail st; exitCode d)))) in
             throw (TestError (log <$> detail st))) in
  ret (withExecuted action st).

(** *** tasks/build.ts *)

Definition BuildTask_getStatus (router : ActionRouter World) (p : TaskParams)
    (dependencyResults : DependencyResults) : Js (option (TaskResult BuildResult)) :=
  await action ← getResolvedAction (taskAction p) dependencyResults in
  await st ← build_getStatus router action in
  ret (Some (withExecuted action st)).

(** [process] up to the call of the router. *)
Definition BuildTask_prepare (p : TaskParams) (action : Action) : Js unit :=
  exec (if isDisabled action
        then logOp (LogInfo (longDescription action +:+
               " is disabled, but is being executed because another action depends on it."))
        else ret tt) in
  exec logOp (LogNew (name (taskAction p)) "") in
  exec logOp (LogInfo ("Building version " +:+ versionString (taskAction p) +:+ "...")) in
  exec (if decide (0 < length (files action))%nat
        then logOp (LogVerbose "Syncing module sources...")
        else ret tt) in
  exec external (ObsSyncFromSrc action) (syncFromSrc action) in
  exec logOp (LogSetSuccess "Done") in
  external (ObsSyncDependencyProducts action) (syncDependencyProducts action).

Definition BuildTask_process (router : ActionRouter World) (p : TaskParams)
    (dependencyResults : DependencyResults) : Js (TaskResult BuildResult) :=
  await action ← getResolvedAction (taskAction p) dependencyResults in
  exec BuildTask_prepare p action in
  try_catch
    (await result ← build_build router action in
     exec logOp (LogSetSuccess "Done") in
     ret (withExecuted action result))
    logAndRethrow.

(** *** tasks/publish.ts *)

(** [!!this.forceActions.find((ref) => this.action.matchesRef(ref))] *)
Definition isForced (a : Action) (refs : list ActionReference) : bool :=
  bool_decide (is_Some (list_find (λ ref, matchesRef a ref = true) refs)).

Definition PublishTask_resolveProcessDependencies (p : TaskParams) : list Task :=
  if decide (allowPublish (taskAction p) = Some false) then []
  else [BuildTask {| base := base p;
                     taskAction := taskAction p;
                     force := isForced (taskAction p) (forceActions (base p));
                     tagTemplate := None;
                     taskSilent := None;
                     taskInteractive := None |}].

Definition PublishTask_getStatus : Js (option PublishActionResult) := ret None.

Definition publishDisabled : PublishActionResult :=
  {| state := Ready;
     detail := Some {| published := false; message := None; identifier := None |};
     outputs := ∅ |}.

(** A string that is there and is not empty. *)
Definition truthy (s : option string) : option string :=
  match s with
  | Some m => if decide (m = "") then None else Some m
  | None => None
  end.

Definition PublishTask_process (router : ActionRouter World) (p : TaskParams)
    (dependencyResults : DependencyResults) : Js PublishActionResult :=
  if decide (allowPublish (taskAction p) = Some false) then
    exec logOp (LogInfo "Publishing disabled (allowPublish=false set on build)") in
    ret publishDisabled
  else
    await action ← getExecutedAction (taskAction p) dependencyResults in
    await tag ← match truthy (tagTemplate p) with
                 | Some t => await r ← resolveTag t action in ret (Some r)
                 | None => ret None
                 end in
    exec logOp (LogNew (key action) ("Publishing with tag " +:+ default "undefined" tag)) in
    await result ← try_catch (build_publish router action tag) logAndRethrow in
    exec match detail result with
         | Some d =>
             if published d then logOp (LogSetSuccess (default "Ready" (truthy (message d))))
             else match truthy (message d) with
                  | Some m => logOp (LogSetWarn m)
                  | None => ret tt
                  end
         | None => ret tt
         end in
    ret result.

(** The router the tasks get at run time: [run] and [test] from router/run.ts
    and router/test.ts, [build] from the caller. *)
Definition actionRouter (getStatus build : Action → Js BuildStatus)
    (publish : Action → option string → Js PublishActionResult) : ActionRouter World :=
  {| run_run := runRouter_run;
     run_getResult := runRouter_getResult;
     test_run := testRouter_run;
     test_getResult := testRouter_getResult;
     build_getStatus := getStatus;
     build_build := build;
     build_publish := publish |}.

(** *** What an invocation does, as data *)

(** The observations a computation adds to the trace. *)
Definition effects {A} (m : Js A) (s : St World) : list Obs :=
  drop (length (trace s)) (trace (m s).2).

(** [x] is observed before [y]. *)
Definition before (x y : Obs) (l : list Obs) : Prop :=
  ∃ l1 l2 l3, l = l1 ++ x :: l2 ++ y :: l3.

(** What the "log" listener of a [run] does with the handler's log events. *)
Definition logEffects (p : Params) (actionUid entityType entityKey : string)
    (ls : list PluginLog) : list Obs :=
  l ← ls;
  (if interactive p then []
   else [ObsLog (LogInfo (renderOutputStream (data l) (origin l)))]) ++
  [ObsEmit {| eventName := "log";
              payload := PLog {| l_timestamp := timestamp l;
                                 l_actionUid := actionUid;
                                 l_entityType := entityType;
                                 l_entityKey := entityKey;
                                 l_moduleName := moduleName (action p);
                                 l_data := data l |} |}].

Definition statusEmitted (statusEvent : string) (a : Action) (uid : option string)
    (st : RunStatus) : Obs :=
  ObsEmit {| eventName := statusEvent; payload := statusPayload a uid st |}.

Definition namespaceEffects (r : GetRunResult) : list Obs :=
  match d ← detail r; namespaceStatus d with
  | Some n => [ObsEmit {| eventName := "namespaceStatus"; payload := PNamespace n |}]
  | None => []
  end.

(** The completion, the observations and the final world of the [try] block
    of a [run], from the world it starts in. *)
Definition handled (k : ActionKind) (statusEvent entityType entityKey : string)
    (p : Params) (artifactsPath actionUid : string) (w : World)
  : Completion GetRunResult * list Obs * World :=
  let a := action p in
  match handlers k (type a) "run" with
  | None => (Throw (noHandler k "run" a), [], w)
  | Some h =>
      match h (handlerParams p artifactsPath) w with
      | (ls, c, w') =>
          let called := ObsHandler k "run" (handlerParams p artifactsPath)
                          :: logEffects p actionUid entityType entityKey ls
                          ++ [ObsHandlerDone c] in
          match c with
          | Throw e => (Throw e, called, w')
          | Normal r =>
              match schemaViolation (kind a) (type a) "runtime" (outputs r) with
              | Some (key, why) =>
                  (Throw (PluginError (validationMessage "runtime" a key why)),
                   called ++ [ObsValidate a "runtime" (outputs r)], w')
              | None =>
                  (Normal r,
                   called ++ [ObsValidate a "runtime" (outputs r);
                              statusEmitted statusEvent a (Some actionUid)
                                (runStatus (detail r))]
                          ++ namespaceEffects r, w')
              end
          end
      end
  end.

(** [e] is an error that the artifact copy or the clean-up can throw. *)
Definition thrownByFinaliser (e : JsError) : Prop :=
  (∃ x y w, (copyArtifacts x y w).1 = Throw e)
  ∨ (∃ d w, (tmp_cleanup d w).1 = Throw e).

(** The two ways a [run] can go.  Either the temporary directory could not
    be set up, and nothing else happened; or the first status event was
    emitted, the [try] block ran, and the [finally] block after it. *)
Definition notReached (fx : list Obs) (c : Completion GetRunResult) : Prop :=
  (fx = [ObsTmpDir] ∨ ∃ d, fx = [ObsTmpDir; ObsRealpath d]) ∧ ∃ e, c = Throw e.

Definition reached (k : ActionKind) (statusEvent entityType entityKey artifactType : string)
    (p : Params) (fx : list Obs) (c : Completion GetRunResult) : Prop :=
  ∃ uid d path t w,
    let h := handled k statusEvent entityType entityKey p (normalizePath path) uid w in
    fx = [ObsTmpDir; ObsRealpath d;
          statusEmitted statusEvent (action p) (Some uid) (runningStatus t)]
         ++ h.1.2
         ++ [ObsCopyArtifacts (normalizePath path)
               (getArtifactKey artifactType (name (action p)) (versionString (action p)));
             ObsCleanup d]
    ∧ match c with
      | Normal r => h.1.1 = Normal r
      | Throw e => h.1.1 = Throw e ∨ thrownByFinaliser e
      end.

(** Observations the "log" listener makes. *)
Definition isLogging (o : Obs) : Prop :=
  match o with
  | ObsLog _ => True
  | ObsEmit e => eventName e = "log"
  | _ => False
  end.

(** What the [finally] block of a [run] adds to the trace. *)
Definition collected (artifactType : string) (a : Action) (d path : string) : list Obs :=
  [ObsCopyArtifacts (normalizePath path)
     (getArtifactKey artifactType (name a) (versionString a));
   ObsCleanup d].

(** The completion, the observations and the final world of a [getResult],
    from the world it starts in. *)
Definition resulted (k : ActionKind) (statusEvent : string) (p : Params) (w : World)
  : Completion GetRunResult * list Obs * World :=
  let a := action p in
  let validated (r : GetRunResult) (called : list Obs) (w' : World) :=
    let fx := called ++ [statusEmitted statusEvent a None (runStatus (detail r));
                         ObsValidate a "runtime" (outputs r)] in
    match schemaViolation (kind a) (type a) "runtime" (outputs r) with
    | Some (key, why) =>
        (Throw (PluginError (validationMessage "runtime" a key why)), fx, w')
    | None => (Normal r, fx, w')
    end in
  match handlers k (type a) "getResult" with
  | Some h =>
      match h p w with
      | (ls, c, w') =>
          match c with
          | Throw e => (Throw e, [ObsHandler k "getResult" p; ObsHandlerDone c], w')
          | Normal r => validated r [ObsHandler k "getResult" p; ObsHandlerDone c] w'
          end
      end
  | None => validated {| state := Unknown; detail := None; outputs := ∅ |} [] w
  end.

(** *** The properties of the routers *)

(** Outputs are validated before a result is returned: a result that is
    returned has passed validation, and when validation fails the call
    throws the validation error, or an error of the [finally] block. *)
Definition validatesOutputs (f : Params → Js GetRunResult) : Prop :=
  ∀ p s,
    let a := action p in
    let fx := effects (f p) s in
    (∀ r, (f p s).1 = Normal r →
       ObsValidate a "runtime" (outputs r) ∈ fx
       ∧ schemaViolation (kind a) (type a) "runtime" (outputs r) = None)
    ∧ (∀ o key why,
         ObsValidate a "runtime" o ∈ fx →
         schemaViolation (kind a) (type a) "runtime" o = Some (key, why) →
         ∃ e, (f p s).1 = Throw e
              ∧ (e = PluginError (validationMessage "runtime" a key why)
                 ∨ thrownByFinaliser e)).

(** Status events around the handler: when the handler is called, a status
    event with state "running" has been emitted before; and once the handler
    has returned a result (one that [accepted] holds of), a status event with
    the state derived from the result is emitted, with the same [actionUid]. *)
Definition emitsStatusAround (accepted : GetRunResult → Prop) (k : ActionKind)
    (statusEvent : string) (a : Action) (fx : list Obs) : Prop :=
  ∀ hp, ObsHandler k "run" hp ∈ fx →
    ∃ uid t,
      before (statusEmitted statusEvent a (Some uid) (runningStatus t))
        (ObsHandler k "run" hp) fx
      ∧ ∀ r, ObsHandlerDone (Normal r) ∈ fx → accepted r →
          before (ObsHandlerDone (Normal r))
            (statusEmitted statusEvent a (Some uid) (runStatus (detail r))) fx.

(** The outputs of the result pass the validation of runtime outputs. *)
Definition validOutputs (a : Action) (r : GetRunResult) : Prop :=
  schemaViolation (kind a) (type a) "runtime" (outputs r) = None.

(** Artifacts are collected after the handler: when the handler is called,
    the trace ends with the copy of the artifacts path the handler was given,
    under the artifact key, and then the clean-up of the temporary directory
    that path is the real path of. *)
Definition collectsArtifacts (k : ActionKind) (artifactType : string) (a : Action)
    (fx : list Obs) : Prop :=
  ∀ hp, ObsHandler k "run" hp ∈ fx →
    ∃ d path pre,
      fx = pre ++ [ObsCopyArtifacts (normalizePath path)
                     (getArtifactKey artifactType (name a) (versionString a));
                   ObsCleanup d]
      ∧ artifactsPath hp = Some (normalizePath path)
      ∧ ObsRealpath d ∈ pre
      ∧ ObsHandler k "run" hp ∈ pre
      ∧ ∀ c, ObsHandlerDone c ∈ fx → ObsHandlerDone c ∈ pre.

(** Any result. *)
Definition anyResult (r : GetRunResult) : Prop := True.

(** A status check that fails open: when the router's [getResult] throws an
    error that is not a configuration error, [getStatus] of the Run task
    answers with null, its value for "not up to date". *)
Definition failsOpen (router : ActionRouter World) (p : TaskParams)
    (deps : DependencyResults) (s : St World) : Prop :=
  ∀ a s0 e s1,
    getResolvedAction (taskAction p) deps
      (seen (ObsLog (LogNew (name (taskAction p)) "Checking result...")) s)
    = (Normal a, s0) →
    run_getResult router (routerParams a false false) s0 = (Throw e, s1) →
    (∀ m, e ≠ ConfigurationError m) →
    (RunTask_getStatus router p deps s).1 = Normal None.

(** [sub] occurs in [s]. *)
Definition contains (sub s : string) : Prop := ∃ pre post, s = pre +:+ sub +:+ post.

End Engine.

(** ** Version provider *)

Section VersionProvider.
Context {Spec : Type}.

(** What is hashed: the action's own spec, the content hashes of its source
    files by path, and the versions of its direct dependencies in canonical
    order. *)
Record Fingerprint := {
  ownSpec : Spec;
  sourceFiles : list (string * string);
  dependencyVersions : list string;
}.

Variable hexDigest : Fingerprint → string.

(** The prefix tasks/publish.ts strips to get the hash of a version. *)
Definition versionStringPrefix : string := "v-".

Definition fingerprint (spec : Spec) (sources : list (string * string))
    (dependencies : list string) : Fingerprint :=
  {| ownSpec := spec;
     sourceFiles := sources;
     dependencyVersions := merge_sort String.le dependencies |}.

(** Modelled from the spec: the version provider (vcs) is not among the
    sources.  [computeVersion(action, sourceFiles, dependencyVersions)]
    hashes the action's own spec, the content hashes of its source files and
    the version strings of its direct dependencies, sorted before hashing,
    and returns the hex digest behind a fixed prefix. *)
Definition computeVersion (spec : Spec) (sources : list (string * string))
    (dependencies : list string) : string :=
  versionStringPrefix +:+ hexDigest (fingerprint spec sources dependencies).

End VersionProvider.
Global Arguments Fingerprint : clear implicits.

(** ** Scheduler *)

Section Scheduler.

(** [concurrencyLimitDefault] of [processTasks], and the global ceiling. *)
Variable concurrencyLimitDefault : nat.
Variable globalCeiling : nat.

(** Modelled from the spec: the scheduler (graph solver) is not among the
    sources.  Independent tasks wait in [pending]; a task may enter [process]
    while fewer tasks of its type than its concurrency limit, and fewer tasks
    than the global ceiling, are in process.  Tasks with dependencies among
    them are not part of this model. *)
Record Sched := {
  pending : list Task;
  inProcess : list Task;
  completed : list Task;
}.

Definition limitOf (t : Task) : nat :=
  default concurrencyLimitDefault (concurrencyLimit t).

Definition inProcessOfType (ty : string) (s : Sched) : nat :=
  length (filter (λ t, taskType t = ty) (inProcess s)).

Definition mayStart (s : Sched) (t : Task) : bool :=
  bool_decide (inProcessOfType (taskType t) s < limitOf t
               ∧ length (inProcess s) < globalCeiling)%nat.

Definition startTask (i : nat) (s : Sched) : option Sched :=
  t ← pending s !! i;
  if mayStart s t
  then Some {| pending := delete i (pending s);
               inProcess := t :: inProcess s;
               completed := completed s |}
  else None.

Definition finishTask (i : nat) (s : Sched) : option Sched :=
  t ← inProcess s !! i;
  Some {| pending := pending s;
          inProcess := delete i (inProcess s);
          completed := t :: completed s |}.

Inductive step : Sched → Sched → Prop :=
| step_start i s s' : startTask i s = Some s' → step s s'
| step_finish i s s' : finishTask i s = Some s' → step s s'.

Definition processTasks (rootTasks : list Task) : Sched :=
  {| pending := rootTasks; inProcess := []; completed := [] |}.

End Scheduler.

(** ** A project to run the definitions on *)

Module Fixture.

Definition exampleAction (k : ActionKind) (name type : string) : Action :=
  {| kind := k; name := name; type := type; versionString := "v-1234567890";
     moduleName := "module-a"; moduleVersion := "v-abcdef0123";
     allowPublish := None; isDisabled := false; files := ["garden.yml"] |}.

Definition passed : RunResult :=
  {| success := true; exitCode := Some 0%Z; log := "bla bla";
     startedAt := 10; completedAt := 20; namespaceStatus := None |}.

Definition failedResult : RunResult :=
  {| success := false; exitCode := Some 1%Z; log := "boom";
     startedAt := 10; completedAt := 20; namespaceStatus := None |}.

Definition ok (d : RunResult) (o : Outputs) : GetRunResult :=
  {| state := Ready; detail := Some d; outputs := o |}.

(** The world counts the calls made to collaborators. *)
Definition World : Type := nat.

(** Handlers by action type: "exec" passes after one line of output,
    "wrong-outputs" returns a number under [foo], "failing" reports a failed
    run, "throwing" throws, "copy-fails" passes but its artifacts cannot be
    copied; other types have no handlers. *)
Definition exampleHandlers (k : ActionKind) (type handlerType : string)
  : option (Handler World) :=
  if decide (type = "exec") then
    Some (λ _ w, ([{| timestamp := 15; data := "hello"; origin := Some "sh" |}],
                  Normal (ok passed {["log" := JStr "bla bla"]}), S w))
  else if decide (type = "wrong-outputs") then
    Some (λ _ w, ([], Normal (ok passed {["foo" := JNum 123]}), S w))
  else if decide (type = "failing") then
    Some (λ _ w, ([], Normal {| state := Failed; detail := Some failedResult;
                                outputs := ∅ |}, S w))
  else if decide (type = "throwing") then
    Some (λ _ w, ([], Throw (RuntimeError "connection refused"), S w))
  else None.

(** The outputs schema of the test plugins: [foo], when there, is a string. *)
Definition exampleSchema (k : ActionKind) (type phase : string) (o : Outputs)
  : option (string * string) :=
  match o !! "foo" with
  | Some (JStr _) | None => None
  | Some _ => Some ("foo", "must be a string")
  end.

Definition exampleRunStatus (d : option RunResult) : RunStatus :=
  match d with
  | Some r => {| runState := if success r then "succeeded" else "failed";
                 runStartedAt := Some (startedAt r);
                 runCompletedAt := Some (completedAt r) |}
  | None => {| runState := "not-implemented"; runStartedAt := None;
               runCompletedAt := None |}
  end.

Definition call {A} (a : A) : World → Completion A * World := λ w, (Normal a, S w).

Global Instance exampleEnv : Env World unit Action := {|
  uuidv4 := λ w, ("uid-" +:+ pretty w, S w);
  newDate := λ w, Z.of_nat w;
  tmp_dir := call "/tmp/garden-1";
  makeTempDir := call "/tmp/garden-2";
  realpath := λ p, call p;
  normalizePath := λ p, p;
  tmp_cleanup := λ _, call tt;
  copyArtifacts := λ _ _, call tt;
  getArtifactKey := λ t n v, t +:+ "." +:+ n +:+ "." +:+ v;
  renderOutputStream := λ d _, d;
  runStatus := exampleRunStatus;
  handlers := exampleHandlers;
  schemaViolation := exampleSchema;
  getResolvedAction := λ a _, ret a;
  getExecutedAction := λ a _, ret a;
  executeAction := λ _ a _, a;
  longDescription := λ a, kindName (kind a) +:+ " " +:+ name a;
  matchesRef := λ a r, bool_decide (refKind r = kind a ∧ refName r = name a);
  syncFromSrc := λ _, call tt;
  syncDependencyProducts := λ _, call tt;
  resolveTag := λ t _, ret t;
|}.

Definition start : St World := {| trace := []; world := 0 |}.

Definition taskOn (a : Action) : TaskParams :=
  {| base := {| forceActions := []; fromWatch := false;
                devModeDeployNames := []; localModeDeployNames := [] |};
     taskAction := a; force := false; tagTemplate := None;
     taskSilent := None; taskInteractive := None |}.

(** A build router: builds succeed, publishing is recorded by a log entry. *)
Definition built : BuildStatus :=
  {| state := Ready;
     detail := Some {| buildLog := None; fetched := false; fresh := true |};
     outputs := ∅ |}.

Definition exampleRouter : ActionRouter World :=
  actionRouter (λ _, ret built) (λ _, ret built)
    (λ _ _, exec logOp (LogInfo "published") in
            ret {| state := Ready;
                   detail := Some {| published := true; message := None;
                                     identifier := None |};
                   outputs := ∅ |}).

Definition execRun : Params := routerParams (exampleAction Run "task-a" "exec") false false.
Definition wrongRun : Params :=
  routerParams (exampleAction Run "task-a" "wrong-outputs") false false.
Definition throwingRun : Params :=
  routerParams (exampleAction Run "task-a" "throwing") false false.

Definition failingTask : TaskParams := taskOn (exampleAction Run "task-a" "failing").
Definition throwingTask : TaskParams := taskOn (exampleAction Run "task-a" "throwing").
Definition unhandledTask : TaskParams := taskOn (exampleAction Run "task-a" "none").

(** A build that must not be published, and one that a force reference
    matches. *)
Definition privateBuild : TaskParams :=
  {| base := {| forceActions := []; fromWatch := false;
                devModeDeployNames := []; localModeDeployNames := [] |};
     taskAction := {| kind := Build; name := "module-a"; type := "container";
                      versionString := "v-1234567890"; moduleName := "module-a";
                      moduleVersion := "v-abcdef0123"; allowPublish := Some false;
                      isDisabled := false; files := [] |};
     force := false; tagTemplate := None; taskSilent := None;
     taskInteractive := None |}.

Definition forcedBuild : TaskParams :=
  {| base := {| forceActions := [{| refKind := Run; refName := "task-a" |};
                                 {| refKind := Build; refName := "module-a" |}];
                fromWatch := false;
                devModeDeployNames := []; localModeDeployNames := [] |};
     taskAction := exampleAction Build "module-a" "container";
     force := false; tagTemplate := None; taskSilent := None;
     taskInteractive := None |}.

(** The spec of a container build, as far as the version tests change it. *)
Record ContainerBuildSpec := {
  buildArgs : list (string * string);
  targetImage : option string;
  extraFlags : list string;
  dockerfile : option string;
}.

Definition baseConfig : ContainerBuildSpec :=
  {| buildArgs := []; targetImage := None; extraFlags := []; dockerfile := None |}.

(** A digest for the examples: the fields, written one after the other. *)
Definition exampleDigest (f : Fingerprint ContainerBuildSpec) : string :=
  let spec := ownSpec f in
  String.concat "," ((λ kv, kv.1 +:+ "=" +:+ kv.2) <$> buildArgs spec)
  +:+ ";" +:+ default "" (targetImage spec)
  +:+ ";" +:+ String.concat "," (extraFlags spec)
  +:+ ";" +:+ default "" (dockerfile spec)
  +:+ ";" +:+ String.concat "," ((λ kv, kv.1 +:+ ":" +:+ kv.2) <$> sourceFiles f)
  +:+ ";" +:+ String.concat "," (dependencyVersions f).

Definition exampleSources : list (string * string) := [("Dockerfile", "0a1b2c")].

Definition buildTasks (n : nat) : list Task :=
  (λ i, BuildTask (taskOn (exampleAction Build ("build-" +:+ pretty i) "container")))
    <$> seq 0 n.

End Fixture.

(** ** More on the routers and tasks *)

Section EngineProperties.
Context {World DependencyResults ExecutedAction : Type}.
Context `{!Env World DependencyResults ExecutedAction}.

(** The "log" events of a [run] belong to it: each carries the [actionUid]
    of the first status event, and the entity the router names. *)
Definition logsCarryUid (statusEvent entityType entityKey : string) (a : Action)
    (fx : list Obs) : Prop :=
  ∀ pl, ObsEmit {| eventName := "log"; payload := PLog pl |} ∈ fx →
    ∃ t, statusEmitted statusEvent a (Some (l_actionUid pl)) (runningStatus t) ∈ fx
         ∧ l_entityType pl = entityType
         ∧ l_entityKey pl = entityKey
         ∧ l_moduleName pl = moduleName a.

(** The calls of plugin handlers among some observations. *)
Definition isHandlerCall (o : Obs) : bool :=
  match o with
  | ObsHandler _ _ _ => true
  | _ => false
  end.

Definition handlerCalls (fx : list Obs) : nat :=
  length (filter (λ o, isHandlerCall o = true) fx).

(** What a [getResult] does to the event bus and the file system: every
    event it emits is a status event without [actionUid]; the outputs it
    validates are those of a result whose status it has emitted before; and
    it makes no temporary directory and copies no artifacts. *)
Definition reportsResult (statusEvent : string) (a : Action) (fx : list Obs) : Prop :=
  (∀ e, ObsEmit e ∈ fx → ∃ st, ObsEmit e = statusEmitted statusEvent a None st)
  ∧ (∀ a' phase o, ObsValidate a' phase o ∈ fx →
       ∃ r : GetRunResult,
         o = outputs r
         ∧ before (statusEmitted statusEvent a None (runStatus (detail r)))
             (ObsValidate a "runtime" o) fx)
  ∧ (ObsTmpDir ∉ fx)
  ∧ ∀ x y, ObsCopyArtifacts x y ∉ fx.

(** The tag a Publish task passes on: the resolved template, or none. *)
Definition publishTag (p : TaskParams) (action : Action) : Js World (option string) :=
  match truthy (tagTemplate p) with
  | Some t => await r ← resolveTag t action in ret (Some r)
  | None => ret None
  end.

(** The log entry a Publish task closes with. *)
Definition publishLogged (result : PublishActionResult) (s : St World) : St World :=
  match detail result with
  | Some d =>
      if published d
      then seen (ObsLog (LogSetSuccess (default "Ready" (truthy (message d))))) s
      else match truthy (message d) with
           | Some m => seen (ObsLog (LogSetWarn m)) s
           | None => s
           end
  | None => s
  end.

(** What [process] of a Build task writes to the log before it syncs. *)
Definition buildAnnounced (p : TaskParams) (action : Action) : list Obs :=
  (if isDisabled action
   then [ObsLog (LogInfo (longDescription action +:+
           " is disabled, but is being executed because another action depends on it."))]
   else [])
  ++ [ObsLog (LogNew (name (taskAction p)) "");
      ObsLog (LogInfo ("Building version " +:+ versionString (taskAction p) +:+ "..."))]
  ++ (if decide (0 < length (files action))%nat
      then [ObsLog (LogVerbose "Syncing module sources...")]
      else [])%list.

End EngineProperties.

(** A project whose file system fails at times: [tmp.dir] throws in the
    world 1, [realpath] in the world 4, [syncFromSrc] in the world 5 and
    [syncDependencyProducts] in the world 7. *)
Module Outage.

Definition diskFull : JsError := RuntimeError "ENOSPC: no space left on device".

Definition unlessWorld {A} (n : nat) (a : A) : nat → Completion A * nat :=
  λ w, ((if decide (w = n) then Throw diskFull else Normal a), S w).

Definition env : Env nat unit Action := {|
  uuidv4 := λ w, ("uid-" +:+ pretty w, S w);
  newDate := λ w, Z.of_nat w;
  tmp_dir := unlessWorld 1 "/tmp/garden-1";
  makeTempDir := unlessWorld 1 "/tmp/garden-2";
  realpath := λ p, unlessWorld 4 p;
  normalizePath := λ p, p;
  tmp_cleanup := λ _, Fixture.call tt;
  copyArtifacts := λ _ _, Fixture.call tt;
  getArtifactKey := λ t n v, t +:+ "." +:+ n +:+ "." +:+ v;
  renderOutputStream := λ d _, d;
  runStatus := Fixture.exampleRunStatus;
  handlers := Fixture.exampleHandlers;
  schemaViolation := Fixture.exampleSchema;
  getResolvedAction := λ a _, ret a;
  getExecutedAction := λ a _, ret a;
  executeAction := λ _ a _, a;
  longDescription := λ a, kindName (kind a) +:+ " " +:+ name a;
  matchesRef := λ a r, bool_decide (refKind r = kind a ∧ refName r = name a);
  syncFromSrc := λ _, unlessWorld 5 tt;
  syncDependencyProducts := λ _, unlessWorld 7 tt;
  resolveTag := λ t _, ret t;
|}.

(** A build router whose registry refuses the image: [publish] returns
    [published: false] with a message. *)
Definition refused : PublishActionResult :=
  {| state := Ready;
     detail := Some {| published := false; message := Some "image is up to date";
                       identifier := None |};
     outputs := ∅ |}.

Definition refusingRouter : ActionRouter nat :=
  actionRouter (Env0 := env) (λ _, ret Fixture.built) (λ _, ret Fixture.built)
    (λ _ _, ret refused).

Definition taggedPublish : TaskParams :=
  {| base := base (Fixture.taskOn (Fixture.exampleAction Build "module-a" "container"));
     taskAction := Fixture.exampleAction Build "module-a" "container";
     force := false; tagTemplate := Some "v1.0"; taskSilent := None;
     taskInteractive := None |}.

End Outage.

(** ** logger/util.ts *)

Module LoggerUtil.

Local Set Warnings "-register-all".

(** The latest message of a log entry, as far as the functions read it. *)
Record LogEntryMessage := {
  msg : option string;
  section : option string;
}.

(** A node of the log tree, seen from above: a [Logger] or a [LogEntry] with
    the entries nested under it. *)
Inductive LogNode : Type :=
  Node (key : string) (level : nat) (latest : LogEntryMessage) (children : list LogNode).

Definition key (node : LogNode) : string :=
  match node with Node k _ _ _ => k end.
Definition level (node : LogNode) : nat :=
  match node with Node _ l _ _ => l end.
Definition getLatestMessage (node : LogNode) : LogEntryMessage :=
  match node with Node _ _ m _ => m end.
Definition children (node : LogNode) : list LogNode :=
  match node with Node _ _ _ cs => cs end.

(** A log entry, seen from below: its latest message and its parents. *)
Inductive LogEntry : Type :=
  Entry (key : string) (latest : LogEntryMessage) (parent : option LogEntry).

Definition latestMessage (entry : LogEntry) : LogEntryMessage :=
  match entry with Entry _ m _ => m end.
Definition parent (entry : LogEntry) : option LogEntry :=
  match entry with Entry _ _ p => p end.

(** An entry and its parents, from the entry upwards. *)
Fixpoint lineage (entry : LogEntry) : list LogEntry :=
  match entry with
  | Entry _ _ p =>
      entry :: match p with
               | Some e => lineage e
               | None => []
               end
  end.

Section Traverse.
Context {S : Type}.
(** The callback, with the variables it closes over as a state. *)
Variable cb : LogNode → S → bool * S.

Section Loop.
Variable recurse : LogNode → S → S.

(** The [for] loop of [traverseChildren], over the children in the order
    they are visited: a callback that returns false ends this loop, and
    only this one. *)
Fixpoint loop (children : list LogNode) (st : S) : S :=
  match children with
  | [] => st
  | child :: rest =>
      match cb child st with
      | (true, st') => loop rest (recurse child st')
      | (false, st') => st'
      end
  end.

End Loop.

(** [traverseChildren(node, cb)], as the recursive call has it: [reverse]
    is not passed on. *)
Fixpoint traverse (node : LogNode) (st : S) : S :=
  match node with
  | Node _ _ _ cs => loop traverse cs st
  end.

Definition traverseChildren (node : LogNode) (reverse : bool) (st : S) : S :=
  loop traverse (if reverse then rev (children node) else children node) st.

End Traverse.

(** The callback of [getChildNodes], on the array it pushes to. *)
Definition push (child : LogNode) (childNodes : list LogNode) : bool * list LogNode :=
  (true, childNodes ++ [child]).

Definition getChildNodes (node : LogNode) : list LogNode :=
  traverseChildren push node false [].

Definition getChildEntries (node : LogNode) : list LogNode := getChildNodes node.

Fixpoint findParentEntry (entry : LogEntry) (predicate : LogEntry → bool)
  : option LogEntry :=
  match entry with
  | Entry _ _ p =>
      if predicate entry then Some entry
      else match p with
           | Some e => findParentEntry e predicate
           | None => None
           end
  end.

(** [s && sections.push(s)] *)
Definition pushSection (m : LogEntryMessage) : list string :=
  match truthy (section m) with
  | Some s => [s]
  | None => []
  end.

(** The [while] loop of [getAllSections], from the parent it is at. *)
Fixpoint parentSections (p : LogEntry) : list string :=
  match p with
  | Entry _ m p' =>
      pushSection m ++ match p' with
                       | Some e => parentSections e
                       | None => []
                       end
  end.

Definition getAllSections (entry : LogEntry) (m : LogEntryMessage) : list string :=
  match parent entry with
  | Some p => parentSections p
  | None => []
  end ++ pushSection m.

(** The callback of [findLogEntry], on the variable [found]. *)
Definition remember (predicate : LogNode → bool) (entry : LogNode)
    (found : option LogNode) : bool * option LogNode :=
  if predicate entry then (false, Some entry) else (true, found).

Definition findLogEntry (node : LogNode) (predicate : LogNode → bool) : option LogNode :=
  traverseChildren (remember predicate) node false None.

(** [msg.length > 0 ? msg.split("\n").length : 0] *)
Fixpoint newlines (s : string) : nat :=
  match s with
  | EmptyString => 0
  | String c rest => (if Ascii.eqb c (Ascii.ascii_of_nat 10) then 1 else 0) + newlines rest
  end.

Definition msgLines (m : option string) : Z :=
  match truthy m with
  | Some s => Z.of_nat (S (newlines s))
  | None => 0
  end.

(** The callback of [tailChildEntries], on [output] and [outputLines]. *)
Definition collect (maxLevel : nat) (lines : Z) (entry : LogNode)
    (st : list LogNode * Z) : bool * (list LogNode * Z) :=
  let '(output, outputLines) := st in
  if decide (level entry ≤ maxLevel)%nat then
    let outputLines' := (outputLines + msgLines (msg (getLatestMessage entry)))%Z in
    (negb (bool_decide (lines ≤ outputLines')%Z), (output ++ [entry], outputLines'))
  else (true, (output, outputLines)).

Definition tailChildEntries (node : LogNode) (maxLevel : nat) (lines : Z)
  : list LogNode :=
  (traverseChildren (collect maxLevel lines) node false ([], 0%Z)).1.

(** The lines of the latest messages of some entries. *)
Definition linesOf (entries : list LogNode) : Z :=
  foldr (λ e n, msgLines (msg (getLatestMessage e)) + n)%Z 0%Z entries.

(** What a traversal with the callback of [tailChildEntries] adds to the
    output, given the entries it goes over. *)
Definition tailed (maxLevel : nat) (lines : Z) (entries : list LogNode)
    (st st' : list LogNode * Z) : Prop :=
  ∃ ext,
    st' = (st.1 ++ ext, (st.2 + linesOf ext)%Z)
    ∧ sublist ext (filter (λ e, (level e ≤ maxLevel)%nat) entries)
    ∧ (ext = filter (λ e, (level e ≤ maxLevel)%nat) entries
       ∨ (lines ≤ st.2 + linesOf ext)%Z).

Fixpoint findSection (entry : LogEntry) : option string :=
  match entry with
  | Entry _ m p =>
      match truthy (section m) with
      | Some s => Some s
      | None => match p with
                | Some e => findSection e
                | None => None
                end
      end
  end.

(** What a call gives: a value, or the [TypeError] of reading a property
    of [undefined]. *)
Inductive Outcome (A : Type) : Type :=
  | Returns (a : A)
  | ThrowsTypeError.
Global Arguments Returns {A} _.
Global Arguments ThrowsTypeError {A}.

(** [getPrecedingEntry(entry)], from [entry.parent] as a node of the tree
    and [entry.key].  [siblings[index - 1]] is [undefined] when no sibling
    has the key, and [getChildEntries] then reads [undefined.children]. *)
Definition getPrecedingEntry (entryParent : option LogNode) (entryKey : string)
  : Outcome (option LogNode) :=
  match entryParent with
  | None => Returns None
  | Some p =>
      let siblings := children p in
      match list_find (λ e, key e = entryKey) siblings with
      | Some (0%nat, _) => Returns (Some p)
      | Some (S i, _) =>
          match siblings !! i with
          | Some sibling =>
              match last (getChildEntries sibling) with
              | Some e => Returns (Some e)
              | None => Returns (Some sibling)
              end
          | None => ThrowsTypeError
          end
      | None => ThrowsTypeError
      end
  end.

End LoggerUtil.

(** ** plugins/container/build.ts and publish.ts *)

Module Container.

Definition defaultDockerfileName : string := "Dockerfile".

(** A value of a [PrimitiveMap]; [Number] stands for the JS numbers. *)
Inductive Primitive (Number : Type) : Type :=
  | PString (s : string)
  | PNumber (n : Number)
  | PBoolean (b : bool)
  | PNull.
Global Arguments PString {Number} _.
Global Arguments PNumber {Number} _.
Global Arguments PBoolean {Number} _.
Global Arguments PNull {Number}.

(** An object with primitive values: its properties in the order they were
    added. *)
Abbreviation PrimitiveMap Number := (list (string * Primitive Number)).

(** *** The order of the properties of an object *)

Definition isDigit (c : Ascii.ascii) : bool :=
  (48 <=? Ascii.nat_of_ascii c)%nat && (Ascii.nat_of_ascii c <=? 57)%nat.

Fixpoint digitsValue (s : string) (acc : N) : option N :=
  match s with
  | EmptyString => Some acc
  | String c rest =>
      if isDigit c then digitsValue rest (10 * acc + (Ascii.N_of_ascii c - 48))%N
      else None
  end.

(** The array index a property key is, if it is one: a canonical numeric
    string below 2^32 - 1. *)
Definition arrayIndex (key : string) : option N :=
  match key with
  | EmptyString => None
  | String c rest =>
      if Ascii.eqb c (Ascii.ascii_of_nat 48) && negb (String.eqb rest "") then None
      else match digitsValue key 0 with
           | Some n => if (n <? 4294967295)%N then Some n else None
           | None => None
           end
  end.

Section Objects.
Context {Number : Type}.

(** Setting a property: in place when the object has the key, at the end
    otherwise. *)
Fixpoint assign (o : PrimitiveMap Number) (key : string) (value : Primitive Number)
  : PrimitiveMap Number :=
  match o with
  | [] => [(key, value)]
  | (k, v) :: rest =>
      if decide (k = key) then (k, value) :: rest else (k, v) :: assign rest key value
  end.

(** [{ ...target, ...source }] *)
Definition spread (target source : PrimitiveMap Number) : PrimitiveMap Number :=
  foldl (λ o kv, assign o kv.1 kv.2) target source.

Definition indexOrder : relation (N * (string * Primitive Number)) :=
  λ a b, (a.1 ≤ b.1)%N.

Global Instance indexOrder_dec a b : Decision (indexOrder a b).
Proof. unfold indexOrder. apply _. Defined.

(** [Object.entries]: the array indices in ascending order, then the other
    keys in the order they were added. *)
Definition entries (o : PrimitiveMap Number) : PrimitiveMap Number :=
  (snd <$> merge_sort indexOrder
             (omap (λ kv, n ← arrayIndex kv.1; Some (n, kv)) o))
  ++ filter (λ kv, arrayIndex kv.1 = None) o.

(** *** build.ts *)

Variable isNaN : Number → bool.
Variable numberToString : Number → string.

(** [value || value === 0]: the text of the value, when it has one to show. *)
Definition shown (value : Primitive Number) : option string :=
  match value with
  | PString s => truthy (Some s)
  | PNumber n => if isNaN n then None else Some (numberToString n)
  | PBoolean true => Some "true"
  | PBoolean false => None
  | PNull => None
  end.

Definition buildArg (kv : string * Primitive Number) : string :=
  match shown kv.2 with
  | Some text => kv.1 +:+ "=" +:+ text
  | None => kv.1
  end.

Definition getDockerBuildArgs (version : string) (specBuildArgs : PrimitiveMap Number)
  : list string :=
  let buildArgs :=
    spread [("GARDEN_MODULE_VERSION", PString version);
            ("GARDEN_BUILD_VERSION", PString version)] specBuildArgs in
  buildArg <$> entries buildArgs.

Record ContainerBuildSpec := {
  buildArgs : PrimitiveMap Number;
  targetStage : option string;
  extraFlags : option (list string);
  dockerfile : option string;
}.

(** A resolved container build action, as far as the handlers read it. *)
Record ContainerBuildAction := {
  name : string;
  versionString : string;
  getBuildPath : string;
  getSpec : ContainerBuildSpec;
  localImageId : string;
  timeout : Z;
}.

Definition getDockerBuildFlags (action : ContainerBuildAction) : list string :=
  (getDockerBuildArgs (versionString action) (buildArgs (getSpec action))
     ≫= λ arg, ["--build-arg"; arg])
  ++ match truthy (targetStage (getSpec action)) with
     | Some stage => ["--target"; stage]
     | None => []
     end
  ++ default [] (extraFlags (getSpec action)).

(** *** The handlers *)

(** What [dockerCli] resolves to. *)
Record DockerResult := { all : option string }.

(** The state the handlers run on: the "log" events sent to [ctx.events],
    and the docker host. *)
Record Host (World : Type) := {
  events : list PluginLog;
  docker : World;
}.
Global Arguments events {World} _.
Global Arguments docker {World} _.

(** [containerHelpers], from plugins/container/helpers.ts.  [dockerCli] is
    given [cwd], [args] and [timeout]; it also gives the lines it writes to
    its output streams, with the time of each. *)
Class ContainerHelpers (World : Type) := {
  getDockerVersion : World → Completion string * World;
  checkDockerServerVersion : string → Completion unit;
  actionHasDockerfile : ContainerBuildAction → World → Completion bool * World;
  getPublicImageId : ContainerBuildAction → option string → string;
  joinWithPosix : string → option string → string;
  dockerCli : string → list string → option Z → World →
              list (Z * string) * Completion DockerResult * World;
}.

Section Handlers.
Context {World : Type} `{!ContainerHelpers World}.

(** A call of a helper that is not given the output streams. *)
Definition helper {A} (f : World → Completion A * World) : Js (Host World) A :=
  λ s, match f (docker (world s)) with
       | (c, w) => (c, {| trace := trace s;
                          world := {| events := events (world s); docker := w |} |})
       end.

(** [dockerCli] with [outputStream] as [stdout] and [stderr]: every line is
    sent on as a "log" event. *)
Definition dockerBuild (cwd : string) (args : list string) (timeout : Z)
  : Js (Host World) DockerResult :=
  λ s, match dockerCli cwd args (Some timeout) (docker (world s)) with
       | (lines, c, w) =>
           (c, {| trace := trace s;
                  world := {| events := events (world s)
                                ++ ((λ l, {| timestamp := l.1; data := l.2;
                                             origin := Some "docker build" |}) <$> lines);
                              docker := w |} |})
       end.

Definition dockerfileNotFound (action : ContainerBuildAction) : string :=
  "Dockerfile not found at "
  +:+ default defaultDockerfileName (truthy (dockerfile (getSpec action)))
  +:+ " for build " +:+ name action +:+ ".
      Please make sure the file exists, and is not excluded by include/exclude fields or .gardenignore files.".

(** The result of [buildContainer]. *)
Record ContainerBuildResult := {
  buildState : ActionState;
  buildFresh : bool;
  builtLog : string;
  builtIdentifier : string;
}.

Definition buildContainer (action : ContainerBuildAction)
  : Js (Host World) ContainerBuildResult :=
  await version ← helper getDockerVersion in
  exec (λ s, (checkDockerServerVersion version, s)) in
  let buildPath := getBuildPath action in
  let spec := getSpec action in
  await hasDockerfile ← helper (actionHasDockerfile action) in
  if negb hasDockerfile then throw (ConfigurationError (dockerfileNotFound action))
  else
    let identifier := localImageId action in
    exec logOp (LogInfo ("Building " +:+ identifier +:+ "...")) in
    let dockerfilePath := joinWithPosix (getBuildPath action) (dockerfile spec) in
    let cmdOpts := ["build"; "-t"; identifier] ++ getDockerBuildFlags action
                   ++ ["--file"; dockerfilePath] in
    exec logOp (LogNew "" "") in
    await res ← dockerBuild (getBuildPath action) (cmdOpts ++ [buildPath])
                  (timeout action) in
    ret {| buildState := Ready; buildFresh := true;
           builtLog := default "" (all res); builtIdentifier := identifier |}.

Definition publishContainerBuild (action : ContainerBuildAction) (tag : option string)
  : Js (Host World) PublishActionResult :=
  let localId := localImageId action in
  let remoteId := getPublicImageId action tag in
  exec logOp (LogInfo ("Publishing image " +:+ remoteId +:+ "...")) in
  exec (if decide (localId = remoteId) then ret tt
        else await _ ← helper (λ w, let '(_, c, w') :=
                                     dockerCli (getBuildPath action)
                                       ["tag"; localId; remoteId] None w in (c, w')) in
             ret tt) in
  await _ ← helper (λ w, let '(_, c, w') :=
                           dockerCli (getBuildPath action) ["push"; remoteId] None w in
                         (c, w')) in
  ret {| state := Ready;
         detail := Some {| published := true;
                           message := Some ("Published " +:+ remoteId);
                           identifier := None |};
         outputs := ∅ |}.

End Handlers.
End Objects.

End Container.

(** ** plugins/kubernetes/container/build/kaniko.ts *)

Module Kaniko.

Definition DEFAULT_KANIKO_FLAGS : list string := ["--cache=true"].

Definition contextPath : string := "/.garden" +:+ "/context".

Definition isLetter (c : Ascii.ascii) : bool :=
  ((65 <=? Ascii.nat_of_ascii c)%nat && (Ascii.nat_of_ascii c <=? 90)%nat)
  || ((97 <=? Ascii.nat_of_ascii c)%nat && (Ascii.nat_of_ascii c <=? 122)%nat).

Definition hyphen : Ascii.ascii := Ascii.ascii_of_nat 45.

(** The letters a-z, A-Z at the start of a string. *)
Fixpoint letters (s : string) : string :=
  match s with
  | EmptyString => EmptyString
  | String c rest => if isLetter c then String c (letters rest) else EmptyString
  end.

(** [found[0]] of the match in [flagToKey], whose pattern is two hyphens and
    then any number of letters a-z, A-Z: the leftmost "--" of the flag with
    the letters that follow it. *)
Fixpoint matchKey (flag : string) : option string :=
  match flag with
  | EmptyString => None
  | String c rest =>
      match rest with
      | String c' rest' =>
          if Ascii.eqb c hyphen && Ascii.eqb c' hyphen then Some ("--" +:+ letters rest')
          else matchKey rest
      | EmptyString => None
      end
  end.

Definition flagToKey (flag : string) : Completion string :=
  match matchKey flag with
  | Some found => Normal found
  | None => Throw (ConfigurationError "Invalid format for a kaniko flag")
  end.

Section DifferenceBy.
Variable iteratee : string → Completion string.

(** [arrayMap(values, iteratee)], with an iteratee that may throw. *)
Fixpoint arrayMap (values : list string) : Completion (list string) :=
  match values with
  | [] => Normal []
  | value :: rest =>
      match iteratee value with
      | Throw e => Throw e
      | Normal computed =>
          match arrayMap rest with
          | Throw e => Throw e
          | Normal computeds => Normal (computed :: computeds)
          end
      end
  end.

(** The loop of lodash's [baseDifference] over [array]. *)
Fixpoint outer (array : list string) (computeds : list string) : Completion (list string) :=
  match array with
  | [] => Normal []
  | value :: rest =>
      match iteratee value with
      | Throw e => Throw e
      | Normal computed =>
          match outer rest computeds with
          | Throw e => Throw e
          | Normal result =>
              Normal (if decide (computed ∈ computeds) then result else value :: result)
          end
      end
  end.

(** lodash's [differenceBy(array, values, iteratee)]: nothing is computed
    for an empty [array]; otherwise the iteratee is first applied to all of
    [values], then to each element of [array]. *)
Definition differenceBy (array values : list string) : Completion (list string) :=
  match array with
  | [] => Normal []
  | _ => match arrayMap values with
         | Throw e => Throw e
         | Normal computeds => outer array computeds
         end
  end.

End DifferenceBy.

Definition getKanikoFlags (flags topLevelFlags : option (list string))
  : Completion (list string) :=
  match flags, topLevelFlags with
  | None, None => Normal DEFAULT_KANIKO_FLAGS
  | _, _ =>
      match differenceBy flagToKey DEFAULT_KANIKO_FLAGS
              (match flags with
               | Some fs => fs
               | None => default [] topLevelFlags
               end) with
      | Throw e => Throw e
      | Normal defaultsToKeep =>
          match differenceBy flagToKey (default [] topLevelFlags) (default [] flags) with
          | Throw e => Throw e
          | Normal topLevelToKeep =>
              Normal (default [] flags ++ topLevelToKeep ++ defaultsToKeep)
          end
      end
  end.

(** The arguments [kanikoBuild] runs kaniko with. *)
Definition kanikoArgs {Number : Type} (isNaN : Number → bool)
    (numberToString : Number → string) (action : Container.ContainerBuildAction)
    (deploymentImageId : string) (topLevelFlags : option (list string))
    (insecure : bool) : Completion (list string) :=
  let spec := Container.getSpec action in
  let dockerfile :=
    default Container.defaultDockerfileName (truthy (Container.dockerfile spec)) in
  match getKanikoFlags (Container.extraFlags spec) topLevelFlags with
  | Throw e => Throw e
  | Normal flags =>
      Normal (["--context"; "dir://" +:+ contextPath; "--dockerfile"; dockerfile;
               "--destination"; deploymentImageId]
              ++ flags
              ++ (if insecure then ["--insecure"] else [])
              ++ Container.getDockerBuildFlags isNaN numberToString action)
  end.

End Kaniko.

(** ** tasks/test.ts: [filterTestConfigs] *)

Module TestConfigs.

Record TestConfig := {
  name : string;
  disabled : bool;
}.

Record ModuleConfig := {
  moduleName : string;
  testConfigs : list TestConfig;
}.

Section Filter.
(** [minimatch(name, pattern)], and [moduleTestNameToActionName] from
    types/module.ts. *)
Variable minimatch : string → string → bool.
Variable moduleTestNameToActionName : string → string → string.

(** lodash's [find] gives the first name that matches, and [filter] takes
    what [acceptableTestConfig] returns as a condition: a name that is
    found counts when it is not the empty string. *)
Definition acceptableTestConfig (module : ModuleConfig) (filterNames : option (list string))
    (test : TestConfig) : bool :=
  if disabled test then false
  else match filterNames with
       | None | Some [] => true
       | Some names =>
           let testName := moduleTestNameToActionName (moduleName module) (name test) in
           match list_find (λ n, minimatch testName n = true) names with
           | Some (_, n) => bool_decide (n ≠ "")
           | None => false
           end
       end.

Definition filterTestConfigs (module : ModuleConfig) (filterNames : option (list string))
  : list TestConfig :=
  filter (λ test, acceptableTestConfig module filterNames test = true) (testConfigs module).

End Filter.

End TestConfigs.

(** ** The Kubernetes workload of a container deploy: names and labels *)

Module Workload.

Record ContainerDeployAction := {
  name : string;
  moduleName : option string;
  versionString : string;
  daemon : bool;
}.

Inductive WorkloadKind := DaemonSet | Deployment.

(** The workload [workloadConfig] returns, as far as its name and labels
    go. *)
Record WorkloadResource := {
  kind : WorkloadKind;
  metadataName : string;
  metadataLabels : gmap string string;
  matchLabels : gmap string string;
  templateLabels : gmap string string;
}.

Section Labels.
(** [gardenAnnotationKey] from util/string.ts. *)
Variable gardenAnnotationKey : string → string.

Definition getDeploymentName (deployName : string) (blueGreen : bool)
    (versionString : string) : string :=
  if blueGreen then deployName +:+ "-" +:+ versionString else deployName.

(** An object literal with computed keys: a later property replaces an
    earlier one with the same key. *)
Definition getDeploymentLabels (action : ContainerDeployAction) (blueGreen : bool)
  : gmap string string :=
  let labels :=
    <[gardenAnnotationKey "service" := name action]>
      (<[gardenAnnotationKey "actionName" := name action]>
         (<[gardenAnnotationKey "module" := default "" (moduleName action)]> ∅)) in
  if blueGreen then <[gardenAnnotationKey "version" := versionString action]> labels
  else labels.

Definition getDeploymentSelector (action : ContainerDeployAction) (blueGreen : bool)
  : gmap string string :=
  delete (gardenAnnotationKey "module") (getDeploymentLabels action blueGreen).

(** The action at another version. *)
Definition atVersion (action : ContainerDeployAction) (version : string)
  : ContainerDeployAction :=
  {| name := name action; moduleName := moduleName action;
     versionString := version; daemon := daemon action |}.

Definition workloadConfig (action : ContainerDeployAction) (blueGreen : bool)
  : WorkloadResource :=
  let labels := getDeploymentLabels action blueGreen in
  {| kind := if daemon action then DaemonSet else Deployment;
     metadataName := getDeploymentName (name action) blueGreen (versionString action);
     metadataLabels := labels;
     matchLabels := getDeploymentSelector action blueGreen;
     templateLabels := labels |}.

End Labels.

End Workload.

(** ** Examples for the logger, the container plugin and the workloads *)

Module Examples.

(** A log tree: an error is nested under the first entry, another one is
    the second entry. *)
Definition logged (key : string) (level : nat) (text : string)
    (children : list LoggerUtil.LogNode) : LoggerUtil.LogNode :=
  LoggerUtil.Node key level {| LoggerUtil.msg := Some text; LoggerUtil.section := None |}
    children.

Definition nestedError : LoggerUtil.LogNode := logged "a1" 0 "build failed" [].
Definition building : LoggerUtil.LogNode := logged "a" 2 "Building..." [nestedError].
Definition deployError : LoggerUtil.LogNode := logged "b" 0 "deploy failed" [].
Definition logRoot : LoggerUtil.LogNode := logged "root" 2 "" [building; deployError].

Definition isError (entry : LoggerUtil.LogNode) : bool :=
  bool_decide (LoggerUtil.level entry = 0%nat).

(** A container build with build args that replace GARDEN_BUILD_VERSION,
    with numbers as integers. *)
Definition neverNaN (n : Z) : bool := false.

Definition buildSpec : Container.ContainerBuildSpec :=
  {| Container.buildArgs := [("FOO", Container.PString "bar");
                             ("GARDEN_BUILD_VERSION", Container.PString "custom");
                             ("DEBUG", Container.PBoolean false);
                             ("RETRIES", Container.PNumber 0%Z)];
     Container.targetStage := Some "prod";
     Container.extraFlags := Some ["--cache-from"; "some-image:latest"];
     Container.dockerfile := Some "prod.Dockerfile" |}.

Definition containerBuild : Container.ContainerBuildAction :=
  {| Container.name := "module-a";
     Container.versionString := "v-1234567890";
     Container.getBuildPath := "/build/module-a";
     Container.getSpec := buildSpec;
     Container.localImageId := "module-a:v-1234567890";
     Container.timeout := 1200 |}.

(** The same build with other extra flags. *)
Definition flagged (flags : list string) : Container.ContainerBuildAction :=
  {| Container.name := Container.name containerBuild;
     Container.versionString := Container.versionString containerBuild;
     Container.getBuildPath := Container.getBuildPath containerBuild;
     Container.getSpec :=
       {| Container.buildArgs := Container.buildArgs buildSpec;
          Container.targetStage := Container.targetStage buildSpec;
          Container.extraFlags := Some flags;
          Container.dockerfile := Container.dockerfile buildSpec |};
     Container.localImageId := Container.localImageId containerBuild;
     Container.timeout := Container.timeout containerBuild |}.

(** A docker host that counts the calls of the docker CLI; only the default
    Dockerfile is there. *)
Global Instance dockerHost : Container.ContainerHelpers (Number := Z) nat := {|
  Container.getDockerVersion := λ w, (Normal "20.10.17", w);
  Container.checkDockerServerVersion := λ _, Normal tt;
  Container.actionHasDockerfile := λ action w,
    (Normal (bool_decide (Container.dockerfile (Container.getSpec action) = None)), w);
  Container.getPublicImageId := λ action tag,
    "registry.example.com/" +:+ Container.name action +:+ ":"
    +:+ default (Container.versionString action) tag;
  Container.joinWithPosix := λ path file, path +:+ "/" +:+ default "" file;
  Container.dockerCli := λ cwd args timeout w,
    ([(1%Z, "Step 1/1 : FROM scratch")], Normal {| Container.all := Some "done" |}, S w);
|}.

Definition idle : St (Container.Host nat) :=
  {| trace := []; world := {| Container.events := []; Container.docker := 0 |} |}.

(** A module with a disabled test, and a [minimatch] that knows "*" at the
    end of a pattern. *)
Definition exampleModule : TestConfigs.ModuleConfig :=
  {| TestConfigs.moduleName := "module-a";
     TestConfigs.testConfigs :=
       [{| TestConfigs.name := "unit"; TestConfigs.disabled := false |};
        {| TestConfigs.name := "integ"; TestConfigs.disabled := true |};
        {| TestConfigs.name := "lint"; TestConfigs.disabled := false |}] |}.

Fixpoint globMatch (name pattern : string) : bool :=
  match pattern, name with
  | String c EmptyString, _ =>
      if Ascii.eqb c (Ascii.ascii_of_nat 42) then true
      else match name with
           | String d EmptyString => Ascii.eqb c d
           | _ => false
           end
  | String c pattern', String d name' => Ascii.eqb c d && globMatch name' pattern'
  | EmptyString, EmptyString => true
  | _, _ => false
  end.

Definition actionName (moduleName testName : string) : string :=
  moduleName +:+ "-" +:+ testName.

Definition annotationKey (key : string) : string := "garden.io/" +:+ key.

Definition apiDeploy : Workload.ContainerDeployAction :=
  {| Workload.name := "api"; Workload.moduleName := Some "backend";
     Workload.versionString := "v-1"; Workload.daemon := false |}.

End Examples.

(** * Facts *)

Lemma append_assoc (s1 s2 s3 : string) : (s1 +:+ s2) +:+ s3 = s1 +:+ s2 +:+ s3.
Proof.
  induction s1 as [|c s1 IH]; [reflexivity|].
  change (String c ((s1 +:+ s2) +:+ s3) = String c (s1 +:+ s2 +:+ s3)).
  by rewrite IH.
Qed.

(** Case analysis of membership in a list that is written out. *)
Ltac mem H :=
  lazymatch type of H with
  | _ ∈ [] => by apply elem_of_nil in H
  | _ ∈ _ :: _ =>
      apply elem_of_cons in H as [H|H]; [try discriminate H; simplify_eq|mem H]
  | _ ∈ _ ++ _ => apply elem_of_app in H as [H|H]; mem H
  | _ => idtac
  end.

Section EngineFacts.
Context {World DependencyResults ExecutedAction : Type}.
Context `{!Env World DependencyResults ExecutedAction}.

Local Abbreviation Js := (Js World).

Ltac js :=
  unfold logAndRethrow, emit, logOp in *;
  unfold bind, ret, throw, try_catch, try_finally, observe, external, seen,
    now, freshUid in *; simpl in *.

(** The same, leaving [try] blocks folded. *)
Ltac js_seq :=
  unfold emit, logOp in *;
  unfold bind, ret, throw, observe, external, seen, now, freshUid in *;
  simpl in *.

Lemma St_eta (s : St World) : {| trace := trace s; world := world s |} = s.
Proof. by destruct s. Qed.

Lemma seen_trace o (s : St World) : trace (seen o s) = trace s ++ [o].
Proof. done. Qed.

(** *** Substrings *)

Lemma contains_prefix sub post : contains sub (sub +:+ post).
Proof. by exists "", post. Qed.

Lemma contains_app_r u sub s : contains sub s → contains sub (u +:+ s).
Proof.
  intros (pre & post & ->). exists (u +:+ pre), post. by rewrite append_assoc.
Qed.

(** *** The log listener *)

Lemma onLog_run p uid et ek l (s : St World) :
  onLog p uid et ek l s
  = (Normal tt, {| trace := trace s ++ logEffects p uid et ek [l]; world := world s |}).
Proof.
  unfold onLog, logEffects. cbn [mbind list_bind]. rewrite app_nil_r.
  destruct (interactive p); js; by rewrite <- ?app_assoc.
Qed.

Lemma deliver_onLog p uid et ek ls (s : St World) :
  deliver (onLog p uid et ek) ls s
  = (Normal tt, {| trace := trace s ++ logEffects p uid et ek ls; world := world s |}).
Proof.
  revert s. induction ls as [|l ls IH]; intros s.
  - simpl. unfold ret. by rewrite app_nil_r, St_eta.
  - cbn [deliver]. unfold bind. rewrite onLog_run, IH. simpl.
    unfold logEffects. cbn [mbind list_bind]. by rewrite app_nil_r, <- !app_assoc.
Qed.

Lemma deliver_silent ls (s : St World) :
  deliver (λ _, ret tt) ls s = (Normal tt, s).
Proof. induction ls as [|l ls IH]; [done|]. cbn [deliver]. by js. Qed.

(** *** The [try] block of a [run] *)

Lemma handle_handled k ev et ek p ap uid (s : St World) :
  handle k ev et ek p ap uid s
  = match handled k ev et ek p ap uid (world s) with
    | (c, fx, w) => (c, {| trace := trace s ++ fx; world := w |})
    end.
Proof.
  unfold handle, handled, callHandler, validateActionOutputs, invoke,
    emitNamespaceEvent, namespaceEffects, statusEmitted. simpl.
  destruct (handlers k (type (action p)) "run") as [h|]; js.
  - destruct (h (handlerParams p ap) (world s)) as [[ls c] w] eqn:Hh.
    rewrite deliver_onLog. simpl.
    destruct c as [r|e]; simpl.
    + destruct (schemaViolation _ _ _ _) as [[key why]|]; simpl.
      * by rewrite <- !app_assoc.
      * destruct (detail r ≫= namespaceStatus); simpl;
          by rewrite <- !app_assoc.
    + by rewrite <- !app_assoc.
  - by rewrite app_nil_r, St_eta.
Qed.

(** *** The [finally] block of a [run] *)

Lemma collectArtifacts_trace ty a d ap (s : St World) :
  trace (collectArtifacts ty a d ap s).2
  = trace s ++ [ObsCopyArtifacts ap (getArtifactKey ty (name a) (versionString a));
                ObsCleanup d].
Proof.
  unfold collectArtifacts. js.
  destruct (copyArtifacts _ _ _) as [c w]; simpl.
  destruct (tmp_cleanup d w) as [[[]|e] w']; simpl; by rewrite <- app_assoc.
Qed.

Lemma collectArtifacts_completion ty a d ap (s : St World) :
  match (collectArtifacts ty a d ap s).1 with
  | Normal _ => True
  | Throw e => thrownByFinaliser e
  end.
Proof.
  unfold collectArtifacts, thrownByFinaliser. js.
  destruct (copyArtifacts _ _ _) as [c w] eqn:Hc; simpl.
  destruct (tmp_cleanup d w) as [[[]|e] w'] eqn:Hd; simpl.
  - destruct c; [done|]. left. eexists _, _, _. by rewrite Hc.
  - right. eexists _, _. by rewrite Hd.
Qed.

(** *** The two [run] functions *)

Lemma effects_app {A} (m : Js A) (s : St World) fx :
  trace (m s).2 = trace s ++ fx → effects m s = fx.
Proof. unfold effects. intros ->. by rewrite drop_app_length. Qed.

Lemma guarded_run k ev et ek ty p d ap uid (s : St World) :
  let h := handled k ev et ek p ap uid (world s) in
  let r := try_finally (handle k ev et ek p ap uid)
             (collectArtifacts ty (action p) d ap) s in
  trace r.2 = trace s ++ h.1.2
                ++ [ObsCopyArtifacts ap
                      (getArtifactKey ty (name (action p)) (versionString (action p)));
                    ObsCleanup d]
  ∧ match r.1 with
    | Normal x => h.1.1 = Normal x
    | Throw e => h.1.1 = Throw e ∨ thrownByFinaliser e
    end.
Proof.
  intros h r. subst h r. unfold try_finally. rewrite handle_handled.
  destruct (handled k ev et ek p ap uid (world s)) as [[c fx] w]; simpl.
  pose proof (collectArtifacts_trace ty (action p) d ap
                {| trace := trace s ++ fx; world := w |}) as Ht.
  pose proof (collectArtifacts_completion ty (action p) d ap
                {| trace := trace s ++ fx; world := w |}) as Hc.
  destruct (collectArtifacts _ _ _ _ _) as [[[]|e] s']; simpl in *.
  - rewrite Ht, <- app_assoc. split; [done|]. destruct c; auto.
  - rewrite Ht, <- app_assoc. auto.
Qed.

Lemma runRouter_run_shape p (s : St World) :
  let fx := effects (runRouter_run p) s in
  let c := (runRouter_run p s).1 in
  trace (runRouter_run p s).2 = trace s ++ fx
  ∧ (notReached fx c ∨ reached Run "taskStatus" "task" (name (action p)) "run" p fx c).
Proof.
  intros fx c. subst fx c. unfold runRouter_run. js_seq.
  destruct (uuidv4 (world s)) as [uid w0] eqn:Hu; simpl.
  destruct (tmp_dir w0) as [[d|e] w1] eqn:Hd; simpl.
  2:{ erewrite effects_app; [|by rewrite Hu; simpl; rewrite Hd].
      split; [done|]. left. split; eauto. }
  destruct (realpath d w1) as [[path|e] w2] eqn:Hp; simpl.
  2:{ erewrite effects_app;
        [|by rewrite Hu; simpl; rewrite Hd; simpl; rewrite Hp; simpl;
             rewrite <- app_assoc].
      rewrite <- app_assoc. split; [done|]. left. split; eauto. }
  match goal with
  | |- context [try_finally ?b ?f ?s0] =>
      pose proof (guarded_run Run "taskStatus" "task" (name (action p)) "run" p d
                    (normalizePath path) uid s0) as [Ht Hc];
      remember (try_finally b f s0) as res eqn:Hres
  end.
  simpl in Ht, Hc. rewrite <- !app_assoc in Ht. simpl in Ht.
  erewrite effects_app;
    [|by rewrite Hu; simpl; rewrite Hd; simpl; rewrite Hp; simpl;
        rewrite <- Hres; apply Ht].
  split; [apply Ht|]. right. exists uid, d, path, (newDate w2), w2. simpl.
  split; [done|apply Hc].
Qed.

Lemma testRouter_run_shape p (s : St World) :
  let fx := effects (testRouter_run p) s in
  let c := (testRouter_run p s).1 in
  trace (testRouter_run p s).2 = trace s ++ fx
  ∧ (notReached fx c
     ∨ reached Test "testStatus" "test" (moduleName (action p) +:+ "." +:+ name (action p))
         "test" p fx c).
Proof.
  intros fx c. subst fx c. unfold testRouter_run. js_seq.
  destruct (makeTempDir (world s)) as [[d|e] w1] eqn:Hd; simpl.
  2:{ erewrite effects_app; [|by rewrite Hd].
      split; [done|]. left. split; eauto. }
  destruct (realpath d w1) as [[path|e] w2] eqn:Hp; simpl.
  2:{ erewrite effects_app;
        [|by rewrite Hd; simpl; rewrite Hp; simpl; rewrite <- app_assoc].
      rewrite <- app_assoc. split; [done|]. left. split; eauto. }
  destruct (uuidv4 w2) as [uid w3] eqn:Hu; simpl.
  match goal with
  | |- context [try_finally ?b ?f ?s0] =>
      pose proof (guarded_run Test "testStatus" "test"
                    (moduleName (action p) +:+ "." +:+ name (action p)) "test" p d
                    (normalizePath path) uid s0) as [Ht Hc];
      remember (try_finally b f s0) as res eqn:Hres
  end.
  simpl in Ht, Hc. rewrite <- !app_assoc in Ht. simpl in Ht.
  erewrite effects_app;
    [|by rewrite Hd; simpl; rewrite Hp; simpl; rewrite Hu; simpl;
        rewrite <- Hres; apply Ht].
  split; [apply Ht|]. right. exists uid, d, path, (newDate w3), w3. simpl.
  split; [done|apply Hc].
Qed.

(** *** The shape of a [run] in which the handler is called *)

Lemma logEffects_logging p uid et ek ls : Forall isLogging (logEffects p uid et ek ls).
Proof.
  induction ls as [|l ls IH]; [constructor|].
  unfold logEffects in *. cbn [mbind list_bind] in *.
  apply Forall_app. split; [|done].
  destruct (interactive p); repeat constructor.
Qed.

Lemma not_logging (o : Obs) logs : Forall isLogging logs → o ∈ logs → isLogging o.
Proof. rewrite Forall_forall. auto. Qed.

Lemma namespaceEffects_emits r x : x ∈ namespaceEffects r → ∃ e, x = ObsEmit e.
Proof.
  unfold namespaceEffects. destruct (detail r ≫= namespaceStatus); intros Hx; mem Hx.
  eauto.
Qed.

Lemma notReached_no_handler fx c k ht hp : notReached fx c → ObsHandler k ht hp ∉ fx.
Proof. intros [[->|[d ->]] _] Hin; mem Hin. Qed.

Lemma reached_handler k ev et ek ty p fx c hp :
  reached k ev et ek ty p fx c →
  ObsHandler k "run" hp ∈ fx →
  ∃ uid d path t logs hc post,
    fx = [ObsTmpDir; ObsRealpath d;
          statusEmitted ev (action p) (Some uid) (runningStatus t);
          ObsHandler k "run" hp]
         ++ logs ++ ObsHandlerDone hc :: post ++ collected ty (action p) d path
    ∧ hp = handlerParams p (normalizePath path)
    ∧ Forall isLogging logs
    ∧ match hc with
      | Throw e => post = [] ∧ (c = Throw e ∨ ∃ e', c = Throw e' ∧ thrownByFinaliser e')
      | Normal r =>
          match schemaViolation (kind (action p)) (type (action p)) "runtime" (outputs r) with
          | Some (key, why) =>
              post = [ObsValidate (action p) "runtime" (outputs r)]
              ∧ ∃ e', c = Throw e'
                  ∧ (e' = PluginError (validationMessage "runtime" (action p) key why)
                     ∨ thrownByFinaliser e')
          | None =>
              post = [ObsValidate (action p) "runtime" (outputs r);
                      statusEmitted ev (action p) (Some uid) (runStatus (detail r))]
                     ++ namespaceEffects r
              ∧ (c = Normal r ∨ ∃ e', c = Throw e' ∧ thrownByFinaliser e')
          end
      end.
Proof.
  intros (uid & d & path & t & w & Hfx & Hc) Hin. simpl in Hfx, Hc.
  unfold handled in Hfx, Hc.
  destruct (handlers k (type (action p)) "run") as [h|]; simpl in *.
  2:{ subst fx. mem Hin. }
  destruct (h (handlerParams p (normalizePath path)) w) as [[ls hc] w'].
  pose proof (logEffects_logging p uid et ek ls) as Hlog.
  assert (hp = handlerParams p (normalizePath path)) as ->.
  { subst fx.
    destruct hc as [r|e]; [destruct (schemaViolation _ _ _ _) as [[??]|]|];
      simpl in Hin; mem Hin; try reflexivity; exfalso;
      lazymatch goal with
      | H : _ ∈ logEffects _ _ _ _ _ |- _ => apply (not_logging _ _ Hlog H)
      | H : _ ∈ namespaceEffects _ |- _ =>
          apply namespaceEffects_emits in H as [? [=]]
      end. }
  exists uid, d, path, t, (logEffects p uid et ek ls), hc.
  destruct hc as [r|e].
  - destruct (schemaViolation _ _ _ _) as [[key why]|]; simpl in *.
    + exists [ObsValidate (action p) "runtime" (outputs r)].
      subst fx. rewrite <- !app_assoc. simpl.
      split; [reflexivity|]. split; [reflexivity|]. split; [assumption|].
      split; [reflexivity|].
      destruct c as [x|e']; [discriminate Hc|]. exists e'. split; [reflexivity|].
      destruct Hc as [Hc|Hc]; [left; congruence|by right].
    + exists ([ObsValidate (action p) "runtime" (outputs r);
               statusEmitted ev (action p) (Some uid) (runStatus (detail r))]
              ++ namespaceEffects r).
      subst fx. rewrite <- !app_assoc. simpl.
      split; [reflexivity|]. split; [reflexivity|].
      split; [assumption|]. split; [reflexivity|].
      destruct c as [x|e']; [left; congruence|].
      right. exists e'. split; [reflexivity|].
      destruct Hc as [Hc|Hc]; [discriminate Hc|assumption].
  - exists []. subst fx. simpl in *. rewrite <- !app_assoc. simpl.
    split; [reflexivity|]. split; [reflexivity|]. split; [assumption|].
    split; [reflexivity|].
    destruct c as [x|e']; [discriminate Hc|].
    destruct Hc as [Hc|Hc]; [left; congruence|right; eauto].
Qed.

Lemma reached_emitsStatus k ev et ek ty p fx c :
  reached k ev et ek ty p fx c →
  emitsStatusAround (validOutputs (action p)) k ev (action p) fx.
Proof.
  intros Hr hp Hin.
  destruct (reached_handler _ _ _ _ _ _ _ _ _ Hr Hin)
    as (uid & d & path & t & logs & hc & post & -> & -> & Hlog & Hpost).
  exists uid, t. split.
  { exists [ObsTmpDir; ObsRealpath d], [],
      (logs ++ ObsHandlerDone hc :: post ++ collected ty (action p) d path).
    reflexivity. }
  intros r Hdone Hvalid. unfold validOutputs in Hvalid.
  assert (hc = Normal r ∨ ObsHandlerDone (Normal r) ∈ post) as Hhc.
  { clear Hin Hpost. unfold collected in Hdone. simpl in Hdone. mem Hdone; auto.
    exfalso. apply (not_logging _ _ Hlog Hdone). }
  destruct hc as [r0|e].
  - destruct (schemaViolation _ _ _ (outputs r0)) as [[key why]|] eqn:Hs.
    + destruct Hpost as [-> _].
      destruct Hhc as [[= ->]|Hp]; [congruence|mem Hp].
    + destruct Hpost as [-> _].
      destruct Hhc as [[= ->]|Hp].
      * exists ([ObsTmpDir; ObsRealpath d;
                 statusEmitted ev (action p) (Some uid) (runningStatus t);
                 ObsHandler k "run" (handlerParams p (normalizePath path))] ++ logs),
          [ObsValidate (action p) "runtime" (outputs r)],
          (namespaceEffects r ++ collected ty (action p) d path).
        rewrite <- !app_assoc. reflexivity.
      * exfalso. simpl in Hp. mem Hp.
        apply namespaceEffects_emits in Hp as [? [=]].
  - destruct Hpost as [-> _]. destruct Hhc as [[=]|Hp]. mem Hp.
Qed.

Lemma reached_collectsArtifacts k ev et ek ty p fx c :
  reached k ev et ek ty p fx c → collectsArtifacts k ty (action p) fx.
Proof.
  intros Hr hp Hin.
  destruct (reached_handler _ _ _ _ _ _ _ _ _ Hr Hin)
    as (uid & d & path & t & logs & hc & post & -> & -> & Hlog & Hpost).
  exists d, path,
    ([ObsTmpDir; ObsRealpath d;
      statusEmitted ev (action p) (Some uid) (runningStatus t);
      ObsHandler k "run" (handlerParams p (normalizePath path))]
     ++ logs ++ ObsHandlerDone hc :: post).
  split; [by rewrite <- !app_assoc|]. split; [reflexivity|].
  split; [apply list_elem_of_further, list_elem_of_here|].
  split; [do 3 apply list_elem_of_further; apply list_elem_of_here|].
  intros c0 Hdone. clear Hin Hpost. unfold collected in Hdone. simpl in Hdone.
  simpl. mem Hdone;
    do 4 apply list_elem_of_further; rewrite elem_of_app, elem_of_cons; auto.
Qed.

Lemma reached_validates k ev et ek ty p fx c :
  reached k ev et ek ty p fx c →
  let a := action p in
  (∀ r, c = Normal r →
     ObsValidate a "runtime" (outputs r) ∈ fx
     ∧ schemaViolation (kind a) (type a) "runtime" (outputs r) = None)
  ∧ (∀ o key why,
       ObsValidate a "runtime" o ∈ fx →
       schemaViolation (kind a) (type a) "runtime" o = Some (key, why) →
       ∃ e, c = Throw e
            ∧ (e = PluginError (validationMessage "runtime" a key why)
               ∨ thrownByFinaliser e)).
Proof.
  intros (uid & d & path & t & w & Hfx & Hc). simpl in Hfx, Hc. simpl.
  unfold handled in Hfx, Hc.
  destruct (handlers k (type (action p)) "run") as [h|]; simpl in *.
  2:{ split.
      - intros r ->. discriminate Hc.
      - intros o key why Hin. subst fx. mem Hin. }
  destruct (h (handlerParams p (normalizePath path)) w) as [[ls hc] w'].
  pose proof (logEffects_logging p uid et ek ls) as Hlog.
  destruct hc as [r0|e0];
    [destruct (schemaViolation _ _ _ (outputs r0)) as [[key0 why0]|] eqn:Hs|];
    simpl in *; subst fx.
  - split.
    + intros r ->. discriminate Hc.
    + intros o key why Hin Hv. mem Hin.
      * exfalso. apply (not_logging _ _ Hlog Hin).
      * destruct c as [x|e]; [discriminate Hc|]. exists e. split; [reflexivity|].
        destruct Hc as [Hc|Hc]; [left|by right]. injection Hc as <-. congruence.
  - split.
    + intros r ->. injection Hc as ->. split; [|assumption].
      do 4 apply list_elem_of_further. apply elem_of_app. left.
      apply elem_of_app. right. apply list_elem_of_here.
    + intros o key why Hin Hv. exfalso.
      mem Hin;
        first [ apply (not_logging _ _ Hlog Hin)
              | congruence
              | apply namespaceEffects_emits in Hin as [? [=]] ].
  - split.
    + intros r ->. discriminate Hc.
    + intros o key why Hin. exfalso. mem Hin.
      apply (not_logging _ _ Hlog Hin).
Qed.

(** *** [getResult] *)

Lemma getResult_resulted k ev p (s : St World) :
  getResult k ev p s
  = match resulted k ev p (world s) with
    | (c, fx, w) => (c, {| trace := trace s ++ fx; world := w |})
    end.
Proof.
  unfold getResult, resulted, callHandler, validateActionOutputs, invoke,
    statusEmitted. simpl.
  destruct (handlers k (type (action p)) "getResult") as [h|];
    unfold emit, bind, observe, seen; simpl.
  - destruct (h p (world s)) as [[ls c] w] eqn:Hh.
    rewrite deliver_silent. simpl.
    destruct c as [r|e]; simpl.
    + destruct (schemaViolation _ _ _ _) as [[key why]|]; js;
        by rewrite <- !app_assoc.
    + by rewrite <- !app_assoc.
  - destruct (schemaViolation _ _ _ _) as [[key why]|]; js;
      by rewrite <- !app_assoc.
Qed.

Lemma getResult_validates k ev : validatesOutputs (getResult k ev).
Proof.
  intros p s a fx. subst a fx.
  assert (trace (getResult k ev p s).2 = trace s ++ (resulted k ev p (world s)).1.2
          ∧ (getResult k ev p s).1 = (resulted k ev p (world s)).1.1) as [Ht Hc].
  { rewrite getResult_resulted. by destruct (resulted _ _ _ _) as [[??]?]. }
  rewrite (effects_app _ _ _ Ht), Hc. clear Ht Hc.
  unfold resulted.
  destruct (handlers k (type (action p)) "getResult") as [h|];
    [destruct (h p (world s)) as [[ls [r0|e0]] w]|];
    try destruct (schemaViolation _ _ _ _) as [[key0 why0]|] eqn:Hs;
    simpl in *; (split; [intros r [= <-]|intros o key why Hin Hv; mem Hin]);
    first [ exfalso; congruence
          | eexists; split; [reflexivity|]; left; congruence
          | split; [|assumption];
            repeat first [apply list_elem_of_here | apply list_elem_of_further] ].
Qed.

(** *** The claims on the routers *)

(** The message the router tests expect for a number under [foo]. *)
Example validationMessage_service_a :
  validationMessage "runtime" (Fixture.exampleAction Deploy "service-a" "test")
    "foo" "must be a string"
  = "Error validating runtime action outputs from Deploy 'service-a': key .foo must be a string.".
Proof. reflexivity. Qed.

Lemma validationMessage_names phase a key why :
  contains (kindName (kind a) +:+ " '" +:+ name a +:+ "'")
    (validationMessage phase a key why)
  ∧ contains ("key ." +:+ key) (validationMessage phase a key why).
Proof.
  unfold validationMessage. split.
  - do 3 apply contains_app_r.
    exists "", (": key ." +:+ key +:+ " " +:+ why +:+ ".").
    rewrite !append_assoc. reflexivity.
  - do 6 apply contains_app_r.
    exists "': ", (" " +:+ why +:+ "."). rewrite !append_assoc. reflexivity.
Qed.

Lemma handler_error_leaves_router k ev et ek ty p fx c hp e :
  reached k ev et ek ty p fx c →
  ObsHandler k "run" hp ∈ fx →
  ObsHandlerDone (Throw e) ∈ fx →
  ∃ e', c = Throw e' ∧ (e' = e ∨ thrownByFinaliser e').
Proof.
  intros Hr Hin Hdone.
  destruct (reached_handler _ _ _ _ _ _ _ _ _ Hr Hin)
    as (uid & d & path & t & logs & hc & post & -> & -> & Hlog & Hpost).
  clear Hin. unfold collected in Hdone. simpl in Hdone.
  destruct hc as [r|e0].
  - exfalso.
    destruct (schemaViolation _ _ _ (outputs r)) as [[key why]|];
      destruct Hpost as [-> _]; simpl in Hdone; mem Hdone;
      first [ apply (not_logging _ _ Hlog Hdone)
            | apply namespaceEffects_emits in Hdone as [? [=]] ].
  - destruct Hpost as [-> Hc]. simpl in Hdone. mem Hdone.
    + exfalso. apply (not_logging _ _ Hlog Hdone).
    + destruct Hc as [->|(e' & -> & Hf)]; eauto.
Qed.

(** C8 (as amended).  In every invocation of [run] of the Run or the Test
    router in which the plugin handler is called, a status event (taskStatus,
    testStatus) with state "running" is emitted before the call; and when the
    handler has returned a result whose outputs pass validation, a second
    status event, with the status derived from the detail of the result, is
    emitted after the return.  Both events carry the same [actionUid] and the
    version string of the action. *)
Theorem status_events_around_handler p (s : St World) :
  emitsStatusAround (validOutputs (action p)) Run "taskStatus" (action p)
    (effects (runRouter_run p) s)
  ∧ emitsStatusAround (validOutputs (action p)) Test "testStatus" (action p)
      (effects (testRouter_run p) s)
  ∧ (∀ ev uid st, ∃ pl,
       statusEmitted ev (action p) (Some uid) st
       = ObsEmit {| eventName := ev; payload := PStatus pl |}
       ∧ p_actionUid pl = Some uid
       ∧ p_actionVersion pl = versionString (action p)
       ∧ p_status pl = st)
  ∧ ∀ t, runState (runningStatus t) = "running".
Proof.
  split; [|split; [|split]].
  - destruct (runRouter_run_shape p s) as [_ [Hn|Hr]].
    + intros hp Hin. by apply notReached_no_handler with (k := Run) (ht := "run")
                           (hp := hp) in Hn.
    + by eapply reached_emitsStatus.
  - destruct (testRouter_run_shape p s) as [_ [Hn|Hr]].
    + intros hp Hin. by apply notReached_no_handler with (k := Test) (ht := "run")
                           (hp := hp) in Hn.
    + by eapply reached_emitsStatus.
  - intros ev uid st. by eexists.
  - done.
Qed.


Lemma run_validates (f : Params → Js GetRunResult) k ev et ek ty :
  (∀ p s, notReached (effects (f p) s) (f p s).1
          ∨ reached k ev et (ek p) ty p (effects (f p) s) (f p s).1) →
  validatesOutputs f.
Proof.
  intros Hf p s. destruct (Hf p s) as [[Hfx [e He]]|Hr].
  - simpl. rewrite He. split; [done|].
    intros o key why Hin. exfalso. destruct Hfx as [Hfx|[d Hfx]];
      rewrite Hfx in Hin; mem Hin.
  - apply (reached_validates _ _ _ _ _ _ _ _ Hr).
Qed.


(** *** The tasks *)

Example failedMsg_code : failedMsg (Some 2%Z) = "Failed with code 2!".
Proof. reflexivity. Qed.

Example failedMsg_zero : failedMsg (Some 0%Z) = "Failed!".
Proof. reflexivity. Qed.

Lemma RunTask_process_run router p deps (s : St World) a s0 c s1 :
  getResolvedAction (taskAction p) deps s = (Normal a, s0) →
  run_run router (routerParams a false false)
    (seen (ObsLog (LogNew (key a) "Running...")) s0) = (c, s1) →
  RunTask_process router p deps s
  = match c with
    | Throw e => (Throw e, seen (ObsLog (LogSetError None)) s1)
    | Normal st =>
        if decide (state st = Ready)
        then (Normal (withExecuted a st), seen (ObsLog (LogSetSuccess "Done")) s1)
        else (Throw (RunTaskError (log <$> detail st)),
              seen (ObsLog (LogSetError (Some "Failed!"))) s1)
    end.
Proof.
  intros Ha Hr. unfold RunTask_process. js. rewrite Ha. simpl.
  unfold seen in Hr. rewrite Hr.
  destruct c as [st|e]; [|done]. by destruct (decide (state st = Ready)).
Qed.

Lemma TestTask_process_run router p deps (s : St World) a s0 c s1 :
  getResolvedAction (taskAction p) deps s = (Normal a, s0) →
  test_run router (routerParams a (testSilent p) (testInteractive p))
    (seen (ObsLog (LogNew (key a) "Running...")) s0) = (c, s1) →
  TestTask_process router p deps s
  = match c with
    | Throw e => (Throw e, seen (ObsLog (LogSetError None)) s1)
    | Normal st =>
        if succeeded st
        then (Normal (withExecuted a st), seen (ObsLog (LogSetSuccess "Success")) s1)
        else (Throw (TestError (log <$> detail st)),
              seen (ObsLog (LogSetError (Some (failedMsg (detail st ≫= exitCode))))) s1)
    end.
Proof.
  intros Ha Hr. unfold TestTask_process. js. rewrite Ha. simpl.
  unfold seen in Hr. rewrite Hr.
  destruct c as [st|e]; [|done]. by destruct (succeeded st).
Qed.

Lemma BuildTask_process_run router p deps (s : St World) a s0 s0' c s1 :
  getResolvedAction (taskAction p) deps s = (Normal a, s0) →
  BuildTask_prepare p a s0 = (Normal tt, s0') →
  build_build router a s0' = (c, s1) →
  BuildTask_process router p deps s
  = match c with
    | Throw e => (Throw e, seen (ObsLog (LogSetError None)) s1)
    | Normal st =>
        (Normal (withExecuted a st), seen (ObsLog (LogSetSuccess "Done")) s1)
    end.
Proof.
  intros Ha Hp Hr. unfold BuildTask_process.
  unfold bind at 1. rewrite Ha. unfold bind at 1. rewrite Hp.
  js. rewrite Hr. by destruct c.
Qed.

Lemma RunTask_process_normal router p deps (s : St World) r s' :
  RunTask_process router p deps s = (Normal r, s') → state (status r) = Ready.
Proof.
  unfold RunTask_process. js.
  destruct (getResolvedAction _ _ _) as [[a|e] s0]; [|done]. simpl.
  destruct (run_run _ _ _) as [[st|e] s1]; [|done].
  destruct (decide (state st = Ready)); [|done]. by intros [= <- _].
Qed.

Lemma TestTask_process_normal router p deps (s : St World) r s' :
  TestTask_process router p deps s = (Normal r, s') → succeeded (status r) = true.
Proof.
  unfold TestTask_process. js.
  destruct (getResolvedAction _ _ _) as [[a|e] s0]; [|done]. simpl.
  destruct (test_run _ _ _) as [[st|e] s1]; [|done].
  destruct (succeeded st) eqn:Hs; [|done]. by intros [= <- _].
Qed.


(** *** Status checks *)

Lemma RunTask_getStatus_run router p deps (s : St World) a s0 c s1 :
  getResolvedAction (taskAction p) deps
    (seen (ObsLog (LogNew (name (taskAction p)) "Checking result...")) s)
  = (Normal a, s0) →
  run_getResult router (routerParams a false false) s0 = (c, s1) →
  RunTask_getStatus router p deps s
  = match c with
    | Throw e => (Throw e, seen (ObsLog (LogSetError None)) s1)
    | Normal st =>
        (Normal (match detail st with
                 | None => None
                 | Some _ => Some (withExecuted a st)
                 end),
         seen (ObsLog (LogSetSuccess "Done")) s1)
    end.
Proof.
  intros Ha Hr. unfold RunTask_getStatus. js. unfold seen in Ha. rewrite Ha. simpl.
  rewrite Hr. destruct c as [st|e]; [|done]. simpl. by destruct (detail st).
Qed.

Lemma getResult_default k ev pa (s : St World) :
  handlers k (type (action pa)) "getResult" = None →
  schemaViolation (kind (action pa)) (type (action pa)) "runtime" ∅ = None →
  getResult k ev pa s
  = (Normal {| state := Unknown; detail := None; outputs := ∅ |},
     {| trace := trace s ++ [statusEmitted ev (action pa) None (runStatus None);
                             ObsValidate (action pa) "runtime" ∅];
        world := world s |}).
Proof.
  intros Hh Hv. rewrite getResult_resulted. unfold resulted. rewrite Hh. simpl.
  by rewrite Hv.
Qed.


(** C5 (as amended).  An error thrown by the router's [getResult] inside
    [getStatus] of a Run task is not turned into "not up to date": [getStatus]
    marks the log entry as failed and throws the same error to its caller,
    whatever kind of error it is. *)
Theorem getStatus_rethrows_router_error router p deps (s : St World) a s0 e s1 :
  getResolvedAction (taskAction p) deps
    (seen (ObsLog (LogNew (name (taskAction p)) "Checking result...")) s)
  = (Normal a, s0) →
  run_getResult router (routerParams a false false) s0 = (Throw e, s1) →
  RunTask_getStatus router p deps s = (Throw e, seen (ObsLog (LogSetError None)) s1).
Proof. intros Ha Hr. by rewrite (RunTask_getStatus_run _ _ _ _ _ _ _ _ Ha Hr). Qed.

(** *** Publish tasks *)

Lemma isForced_spec a refs :
  isForced a refs = true ↔ ∃ ref, ref ∈ refs ∧ matchesRef a ref = true.
Proof.
  unfold isForced. rewrite bool_decide_eq_true. split.
  - intros [[i ref] Hf]. apply list_find_Some in Hf as (Hi & Hm & _).
    exists ref. split; [by eapply list_elem_of_lookup_2|done].
  - intros (ref & Hin & Hm).
    apply (list_find_elem_of (λ ref, matchesRef a ref = true) _ _ Hin Hm).
Qed.

(** C6.  Unless the action sets [allowPublish] to false,
    [resolveProcessDependencies] of a Publish task returns exactly one task,
    a Build task on the same action, forced exactly when the action matches
    one of the force-action references; and whatever the configuration, every
    task it returns is a Build task on the same action. *)
Theorem publish_depends_on_build_only p :
  (allowPublish (taskAction p) ≠ Some false →
   PublishTask_resolveProcessDependencies p
   = [BuildTask {| base := base p;
                   taskAction := taskAction p;
                   force := isForced (taskAction p) (forceActions (base p));
                   tagTemplate := None;
                   taskSilent := None;
                   taskInteractive := None |}]
   ∧ (isForced (taskAction p) (forceActions (base p)) = true
      ↔ ∃ ref, ref ∈ forceActions (base p) ∧ matchesRef (taskAction p) ref = true))
  ∧ ∀ t, t ∈ PublishTask_resolveProcessDependencies p →
         ∃ bp, t = BuildTask bp ∧ taskAction bp = taskAction p.
Proof.
  unfold PublishTask_resolveProcessDependencies. split.
  - intros Hne. rewrite decide_False by done. split; [done|apply isForced_spec].
  - intros t Ht. destruct (decide (allowPublish (taskAction p) = Some false));
      mem Ht. by eexists.
Qed.

(** C9.  When the configuration of the build action sets [allowPublish] to
    false, [resolveProcessDependencies] of the Publish task returns the empty
    list, and [process] returns state "ready", detail [{published: false}]
    and empty outputs; all it does is write one log entry, so that no handler
    of the router is called, whatever the router is. *)
Theorem publish_disabled_skips_handler router p deps (s : St World) :
  allowPublish (taskAction p) = Some false →
  PublishTask_resolveProcessDependencies p = []
  ∧ PublishTask_process router p deps s
    = (Normal {| state := Ready;
                 detail := Some {| published := false; message := None;
                                   identifier := None |};
                 outputs := ∅ |},
       seen (ObsLog (LogInfo "Publishing disabled (allowPublish=false set on build)")) s)
  ∧ ∀ router', PublishTask_process router' p deps s = PublishTask_process router p deps s.
Proof.
  intros Ha. unfold PublishTask_resolveProcessDependencies, PublishTask_process.
  rewrite !decide_True by done.
  split; [reflexivity|]. split; [reflexivity|].
  intros router'. by rewrite decide_True.
Qed.

End EngineFacts.

(** ** The version provider *)

Section VersionFacts.
Context {Spec : Type} (hexDigest : Fingerprint Spec → string).

Lemma merge_sort_canonical (l1 l2 : list string) :
  merge_sort String.le l1 = merge_sort String.le l2 ↔ l1 ≡ₚ l2.
Proof.
  split.
  - intros Heq. rewrite <- (merge_sort_Permutation String.le l1), Heq.
    apply merge_sort_Permutation.
  - intros Hp. apply (Sorted_unique String.le).
    + apply Sorted_merge_sort, _.
    + apply Sorted_merge_sort, _.
    + by rewrite !merge_sort_Permutation.
Qed.

Lemma fingerprint_inj (spec1 spec2 : Spec) src1 src2 deps1 deps2 :
  fingerprint spec1 src1 deps1 = fingerprint spec2 src2 deps2
  ↔ spec1 = spec2 ∧ src1 = src2 ∧ deps1 ≡ₚ deps2.
Proof.
  unfold fingerprint. rewrite <- merge_sort_canonical. split.
  - by intros [= -> -> ->].
  - by intros (-> & -> & ->).
Qed.


End VersionFacts.

(** ** The scheduler *)

Section SchedulerFacts.
Variables concurrencyLimitDefault globalCeiling : nat.

Local Abbreviation step := (step concurrencyLimitDefault globalCeiling).

Lemma filter_delete_length {A} (P : A → Prop) `{∀ x, Decision (P x)} i (l : list A) :
  (length (filter P (delete i l)) ≤ length (filter P l))%nat.
Proof.
  revert i. induction l as [|x l IH]; intros [|i]; simpl; try lia.
  - rewrite filter_cons. destruct (decide (P x)); simpl; lia.
  - rewrite !filter_cons. specialize (IH i).
    destruct (decide (P x)); simpl; lia.
Qed.

Lemma limitOf_build_publish t :
  taskType t = "build" ∨ taskType t = "publish" →
  limitOf concurrencyLimitDefault t = 5%nat.
Proof. destruct t; simpl; intros [?|?]; done. Qed.

Lemma step_capped ty (s s' : Sched) :
  ty = "build" ∨ ty = "publish" →
  step s s' → (inProcessOfType ty s ≤ 5 → inProcessOfType ty s' ≤ 5)%nat.
Proof.
  intros Hty [i s0 s1 Hs|i s0 s1 Hs] Hinv.
  - unfold startTask in Hs. destruct (pending s0 !! i) as [t|]; [|done]. simpl in Hs.
    destruct (mayStart _ _ s0 t) eqn:Hm; [|done]. injection Hs as <-.
    unfold mayStart in Hm. apply bool_decide_eq_true in Hm as [Hm _].
    unfold inProcessOfType in *. simpl. rewrite filter_cons.
    destruct (decide (taskType t = ty)) as [<-|]; [|done]. simpl.
    rewrite limitOf_build_publish in Hm by done. lia.
  - unfold finishTask in Hs. destruct (inProcess s0 !! i) as [t|]; [|done].
    injection Hs as <-. unfold inProcessOfType in *. simpl.
    etrans; [apply filter_delete_length|done].
Qed.

(** C7.  Every Build task has type "build" and concurrency limit 5, and every
    Publish task has concurrency limit 5; so in a scheduler that lets a task
    into [process] only while fewer tasks of its type than its limit are in
    process, however many independent Build tasks are given, at no point are
    more than 5 of them in process (nor more than 5 Publish tasks). *)
Theorem build_tasks_capped_at_five (rootTasks : list Task) (s : Sched) :
  (∀ p, taskType (BuildTask p) = "build"
        ∧ concurrencyLimit (BuildTask p) = Some 5%nat
        ∧ concurrencyLimit (PublishTask p) = Some 5%nat)
  ∧ (rtc step (processTasks rootTasks) s →
     (inProcessOfType "build" s ≤ 5 ∧ inProcessOfType "publish" s ≤ 5)%nat).
Proof.
  split; [done|].
  revert s. apply rtc_ind_r; [|intros y z _ Hstep [Hb Hp]; split].
  - unfold inProcessOfType, processTasks; simpl. lia.
  - by apply (step_capped "build" y z); [left| |].
  - by apply (step_capped "publish" y z); [right| |].
Qed.

End SchedulerFacts.

(** ** More on the routers and tasks *)

Ltac js :=
  unfold logAndRethrow, emit, logOp in *;
  unfold bind, ret, throw, try_catch, try_finally, observe, external, seen,
    now, freshUid in *; simpl in *.

Section EnginePropertiesFacts.
Context {World DependencyResults ExecutedAction : Type}.
Context `{!Env World DependencyResults ExecutedAction}.

Lemma logEffects_elem p uid et ek ls x :
  x ∈ logEffects p uid et ek ls →
  (interactive p = false ∧ ∃ m, x = ObsLog (LogInfo m))
  ∨ ∃ l, x = ObsEmit {| eventName := "log";
                         payload := PLog {| l_timestamp := timestamp l;
                                            l_actionUid := uid;
                                            l_entityType := et;
                                            l_entityKey := ek;
                                            l_moduleName := moduleName (action p);
                                            l_data := data l |} |}.
Proof.
  unfold logEffects. intros Hx. apply list_elem_of_bind in Hx as (l & Hx & _).
  destruct (interactive p); mem Hx; eauto.
Qed.

(** The shape of the effects of a [run] that got as far as its first status
    event, with the log events spelled out. *)
Lemma reached_shape k ev et ek ty p fx c :
  reached k ev et ek ty p fx c →
  ∃ uid d path t,
    (handlers k (type (action p)) "run" = None
     ∧ fx = [ObsTmpDir; ObsRealpath d;
             statusEmitted ev (action p) (Some uid) (runningStatus t)]
            ++ collected ty (action p) d path
     ∧ ∃ e, c = Throw e)
    ∨ ∃ ls hc post,
        fx = [ObsTmpDir; ObsRealpath d;
              statusEmitted ev (action p) (Some uid) (runningStatus t);
              ObsHandler k "run" (handlerParams p (normalizePath path))]
             ++ logEffects p uid et ek ls ++ ObsHandlerDone hc :: post
             ++ collected ty (action p) d path
        ∧ (∀ x, x ∈ post → (∃ a' ph o, x = ObsValidate a' ph o)
                          ∨ (∃ st, x = statusEmitted ev (action p) (Some uid) st)
                          ∨ ∃ n, x = ObsEmit {| eventName := "namespaceStatus";
                                                payload := PNamespace n |})
        ∧ ∀ r, c = Normal r → hc = Normal r.
Proof.
  intros (uid & d & path & t & w & Hfx & Hc). simpl in Hfx, Hc.
  exists uid, d, path, t. unfold handled in Hfx, Hc.
  destruct (handlers k (type (action p)) "run") as [h|]; simpl in *.
  2:{ left. split; [done|]. split; [done|].
      destruct c as [r|e]; [discriminate Hc|eauto]. }
  right. destruct (h (handlerParams p (normalizePath path)) w) as [[ls hc] w'].
  exists ls, hc.
  destruct hc as [r0|e0];
    [destruct (schemaViolation _ _ _ (outputs r0)) as [[key0 why0]|]|]; simpl in *.
  - exists [ObsValidate (action p) "runtime" (outputs r0)].
    subst fx. rewrite <- !app_assoc. simpl. split; [reflexivity|]. split.
    + intros x Hx. mem Hx. left. eauto.
    + intros r ->. discriminate Hc.
  - exists ([ObsValidate (action p) "runtime" (outputs r0);
             statusEmitted ev (action p) (Some uid) (runStatus (detail r0))]
            ++ namespaceEffects r0).
    subst fx. rewrite <- !app_assoc. simpl. split; [reflexivity|]. split.
    + intros x Hx. mem Hx; [left; eauto|right; left; eauto|].
      right. right. unfold namespaceEffects in Hx.
      destruct (detail r0 ≫= namespaceStatus); mem Hx. eauto.
    + intros r ->. exact Hc.
  - exists []. subst fx. rewrite <- !app_assoc. simpl. split; [reflexivity|]. split.
    + intros x Hx. mem Hx.
    + intros r ->. discriminate Hc.
Qed.

Lemma reached_logsCarryUid k ev et ek ty p fx c :
  reached k ev et ek ty p fx c → logsCarryUid ev et ek (action p) fx.
Proof.
  intros Hr pl Hin.
  destruct (reached_shape _ _ _ _ _ _ _ _ Hr)
    as (uid & d & path & t & [(_ & -> & _)|(ls & hc & post & -> & Hpost & _)]).
  { unfold collected, statusEmitted in Hin. mem Hin. }
  assert (ObsEmit {| eventName := "log"; payload := PLog pl |}
          ∈ logEffects p uid et ek ls) as Hlog.
  { unfold collected, statusEmitted in Hin. simpl in Hin. mem Hin; [exact Hin|].
    exfalso. destruct (Hpost _ Hin) as [(?&?&?&[=])|[(?&Hs)|(?&[=])]].
    unfold statusEmitted in Hs. discriminate Hs. }
  apply logEffects_elem in Hlog as [(_ & m & [=])|(l & [= ->])].
  exists t. simpl. split; [|done].
  do 2 apply list_elem_of_further. apply list_elem_of_here.
Qed.

Lemma reached_interactive_silent k ev et ek ty p fx c :
  reached k ev et ek ty p fx c → interactive p = true → ∀ l, ObsLog l ∉ fx.
Proof.
  intros Hr Hi l Hin.
  destruct (reached_shape _ _ _ _ _ _ _ _ Hr)
    as (uid & d & path & t & [(_ & -> & _)|(ls & hc & post & -> & Hpost & _)]);
    unfold collected, statusEmitted in Hin; simpl in Hin; mem Hin.
  - apply logEffects_elem in Hin as [(Hf & _)|(? & [=])]. congruence.
  - destruct (Hpost _ Hin) as [(?&?&?&[=])|[(?&Hs)|(?&[=])]].
    unfold statusEmitted in Hs. discriminate Hs.
Qed.

Lemma notReached_elem fx c x :
  notReached fx c → x ∈ fx → x = ObsTmpDir ∨ ∃ d, x = ObsRealpath d.
Proof. intros [[->|[d ->]] _] Hx; mem Hx; eauto. Qed.

(** X1.  The "log" events a [run] of the Run or the Test router sends on to
    the event bus while the handler runs carry the [actionUid] of the
    "running" status event of that [run], the entity type ("task", "test"),
    the entity key (the name; for tests the module name, a dot and the name)
    and the module name of the action. *)
Theorem run_log_events_carry_uid p (s : St World) :
  logsCarryUid "taskStatus" "task" (name (action p)) (action p)
    (effects (runRouter_run p) s)
  ∧ logsCarryUid "testStatus" "test" (moduleName (action p) +:+ "." +:+ name (action p))
      (action p) (effects (testRouter_run p) s).
Proof.
  split.
  - destruct (runRouter_run_shape p s) as [_ [Hn|Hr]].
    + intros pl Hin. by destruct (notReached_elem _ _ _ Hn Hin) as [[=]|[? [=]]].
    + by eapply reached_logsCarryUid.
  - destruct (testRouter_run_shape p s) as [_ [Hn|Hr]].
    + intros pl Hin. by destruct (notReached_elem _ _ _ Hn Hin) as [[=]|[? [=]]].
    + by eapply reached_logsCarryUid.
Qed.

(** X2.  With [interactive] set, [run] of the Run and of the Test router
    writes nothing to the log: the output of the handler only goes to the
    event bus. *)
Theorem interactive_run_writes_no_log p (s : St World) :
  interactive p = true →
  ∀ l, (ObsLog l ∉ effects (runRouter_run p) s)
       ∧ (ObsLog l ∉ effects (testRouter_run p) s).
Proof.
  intros Hi l. split.
  - destruct (runRouter_run_shape p s) as [_ [Hn|Hr]].
    + intros Hin. by destruct (notReached_elem _ _ _ Hn Hin) as [[=]|[? [=]]].
    + by eapply reached_interactive_silent.
  - destruct (testRouter_run_shape p s) as [_ [Hn|Hr]].
    + intros Hin. by destruct (notReached_elem _ _ _ Hn Hin) as [[=]|[? [=]]].
    + by eapply reached_interactive_silent.
Qed.

End EnginePropertiesFacts.

Section EnginePropertiesFacts2.
Context {World DependencyResults ExecutedAction : Type}.
Context `{!Env World DependencyResults ExecutedAction}.

Lemma getResult_reportsResult k ev p (s : St World) :
  reportsResult ev (action p) (effects (getResult k ev p) s).
Proof.
  assert (trace (getResult k ev p s).2 = trace s ++ (resulted k ev p (world s)).1.2)
    as Ht.
  { rewrite getResult_resulted. by destruct (resulted _ _ _ _) as [[??]?]. }
  rewrite (effects_app _ _ _ Ht). clear Ht. unfold resulted, reportsResult.
  destruct (handlers k (type (action p)) "getResult") as [h|];
    [destruct (h p (world s)) as [[ls [r0|e0]] w]|];
    try destruct (schemaViolation _ _ _ _) as [[key0 why0]|];
    simpl; unfold statusEmitted;
    (split; [intros e He; mem He; eauto|]);
    (split; [intros a' ph o Ho; mem Ho|]);
    try (split; [intros Hx; mem Hx|intros x y Hx; mem Hx]).
  - exists r0. split; [reflexivity|].
    by exists [ObsHandler k "getResult" p; ObsHandlerDone (Normal r0)], [], [].
  - exists r0. split; [reflexivity|].
    by exists [ObsHandler k "getResult" p; ObsHandlerDone (Normal r0)], [], [].
  - eexists {| state := Unknown; detail := None; outputs := ∅ |}.
    split; [reflexivity|]. by exists [], [], [].
  - eexists {| state := Unknown; detail := None; outputs := ∅ |}.
    split; [reflexivity|]. by exists [], [], [].
Qed.

(** X3.  [getResult] of the Run and of the Test router only reports: every
    event it emits is a status event (taskStatus, testStatus) without
    [actionUid]; whenever it validates outputs, the status derived from that
    result has been emitted before, so also when the validation then fails;
    and it creates no temporary directory and copies no artifacts. *)
Theorem getResult_only_reports p (s : St World) :
  reportsResult "taskStatus" (action p) (effects (runRouter_getResult p) s)
  ∧ reportsResult "testStatus" (action p) (effects (testRouter_getResult p) s).
Proof. split; apply getResult_reportsResult. Qed.

(** X4.  When the temporary directory of a [run] cannot be made, [run]
    throws that error and does nothing else: no event, no handler call.  When
    the directory is made and its real path cannot be got, [run] throws that
    error in the same way, and the directory is not cleaned up. *)
Theorem run_setup_failure p (s : St World) uid w0 e w1 :
  uuidv4 (world s) = (uid, w0) →
  (tmp_dir w0 = (Throw e, w1) →
   runRouter_run p s = (Throw e, {| trace := trace s ++ [ObsTmpDir]; world := w1 |}))
  ∧ (∀ d w2,
       tmp_dir w0 = (Normal d, w1) →
       realpath d w1 = (Throw e, w2) →
       runRouter_run p s
       = (Throw e, {| trace := trace s ++ [ObsTmpDir; ObsRealpath d]; world := w2 |})).
Proof.
  intros Hu. unfold runRouter_run. split.
  - intros Hd. js. rewrite Hu. simpl. by rewrite Hd.
  - intros d w2 Hd Hp. js. rewrite Hu. simpl. rewrite Hd. simpl. rewrite Hp.
    by rewrite <- app_assoc.
Qed.

Lemma handlerCalls_app fx1 fx2 :
  handlerCalls (fx1 ++ fx2) = (handlerCalls fx1 + handlerCalls fx2)%nat.
Proof. unfold handlerCalls. by rewrite filter_app, length_app. Qed.

Lemma handlerCalls_none fx :
  (∀ x, x ∈ fx → isHandlerCall x = false) → handlerCalls fx = 0%nat.
Proof.
  unfold handlerCalls. induction fx as [|x fx IH]; intros Hfx; [done|].
  rewrite filter_cons. destruct (decide (isHandlerCall x = true)) as [Hx|_].
  - rewrite Hfx in Hx by apply list_elem_of_here. discriminate Hx.
  - apply IH. intros y Hy. apply Hfx. by apply list_elem_of_further.
Qed.

Lemma reached_once k ev et ek ty p fx c :
  reached k ev et ek ty p fx c →
  (handlerCalls fx ≤ 1)%nat
  ∧ ∀ r, c = Normal r → handlerCalls fx = 1%nat ∧ ObsHandlerDone (Normal r) ∈ fx.
Proof.
  intros Hr.
  destruct (reached_shape _ _ _ _ _ _ _ _ Hr)
    as (uid & d & path & t & [(_ & -> & e & ->)|(ls & hc & post & -> & Hpost & Hc)]).
  { split; [|done]. rewrite handlerCalls_none; [lia|].
    intros x Hx. unfold collected in Hx. mem Hx; reflexivity. }
  assert (handlerCalls
            ([ObsTmpDir; ObsRealpath d;
              statusEmitted ev (action p) (Some uid) (runningStatus t);
              ObsHandler k "run" (handlerParams p (normalizePath path))]
             ++ logEffects p uid et ek ls ++ ObsHandlerDone hc :: post
             ++ collected ty (action p) d path) = 1%nat) as Hone.
  { rewrite handlerCalls_app.
    rewrite (handlerCalls_none (logEffects _ _ _ _ _ ++ _)); [reflexivity|].
    intros x Hx. unfold collected in Hx. mem Hx; try reflexivity.
    - by apply logEffects_elem in Hx as [(_ & m & ->)|(l & ->)].
    - destruct (Hpost _ Hx) as [(?&?&?&->)|[(?&->)|(?&->)]]; reflexivity. }
  rewrite Hone. split; [lia|]. intros r ->. split; [reflexivity|].
  rewrite (Hc r eq_refl). simpl. do 4 apply list_elem_of_further.
  apply elem_of_app. right. apply list_elem_of_here.
Qed.

(** X5.  A [run] of the Run or the Test router calls the plugin handler at
    most once; and when it returns a result, it has called the handler
    exactly once and the result is the one the handler returned. *)
Theorem run_calls_handler_once p (s : St World) :
  ((handlerCalls (effects (runRouter_run p) s) ≤ 1)%nat
   ∧ ∀ r, (runRouter_run p s).1 = Normal r →
          handlerCalls (effects (runRouter_run p) s) = 1%nat
          ∧ ObsHandlerDone (Normal r) ∈ effects (runRouter_run p) s)
  ∧ ((handlerCalls (effects (testRouter_run p) s) ≤ 1)%nat
     ∧ ∀ r, (testRouter_run p s).1 = Normal r →
            handlerCalls (effects (testRouter_run p) s) = 1%nat
            ∧ ObsHandlerDone (Normal r) ∈ effects (testRouter_run p) s).
Proof.
  split.
  - destruct (runRouter_run_shape p s) as [_ [Hn|Hr]]; [|by eapply reached_once].
    destruct Hn as [Hfx [e He]]. rewrite He.
    split; [|done]. destruct Hfx as [->|[d ->]]; vm_compute; lia.
  - destruct (testRouter_run_shape p s) as [_ [Hn|Hr]]; [|by eapply reached_once].
    destruct Hn as [Hfx [e He]]. rewrite He.
    split; [|done]. destruct Hfx as [->|[d ->]]; vm_compute; lia.
Qed.

(** *** Tasks *)

Lemma publishTag_none p a (s : St World) :
  truthy (tagTemplate p) = None → publishTag p a s = (Normal None, s).
Proof. unfold publishTag. by intros ->. Qed.

(** X6.  [process] of a Publish task whose action may be published calls
    the router's publish once, with the tag resolved from the tag template
    (no tag, and no template resolution, when there is no template or it is
    empty), and returns the result as it is, also when the result says
    [published: false]: it then only writes a warning, if there is a message.
    An error of the router's publish is thrown on, after the log entry is
    marked. *)
Theorem PublishTask_process_passes_result router p deps (s : St World) a s0 tag s1 c s2 :
  allowPublish (taskAction p) ≠ Some false →
  getExecutedAction (taskAction p) deps s = (Normal a, s0) →
  publishTag p a s0 = (Normal tag, s1) →
  build_publish router a tag
    (seen (ObsLog (LogNew (key a) ("Publishing with tag " +:+ default "undefined" tag))) s1)
  = (c, s2) →
  PublishTask_process router p deps s
  = match c with
    | Throw e => (Throw e, seen (ObsLog (LogSetError None)) s2)
    | Normal result => (Normal result, publishLogged result s2)
    end
  ∧ (truthy (tagTemplate p) = None → tag = None ∧ s1 = s0).
Proof.
  intros Hallow Ha Ht Hp. split.
  - unfold PublishTask_process. rewrite decide_False by done.
    unfold publishTag in Ht. unfold bind at 1. rewrite Ha.
    unfold bind at 1. rewrite Ht. js. rewrite Hp.
    destruct c as [result|e]; [|done]. unfold publishLogged.
    destruct (detail result) as [d|]; [|done].
    destruct (published d); [done|]. by destruct (truthy (message d)).
  - intros Hnone. rewrite (publishTag_none _ _ _ Hnone) in Ht. by injection Ht as <- <-.
Qed.

Lemma BuildTask_prepare_run p a (s : St World) :
  BuildTask_prepare p a s
  = match syncFromSrc a (world s) with
    | (Throw e, w) =>
        (Throw e, {| trace := trace s ++ buildAnnounced p a ++ [ObsSyncFromSrc a];
                     world := w |})
    | (Normal _, w) =>
        match syncDependencyProducts a w with
        | (c, w') =>
            (c, {| trace := trace s ++ buildAnnounced p a
                              ++ [ObsSyncFromSrc a; ObsLog (LogSetSuccess "Done");
                                  ObsSyncDependencyProducts a];
                   world := w' |})
        end
    end.
Proof.
  unfold BuildTask_prepare, buildAnnounced. js.
  destruct (isDisabled a); destruct (decide (0 < length (files a))%nat); simpl;
    destruct (syncFromSrc a (world s)) as [[[]|e] w]; simpl;
    try destruct (syncDependencyProducts a w) as [c w']; simpl;
    by rewrite <- ?app_assoc.
Qed.

(** X7.  [process] of a Build task calls the router's build only after the
    sources and the dependency products are synced: when [syncFromSrc] or
    [syncDependencyProducts] throws, [process] throws that error, the router
    is not called (whatever the router is) and the log entry is not marked as
    failed. *)
Theorem BuildTask_process_sync_failure router p deps (s : St World) a s0 e :
  getResolvedAction (taskAction p) deps s = (Normal a, s0) →
  (∀ w, syncFromSrc a (world s0) = (Throw e, w) →
        BuildTask_process router p deps s
        = (Throw e, {| trace := trace s0 ++ buildAnnounced p a ++ [ObsSyncFromSrc a];
                       world := w |}))
  ∧ (∀ w w', syncFromSrc a (world s0) = (Normal tt, w) →
             syncDependencyProducts a w = (Throw e, w') →
             BuildTask_process router p deps s
             = (Throw e, {| trace := trace s0 ++ buildAnnounced p a
                                       ++ [ObsSyncFromSrc a; ObsLog (LogSetSuccess "Done");
                                           ObsSyncDependencyProducts a];
                            world := w' |})).
Proof.
  intros Ha. unfold BuildTask_process. split.
  - intros w Hs. unfold bind at 1. rewrite Ha. unfold bind at 1.
    by rewrite BuildTask_prepare_run, Hs.
  - intros w w' Hs Hd. unfold bind at 1. rewrite Ha. unfold bind at 1.
    by rewrite BuildTask_prepare_run, Hs, Hd.
Qed.

(** X8.  [getStatus] of a Build task never returns null: it returns the
    status the router's [getStatus] gives, whatever its state, with the
    executed action.  An error of the router is thrown on as it is, by the
    Build and by the Test task, and nothing is written to the log. *)
Theorem getStatus_of_build_and_test router p deps (s : St World) a s0 :
  getResolvedAction (taskAction p) deps s = (Normal a, s0) →
  (∀ c s1, build_getStatus router a s0 = (c, s1) →
           BuildTask_getStatus router p deps s
           = (match c with
              | Normal st => Normal (Some (withExecuted a st))
              | Throw e => Throw e
              end, s1))
  ∧ (∀ e s1, test_getResult router (routerParams a false false) s0 = (Throw e, s1) →
             TestTask_getStatus router p deps s = (Throw e, s1)).
Proof.
  intros Ha. split.
  - intros c s1 Hr. unfold BuildTask_getStatus. js. rewrite Ha. simpl. rewrite Hr.
    by destruct c.
  - intros e s1 Hr. unfold TestTask_getStatus. js. rewrite Ha. simpl. by rewrite Hr.
Qed.

End EnginePropertiesFacts2.

(** ** logger/util.ts *)

Section LoggerFacts.
Import LoggerUtil.

Lemma LogNode_tree_ind (P : LogNode → Prop) :
  (∀ k l m cs, Forall P cs → P (Node k l m cs)) → ∀ node, P node.
Proof.
  intros H. fix IH 1. intros [k l m cs]. apply H.
  induction cs as [|c cs IHcs]; constructor; [apply IH|apply IHcs].
Qed.

Lemma traverse_children {S} (cb : LogNode → S → bool * S) node st :
  traverse cb node st = traverseChildren cb node false st.
Proof. by destruct node. Qed.

(** *** [getChildNodes] *)

Lemma loop_push cs acc :
  Forall (λ c, ∀ acc, traverse push c acc = acc ++ getChildNodes c) cs →
  loop push (traverse push) cs acc = acc ++ (cs ≫= λ c, c :: getChildNodes c).
Proof.
  intros Hcs. revert acc. induction Hcs as [|c cs Hc _ IH]; intros acc; simpl.
  - by rewrite app_nil_r.
  - rewrite Hc, IH. by rewrite <- !app_assoc.
Qed.

Lemma traverse_push node acc :
  traverse push node acc = acc ++ getChildNodes node.
Proof.
  revert acc. induction node as [k l m cs IH] using LogNode_tree_ind. intros acc.
  unfold getChildNodes, traverseChildren. simpl.
  by rewrite !loop_push.
Qed.

Lemma getChildNodes_children node :
  getChildNodes node = children node ≫= λ c, c :: getChildNodes c.
Proof.
  unfold getChildNodes at 1, traverseChildren.
  rewrite loop_push; [done|]. apply Forall_forall. intros c _ acc. apply traverse_push.
Qed.

(** X9.  [getChildNodes] lists the nodes nested under a node in pre-order:
    each child, followed by what [getChildNodes] lists for that child. *)
Theorem getChildNodes_preorder node :
  getChildNodes node = children node ≫= λ c, c :: getChildNodes c.
Proof. apply getChildNodes_children. Qed.

(** *** [findLogEntry] *)

Lemma loop_cons {S} (cb : LogNode → S → bool * S) recurse c cs st :
  loop cb recurse (c :: cs) st
  = match cb c st with
    | (true, st') => loop cb recurse cs (recurse c st')
    | (false, st') => st'
    end.
Proof. reflexivity. Qed.

Lemma remember_true predicate e found :
  predicate e = true → remember predicate e found = (false, Some e).
Proof. unfold remember. by intros ->. Qed.

Lemma remember_false predicate e found :
  predicate e = false → remember predicate e found = (true, found).
Proof. unfold remember. by intros ->. Qed.

Lemma loop_remember predicate cs found :
  Forall (λ c, ∀ found,
            (traverse (remember predicate) c found = found
             ∧ ∀ e, e ∈ getChildNodes c → predicate e = false)
            ∨ ∃ e, traverse (remember predicate) c found = Some e
                   ∧ predicate e = true ∧ e ∈ getChildNodes c) cs →
  (loop (remember predicate) (traverse (remember predicate)) cs found = found
   ∧ ∀ e, e ∈ (cs ≫= λ c, c :: getChildNodes c) → predicate e = false)
  ∨ ∃ e, loop (remember predicate) (traverse (remember predicate)) cs found = Some e
         ∧ predicate e = true ∧ e ∈ (cs ≫= λ c, c :: getChildNodes c).
Proof.
  intros Hcs. revert found.
  induction Hcs as [|c cs Hc _ IH]; intros found.
  { left. split; [done|]. intros e He. by apply elem_of_nil in He. }
  rewrite bind_cons, !loop_cons. destruct (predicate c) eqn:Hpc.
  { rewrite (remember_true _ _ _ Hpc).
    right. exists c. split; [done|]. split; [done|]. apply list_elem_of_here. }
  rewrite (remember_false _ _ _ Hpc).
  destruct (Hc found) as [[Hcf Hnone]|(e & Hce & He & Hin)].
  - rewrite Hcf. destruct (IH found) as [[Hlf Hrest]|(e & Hle & He & Hin)].
    + left. split; [done|]. intros e He.
      apply elem_of_cons in He as [->|He]; [done|].
      apply elem_of_app in He as [He|He]; [by apply Hnone|by apply Hrest].
    + right. exists e. split; [done|]. split; [done|].
      apply list_elem_of_further, elem_of_app. by right.
  - rewrite Hce.
    destruct (IH (Some e)) as [[Hlf _]|(e' & Hle & He' & Hin')].
    + right. exists e. split; [done|]. split; [done|].
      apply list_elem_of_further, elem_of_app. by left.
    + right. exists e'. split; [done|]. split; [done|].
      apply list_elem_of_further, elem_of_app. by right.
Qed.

Lemma traverse_remember predicate node found :
  (traverse (remember predicate) node found = found
   ∧ ∀ e, e ∈ getChildNodes node → predicate e = false)
  ∨ ∃ e, traverse (remember predicate) node found = Some e
         ∧ predicate e = true ∧ e ∈ getChildNodes node.
Proof.
  revert found. induction node as [k l m cs IH] using LogNode_tree_ind. intros found.
  rewrite getChildNodes_children. simpl traverse. simpl children.
  by apply loop_remember.
Qed.

(** X10.  The entry [findLogEntry] returns is nested under the node and
    satisfies the predicate, and [findLogEntry] returns nothing exactly when
    no entry nested under the node satisfies the predicate. *)
Theorem findLogEntry_found node predicate :
  (∀ e, findLogEntry node predicate = Some e →
        predicate e = true ∧ e ∈ getChildNodes node)
  ∧ (findLogEntry node predicate = None
     ↔ ∀ e, e ∈ getChildNodes node → predicate e = false).
Proof.
  unfold findLogEntry. rewrite <- traverse_children.
  destruct (traverse_remember predicate node None) as [[Hn Hnone]|(e & Hs & He & Hin)].
  - rewrite Hn. split; [done|]. by split.
  - rewrite Hs. split; [by intros ? [= <-]|]. split; [done|].
    intros Hnone. rewrite (Hnone e Hin) in He. discriminate He.
Qed.

Lemma loop_skips {S} (cb : LogNode → S → bool * S) recurse skipped rest st :
  Forall (λ c, ∀ st, cb c st = (true, st)) skipped →
  ∃ st', loop cb recurse (skipped ++ rest) st = loop cb recurse rest st'.
Proof.
  intros Hs. revert st. induction Hs as [|c cs Hc _ IH]; intros st.
  - by exists st.
  - rewrite <- app_comm_cons, loop_cons, Hc. apply IH.
Qed.

(** X11.  [findLogEntry] does not return the first match in pre-order: a
    child of the node that satisfies the predicate is returned when no child
    before it does, whatever is nested under the children before it. *)
Theorem findLogEntry_prefers_children node predicate before c after :
  children node = before ++ c :: after →
  Forall (λ e, predicate e = false) before →
  predicate c = true →
  findLogEntry node predicate = Some c.
Proof.
  intros Hcs Hbefore Hc. unfold findLogEntry, traverseChildren. rewrite Hcs.
  destruct (loop_skips (remember predicate) (traverse (remember predicate))
              before (c :: after) None) as [st ->].
  - eapply Forall_impl; [exact Hbefore|]. intros e He found.
    by apply remember_false.
  - by rewrite loop_cons, remember_true.
Qed.

(** *** [tailChildEntries] *)

Lemma msgLines_nonneg m : (0 ≤ msgLines m)%Z.
Proof. unfold msgLines. destruct (truthy m); lia. Qed.

Lemma linesOf_nonneg entries : (0 ≤ linesOf entries)%Z.
Proof.
  induction entries as [|e es IH]; simpl; [lia|].
  pose proof (msgLines_nonneg (msg (getLatestMessage e))). lia.
Qed.

Lemma linesOf_app es1 es2 : linesOf (es1 ++ es2) = (linesOf es1 + linesOf es2)%Z.
Proof. induction es1 as [|e es IH]; simpl; lia. Qed.

Lemma loop_collect maxLevel lines cs st :
  Forall (λ c, ∀ st, tailed maxLevel lines (getChildNodes c) st
                       (traverse (collect maxLevel lines) c st)) cs →
  tailed maxLevel lines (cs ≫= λ c, c :: getChildNodes c) st
    (loop (collect maxLevel lines) (traverse (collect maxLevel lines)) cs st).
Proof.
  unfold tailed. intros Hcs. revert st.
  induction Hcs as [|c cs Hc _ IH]; intros [out n].
  { exists []. simpl. rewrite app_nil_r, Z.add_0_r. split; [done|].
    split; [constructor|by left]. }
  rewrite bind_cons, loop_cons. unfold collect at 1. cbv zeta.
  destruct (decide (level c ≤ maxLevel)%nat) as [Hl|Hl].
  - rewrite <- app_comm_cons, filter_cons_True by done.
    destruct (bool_decide (lines ≤ n + msgLines (msg (getLatestMessage c)))%Z) eqn:Hn;
      simpl negb; cbv iota.
    + apply bool_decide_eq_true in Hn. exists [c]. simpl. rewrite Z.add_0_r. split; [done|].
      split; [apply sublist_skip, sublist_nil_l|]. right. lia.
    + destruct (Hc (out ++ [c], (n + msgLines (msg (getLatestMessage c)))%Z))
        as (e1 & He1 & Hs1 & H1).
      simpl in He1, H1. rewrite He1.
      destruct (IH ((out ++ [c]) ++ e1,
                    (n + msgLines (msg (getLatestMessage c)) + linesOf e1)%Z))
        as (e2 & He2 & Hs2 & H2).
      simpl in He2, H2. rewrite He2.
      exists (c :: e1 ++ e2). rewrite filter_app.
      split; [|split].
      * simpl. f_equal; [by rewrite <- !app_assoc|]. rewrite linesOf_app. lia.
      * by apply sublist_skip, sublist_app.
      * simpl. rewrite linesOf_app. pose proof (linesOf_nonneg e2).
        destruct H2 as [->|H2]; [|right; lia].
        destruct H1 as [->|H1]; [by left|right; lia].
  - rewrite <- app_comm_cons, filter_cons_False by done.
    destruct (Hc (out, n)) as (e1 & He1 & Hs1 & H1).
    simpl in He1, H1. rewrite He1.
    destruct (IH (out ++ e1, (n + linesOf e1)%Z)) as (e2 & He2 & Hs2 & H2).
    simpl in He2, H2. rewrite He2.
    exists (e1 ++ e2). rewrite filter_app.
    split; [|split].
    + simpl. f_equal; [by rewrite <- !app_assoc|]. rewrite linesOf_app. lia.
    + by apply sublist_app.
    + simpl. rewrite linesOf_app. pose proof (linesOf_nonneg e2).
      destruct H2 as [->|H2]; [|right; lia].
      destruct H1 as [->|H1]; [by left|right; lia].
Qed.

Lemma traverse_collect maxLevel lines node st :
  tailed maxLevel lines (getChildNodes node) st
    (traverse (collect maxLevel lines) node st).
Proof.
  revert st. induction node as [k l m cs IH] using LogNode_tree_ind. intros st.
  rewrite getChildNodes_children. simpl traverse. simpl children.
  by apply loop_collect.
Qed.

(** X12.  [tailChildEntries] returns entries nested under the node whose
    level is at most [level], in pre-order; and it returns all of them
    unless those it returns have [lines] lines of messages or more. *)
Theorem tailChildEntries_enough node maxLevel lines :
  sublist (tailChildEntries node maxLevel lines)
    (filter (λ e, (level e ≤ maxLevel)%nat) (getChildNodes node))
  ∧ (tailChildEntries node maxLevel lines
     = filter (λ e, (level e ≤ maxLevel)%nat) (getChildNodes node)
     ∨ (lines ≤ linesOf (tailChildEntries node maxLevel lines))%Z).
Proof.
  unfold tailChildEntries. rewrite <- traverse_children.
  destruct (traverse_collect maxLevel lines node ([], 0%Z)) as (ext & He & Hs & H).
  simpl in He, H. rewrite He. simpl.
  split; [done|]. destruct H as [->|H]; [by left|by right].
Qed.

(** *** The parents of an entry *)

Lemma LogEntry_chain_ind (P : LogEntry → Prop) :
  (∀ k m, P (Entry k m None)) →
  (∀ k m e, P e → P (Entry k m (Some e))) →
  ∀ entry, P entry.
Proof.
  intros Htop Hnested. fix IH 1. intros [k m [e|]].
  - apply Hnested, IH.
  - apply Htop.
Qed.

(** X13.  [findParentEntry] returns the nearest of the entry and its
    parents that satisfies the predicate, and null when none does. *)
Theorem findParentEntry_nearest entry predicate :
  findParentEntry entry predicate
  = head (filter (λ e, predicate e = true) (lineage entry)).
Proof.
  induction entry as [k m|k m e IH] using LogEntry_chain_ind.
  - simpl. rewrite filter_cons. destruct (predicate (Entry k m None)) eqn:Hp.
    + by rewrite decide_True.
    + by rewrite decide_False.
  - simpl. rewrite filter_cons. destruct (predicate (Entry k m (Some e))) eqn:Hp.
    + by rewrite decide_True.
    + by rewrite decide_False.
Qed.

Lemma findSection_parentSections entry :
  findSection entry = head (parentSections entry).
Proof.
  induction entry as [k m|k m e IH] using LogEntry_chain_ind; simpl;
    unfold pushSection; by destruct (truthy (section m)).
Qed.

(** X14.  [findSection] returns the first of the sections that
    [getAllSections] lists, after the entry's own: the section of the entry
    if it has one, otherwise that of the nearest parent that has one.  It is
    the section of the entry that [findParentEntry] finds for "has a
    section". *)
Theorem findSection_first_section entry :
  findSection entry
  = head (pushSection (latestMessage entry)
          ++ getAllSections entry {| msg := None; section := None |})
  ∧ findSection entry
    = (e ← findParentEntry entry
             (λ e, bool_decide (is_Some (truthy (section (latestMessage e)))));
       section (latestMessage e)).
Proof.
  split.
  - rewrite findSection_parentSections. unfold getAllSections.
    destruct entry as [k m [e|]]; simpl; by rewrite !app_nil_r.
  - induction entry as [k [mm [ms|]]|k [mm [ms|]] e IH] using LogEntry_chain_ind;
      simpl; try done; try (by destruct (decide (ms = ""))).
Qed.

(** *** [getPrecedingEntry] *)

Lemma getChildNodes_at node i (sibling : LogNode) :
  children node !! i = Some sibling →
  getChildNodes node
  = (take i (children node) ≫= λ c, c :: getChildNodes c)
    ++ sibling :: getChildNodes sibling
    ++ (drop (S i) (children node) ≫= λ c, c :: getChildNodes c).
Proof.
  intros Hi. rewrite getChildNodes_children at 1.
  rewrite <- (take_drop_middle _ _ _ Hi) at 1.
  by rewrite bind_app, bind_cons.
Qed.

(** X15.  The entry that [getPrecedingEntry] returns for an entry with a
    parent is the one listed just before the first child with the entry's
    key, among the parent and the entries nested under it in pre-order.  It
    returns nothing for an entry without a parent, and it throws when no
    child of the parent has the key of the entry. *)
Theorem getPrecedingEntry_precedes p entryKey :
  getPrecedingEntry None entryKey = Returns None
  ∧ (∀ i entry, list_find (λ e, key e = entryKey) (children p) = Some (i, entry) →
       ∃ preceding before after,
         getPrecedingEntry (Some p) entryKey = Returns (Some preceding)
         ∧ p :: getChildNodes p = before ++ preceding :: entry :: after)
  ∧ (getPrecedingEntry (Some p) entryKey = ThrowsTypeError
     ↔ ∀ e, e ∈ children p → key e ≠ entryKey).
Proof.
  split; [done|]. split.
  - intros i entry Hfind. unfold getPrecedingEntry. rewrite Hfind.
    apply list_find_Some in Hfind as (Hi & _ & _).
    rewrite (getChildNodes_at _ _ _ Hi).
    destruct i as [|i].
    { exists p, [], (getChildNodes entry
                     ++ (drop 1 (children p) ≫= λ c, c :: getChildNodes c)).
      split; [done|]. by rewrite take_0. }
    destruct (lookup_lt_is_Some_2 (children p) i) as [sibling Hs].
    { apply lookup_lt_Some in Hi. lia. }
    rewrite Hs. rewrite (take_S_r _ _ _ Hs), bind_app, bind_cons.
    change ([] ≫= λ c, c :: getChildNodes c) with (@nil LogNode). rewrite app_nil_r.
    unfold getChildEntries.
    destruct (last (getChildNodes sibling)) as [c|] eqn:Hlast.
    + apply last_Some in Hlast as [cs ->].
      exists c, (p :: (take i (children p) ≫= λ c, c :: getChildNodes c)
                 ++ sibling :: cs),
        (getChildNodes entry
         ++ (drop (S (S i)) (children p) ≫= λ c, c :: getChildNodes c)).
      split; [done|]. rewrite <- !app_assoc. simpl. by rewrite <- !app_assoc.
    + apply last_None in Hlast as ->.
      exists sibling, (p :: (take i (children p) ≫= λ c, c :: getChildNodes c)),
        (getChildNodes entry
         ++ (drop (S (S i)) (children p) ≫= λ c, c :: getChildNodes c)).
      split; [done|]. rewrite <- !app_assoc. by simpl.
  - unfold getPrecedingEntry.
    destruct (list_find (λ e, key e = entryKey) (children p)) as [[i e]|] eqn:Hfind.
    + apply list_find_Some in Hfind as (Hi & He & _).
      split.
      * destruct i as [|i]; [done|].
        destruct (lookup_lt_is_Some_2 (children p) i) as [sibling Hs].
        { apply lookup_lt_Some in Hi. lia. }
        rewrite Hs. by destruct (last (getChildEntries sibling)).
      * intros Hnone. destruct (Hnone e); [by eapply list_elem_of_lookup_2|done].
    + split; [|done]. intros _ e He Hk.
      eapply list_find_None in Hfind. by eapply Forall_forall in Hfind.
Qed.

End LoggerFacts.

(** ** plugins/container/build.ts and publish.ts *)

Ltac mem_not :=
  repeat (apply not_elem_of_cons; split; [discriminate|]); apply not_elem_of_nil.

Section ContainerFacts.
Import Container.
Context {Number : Type} (isNaN : Number → bool) (numberToString : Number → string).

Local Abbreviation Object := (PrimitiveMap Number).

Lemma entries_no_index (o : Object) :
  Forall (λ kv, arrayIndex kv.1 = None) o → entries o = o.
Proof.
  intros Ho. unfold entries.
  assert (omap (λ kv : string * Primitive Number, n ← arrayIndex kv.1; Some (n, kv)) o = [])
    as ->.
  { induction Ho as [|kv o Hkv _ IH]; [done|]. simpl. by rewrite Hkv. }
  assert (filter (λ kv : string * Primitive Number, arrayIndex kv.1 = None) o = o) as ->.
  { induction Ho as [|kv o Hkv _ IH]; [done|].
    rewrite filter_cons, decide_True by done. by f_equal. }
  done.
Qed.

Lemma filter_ext_in {A} (P1 P2 : A → Prop) `{!∀ x, Decision (P1 x), !∀ x, Decision (P2 x)}
    (l : list A) :
  (∀ x, x ∈ l → P1 x ↔ P2 x) → filter P1 l = filter P2 l.
Proof.
  induction l as [|a l IH]; intros Hl; [done|].
  rewrite !filter_cons, IH by (intros x Hx; apply Hl; by apply list_elem_of_further).
  apply decide_ext, Hl, list_elem_of_here.
Qed.

(** The value a key has in an object, as [list_to_map] finds it. *)
Local Abbreviation valueOf o key := ((list_to_map o : gmap string (Primitive Number)) !! key).

Lemma assign_old (o : Object) key value :
  key ∈ o.*1 →
  assign o key value = (λ kv, if decide (kv.1 = key) then (kv.1, value) else kv) <$> o
  ∨ ¬ NoDup o.*1.
Proof.
  intros Hin. destruct (decide (NoDup o.*1)) as [Hnd|]; [left|by right].
  induction o as [|[k v] o IH]; [by apply elem_of_nil in Hin|].
  simpl in *. apply NoDup_cons in Hnd as [Hk Hnd].
  destruct (decide (k = key)) as [->|Hne].
  - f_equal. clear IH Hin. induction o as [|[k' v'] o IH]; [done|].
    simpl in *. apply not_elem_of_cons in Hk as [Hk Hk'].
    apply NoDup_cons in Hnd as [_ Hnd].
    rewrite decide_False by done. f_equal. by apply IH.
  - f_equal. apply IH; [|done]. apply elem_of_cons in Hin as [->|Hin]; done.
Qed.

Lemma assign_new (o : Object) key value :
  key ∉ o.*1 → assign o key value = o ++ [(key, value)].
Proof.
  induction o as [|[k v] o IH]; intros Hk; [done|].
  simpl in *. apply not_elem_of_cons in Hk as [Hne Hk].
  rewrite decide_False by done. f_equal. by apply IH.
Qed.

Lemma spread_cons (target source : Object) k v :
  spread target ((k, v) :: source) = spread (assign target k v) source.
Proof. reflexivity. Qed.

Lemma keys_assigned (target : Object) k (v : Primitive Number) :
  ((λ kv : string * Primitive Number, if decide (kv.1 = k) then (kv.1, v) else kv)
     <$> target).*1 = target.*1.
Proof.
  rewrite <- list_fmap_compose. apply list_fmap_ext. intros _ [k' v'] _. simpl.
  by destruct (decide (k' = k)).
Qed.

Lemma spread_closed (target source : Object) :
  NoDup target.*1 → NoDup source.*1 →
  spread target source
  = ((λ kv, (kv.1, default kv.2 (valueOf source kv.1))) <$> target)
    ++ filter (λ kv, kv.1 ∉ target.*1) source.
Proof.
  intros Ht Hs. revert target Ht.
  induction source as [|[k v] source IH]; intros target Ht.
  { simpl. rewrite app_nil_r. induction target as [|[k v] target IHt]; [done|].
    simpl. apply NoDup_cons in Ht as [_ Ht]. f_equal. by apply IHt. }
  simpl in Hs. apply NoDup_cons in Hs as [Hk Hs].
  rewrite spread_cons.
  assert (valueOf source k = None) as Hnone by by apply not_elem_of_list_to_map_1.
  destruct (decide (k ∈ target.*1)) as [Hin|Hin].
  - destruct (assign_old target k v Hin) as [Ha|]; [|done].
    rewrite Ha, IH by (by rewrite ?keys_assigned).
    rewrite keys_assigned, <- list_fmap_compose. f_equal.
    + apply list_fmap_ext. intros _ [k' v'] _. simpl.
      destruct (decide (k' = k)) as [->|Hne]; simpl.
      * by rewrite Hnone, lookup_insert_eq.
      * by rewrite lookup_insert_ne.
    + by rewrite filter_cons, decide_False by (simpl; by intros H; apply H).
  - rewrite (assign_new target k v Hin), IH; [|done|].
    + rewrite fmap_app, <- app_assoc. f_equal.
      * apply list_fmap_ext. intros i [k' v'] Hk'. simpl.
        rewrite lookup_insert_ne; [done|]. intros Heq. apply Hin. rewrite Heq.
        apply list_elem_of_lookup_2 in Hk'. by apply (list_elem_of_fmap_2 fst) in Hk'.
      * simpl. rewrite Hnone. simpl.
        rewrite filter_cons, decide_True by done. f_equal.
        apply filter_ext_in. intros [k' v'] Hk'. simpl.
        rewrite fmap_app, not_elem_of_app. simpl. split; [by intros [? _]|].
        intros Hn. split; [done|]. intros ->%list_elem_of_singleton. apply Hk.
        by apply (list_elem_of_fmap_2 fst) in Hk'.
    + rewrite fmap_app. apply NoDup_app. split; [done|]. split.
      * intros x Hx ->%list_elem_of_singleton. done.
      * apply NoDup_singleton.
Qed.

Lemma getDockerBuildArgs_closed version (spec : Object) :
  NoDup spec.*1 →
  Forall (λ kv, arrayIndex kv.1 = None) spec →
  getDockerBuildArgs isNaN numberToString version spec
  = buildArg isNaN numberToString
      <$> ([("GARDEN_MODULE_VERSION",
             default (PString version) (valueOf spec "GARDEN_MODULE_VERSION"));
            ("GARDEN_BUILD_VERSION",
             default (PString version) (valueOf spec "GARDEN_BUILD_VERSION"))]
           ++ filter (λ kv, kv.1 ∉ ["GARDEN_MODULE_VERSION"; "GARDEN_BUILD_VERSION"]) spec).
Proof.
  intros Hnd Hidx. unfold getDockerBuildArgs.
  rewrite spread_closed; [|by repeat constructor; mem_not|done].
  rewrite entries_no_index; [done|].
  apply Forall_app. split; [by repeat constructor|].
  apply Forall_forall. intros kv [_ Hkv]%list_elem_of_filter.
  by eapply Forall_forall in Hidx.
Qed.

(** X16.  The build args always start with GARDEN_MODULE_VERSION and
    GARDEN_BUILD_VERSION, in this order, whatever the spec says, and the
    build args of the spec win: each of the two carries the version of the
    build unless the spec has the key, and then the value of the spec.  The
    other build args of the spec follow in their order.  (For a spec whose
    keys are not array indices.) *)
Theorem getDockerBuildArgs_spec_wins version (spec : Object) :
  NoDup spec.*1 →
  Forall (λ kv, arrayIndex kv.1 = None) spec →
  getDockerBuildArgs isNaN numberToString version spec
  = buildArg isNaN numberToString
      <$> ([("GARDEN_MODULE_VERSION",
             default (PString version) (valueOf spec "GARDEN_MODULE_VERSION"));
            ("GARDEN_BUILD_VERSION",
             default (PString version) (valueOf spec "GARDEN_BUILD_VERSION"))]
           ++ filter (λ kv, kv.1 ∉ ["GARDEN_MODULE_VERSION"; "GARDEN_BUILD_VERSION"]) spec).
Proof. apply getDockerBuildArgs_closed. Qed.

(** X17.  The flags of a docker build end with the [extraFlags] of the
    spec; and they start with "--build-arg" and
    "GARDEN_MODULE_VERSION=<version>" when the version is not empty and the
    build args of the spec do not set that variable. *)
Theorem getDockerBuildFlags_version_first (action : ContainerBuildAction) :
  NoDup (buildArgs (getSpec action)).*1 →
  Forall (λ kv, arrayIndex kv.1 = None) (buildArgs (getSpec action)) →
  "GARDEN_MODULE_VERSION" ∉ (buildArgs (getSpec action)).*1 →
  versionString action ≠ "" →
  ["--build-arg"; "GARDEN_MODULE_VERSION=" +:+ versionString action]
    `prefix_of` getDockerBuildFlags isNaN numberToString action
  ∧ default [] (extraFlags (getSpec action))
      `suffix_of` getDockerBuildFlags isNaN numberToString action.
Proof.
  intros Hnd Hidx Hkey Hv. unfold getDockerBuildFlags. split.
  - rewrite (getDockerBuildArgs_closed _ _ Hnd Hidx).
    rewrite (not_elem_of_list_to_map_1 _ _ Hkey).
    rewrite fmap_app, bind_app. cbn [fmap list_fmap mbind list_bind app].
    unfold buildArg at 1. simpl. rewrite decide_False by done.
    eexists. reflexivity.
  - apply suffix_app_r, suffix_app_r. done.
Qed.

End ContainerFacts.

Section ContainerHandlerFacts.
Import Container.
Context {Number World : Type} (isNaN : Number → bool) (numberToString : Number → string).
Context `{!ContainerHelpers (Number := Number) World}.

(** X18.  [buildContainer] does not build without a Dockerfile: when the
    docker version passes the check and the action has no Dockerfile, it
    throws a configuration error that names the Dockerfile of the spec (or
    "Dockerfile") and the build, and it has written nothing to the log and
    has not called docker.  With a Dockerfile it announces the build, calls
    docker once with the build command, sends the lines docker writes on as
    "log" events, also when docker fails, and returns a fresh, ready
    build. *)
Theorem buildContainer_needs_Dockerfile (action : ContainerBuildAction)
    (s : St (Host World)) version w1 hasDockerfile w2 :
  getDockerVersion (docker (world s)) = (Normal version, w1) →
  checkDockerServerVersion version = Normal tt →
  actionHasDockerfile action w1 = (Normal hasDockerfile, w2) →
  (hasDockerfile = false →
   buildContainer isNaN numberToString action s
   = (Throw (ConfigurationError (dockerfileNotFound action)),
      {| trace := trace s;
         world := {| events := events (world s); docker := w2 |} |})
   ∧ contains ("Dockerfile not found at "
               +:+ default "Dockerfile" (truthy (dockerfile (getSpec action)))
               +:+ " for build " +:+ name action) (dockerfileNotFound action))
  ∧ (hasDockerfile = true →
     ∀ lines c w3,
       dockerCli (getBuildPath action)
         (["build"; "-t"; localImageId action]
          ++ getDockerBuildFlags isNaN numberToString action
          ++ ["--file"; joinWithPosix (getBuildPath action) (dockerfile (getSpec action));
              getBuildPath action]) (Some (timeout action)) w2 = (lines, c, w3) →
       buildContainer isNaN numberToString action s
       = (match c with
          | Normal res => Normal {| buildState := Ready; buildFresh := true;
                                    builtLog := default "" (all res);
                                    builtIdentifier := localImageId action |}
          | Throw e => Throw e
          end,
          {| trace := trace s
                      ++ [ObsLog (LogInfo ("Building " +:+ localImageId action +:+ "..."));
                          ObsLog (LogNew "" "")];
             world := {| events := events (world s)
                           ++ ((λ l, {| timestamp := l.1; data := l.2;
                                        origin := Some "docker build" |}) <$> lines);
                         docker := w3 |} |})).
Proof.
  intros Hv Hc Hd. split.
  - intros ->. split.
    + unfold buildContainer, helper. js. rewrite Hv. simpl. rewrite Hc. simpl.
      by rewrite Hd.
    + unfold dockerfileNotFound, contains. exists "". eexists.
      rewrite !append_assoc. reflexivity.
  - intros -> lines c w3 Hcli.
    unfold buildContainer, helper, dockerBuild. js. rewrite Hv. simpl. rewrite Hc.
    simpl. rewrite Hd. simpl.
    rewrite <- !app_assoc. simpl. rewrite Hcli.
    by destruct c.
Qed.

(** X19.  [publishContainerBuild] tags the image only when its local id
    differs from the public id, and pushes after that: when tagging fails
    the error is thrown and nothing is pushed; when the push succeeds the
    result says published, with the public id in the message. *)
Theorem publishContainerBuild_tags_then_pushes (action : ContainerBuildAction) tag
    (s : St (Host World)) :
  let remoteId := getPublicImageId action tag in
  let announced (w : World) : St (Host World) :=
    {| trace := trace s ++ [ObsLog (LogInfo ("Publishing image " +:+ remoteId +:+ "..."))];
       world := {| events := events (world s); docker := w |} |} in
  let pushed (c : Completion DockerResult) : Completion PublishActionResult :=
    match c with
    | Normal _ => Normal {| state := Ready;
                            detail := Some {| published := true;
                                              message := Some ("Published " +:+ remoteId);
                                              identifier := None |};
                            outputs := ∅ |}
    | Throw e => Throw e
    end in
  (localImageId action = remoteId →
   ∀ lines c w1,
     dockerCli (getBuildPath action) ["push"; remoteId] None (docker (world s))
     = (lines, c, w1) →
     publishContainerBuild action tag s = (pushed c, announced w1))
  ∧ (localImageId action ≠ remoteId →
     ∀ lines c w1,
       dockerCli (getBuildPath action) ["tag"; localImageId action; remoteId] None
         (docker (world s)) = (lines, c, w1) →
       match c with
       | Throw e => publishContainerBuild action tag s = (Throw e, announced w1)
       | Normal _ =>
           ∀ lines' c' w2,
             dockerCli (getBuildPath action) ["push"; remoteId] None w1
             = (lines', c', w2) →
             publishContainerBuild action tag s = (pushed c', announced w2)
       end).
Proof.
  intros remoteId announced pushed. split.
  - intros Heq lines c w1 Hpush. unfold publishContainerBuild, helper.
    fold remoteId. rewrite decide_True by done. js. rewrite Hpush. by destruct c.
  - intros Hne lines c w1 Htag. destruct c as [r|e].
    + intros lines' c' w2 Hpush. unfold publishContainerBuild, helper.
      fold remoteId. rewrite decide_False by done. js. rewrite Htag. simpl.
      rewrite Hpush. by destruct c'.
    + unfold publishContainerBuild, helper.
      fold remoteId. rewrite decide_False by done. js. by rewrite Htag.
Qed.

End ContainerHandlerFacts.

(** ** plugins/kubernetes/container/build/kaniko.ts *)

Section KanikoFacts.
Import Kaniko.

Local Abbreviation invalid := (ConfigurationError "Invalid format for a kaniko flag").

(** The flags of [array] whose key is not the key of a flag of [values]. *)
Local Abbreviation without values array :=
  (filter (λ flag, matchKey flag ∉ matchKey <$> values) array).

Lemma flagToKey_valid flag : is_Some (matchKey flag) →
  ∃ k, matchKey flag = Some k ∧ flagToKey flag = Normal k.
Proof. intros [k Hk]. exists k. unfold flagToKey. by rewrite Hk. Qed.

Lemma flagToKey_invalid flag : matchKey flag = None → flagToKey flag = Throw invalid.
Proof. unfold flagToKey. by intros ->. Qed.

Lemma arrayMap_valid values :
  Forall (λ f, is_Some (matchKey f)) values →
  arrayMap flagToKey values = Normal (omap matchKey values).
Proof.
  induction 1 as [|f fs Hf _ IH]; [done|].
  destruct (flagToKey_valid f Hf) as (k & Hk & Hfk).
  simpl. by rewrite Hfk, IH, Hk.
Qed.

Lemma arrayMap_invalid values :
  Exists (λ f, matchKey f = None) values →
  arrayMap flagToKey values = Throw invalid.
Proof.
  induction 1 as [f fs Hf|f fs _ IH]; simpl.
  - by rewrite (flagToKey_invalid f Hf).
  - unfold flagToKey at 1. destruct (matchKey f); [by rewrite IH|done].
Qed.

Lemma outer_valid array values :
  Forall (λ f, is_Some (matchKey f)) array →
  outer flagToKey array (omap matchKey values) = Normal (without values array).
Proof.
  induction 1 as [|f fs Hf _ IH]; [done|].
  destruct (flagToKey_valid f Hf) as (k & Hk & Hfk).
  simpl. rewrite Hfk, IH, filter_cons. f_equal.
  destruct (decide (k ∈ omap matchKey values)) as [Hin|Hin].
  - rewrite decide_False; [done|]. intros Hnot. apply Hnot.
    apply list_elem_of_omap in Hin as (g & Hg & Hgk).
    rewrite Hk, <- Hgk. by apply list_elem_of_fmap_2.
  - rewrite decide_True; [done|]. intros Hin'. apply Hin.
    apply list_elem_of_fmap in Hin' as (g & Hgk & Hg).
    apply list_elem_of_omap. exists g. split; [done|]. by rewrite <- Hgk.
Qed.

Lemma outer_invalid array computeds :
  Exists (λ f, matchKey f = None) array →
  outer flagToKey array computeds = Throw invalid.
Proof.
  induction 1 as [f fs Hf|f fs _ IH]; simpl.
  - by rewrite (flagToKey_invalid f Hf).
  - unfold flagToKey at 1. destruct (matchKey f); [by rewrite IH|done].
Qed.

Lemma differenceBy_valid array values :
  Forall (λ f, is_Some (matchKey f)) array →
  Forall (λ f, is_Some (matchKey f)) values →
  differenceBy flagToKey array values = Normal (without values array).
Proof.
  intros Ha Hv. unfold differenceBy. destruct array as [|a array]; [done|].
  by rewrite (arrayMap_valid _ Hv), (outer_valid _ _ Ha).
Qed.

Lemma differenceBy_invalid array values :
  array ≠ [] →
  Exists (λ f, matchKey f = None) (values ++ array) →
  differenceBy flagToKey array values = Throw invalid.
Proof.
  intros Hne Hex. unfold differenceBy. destruct array as [|a array]; [done|].
  destruct (decide (Exists (λ f, matchKey f = None) values)) as [Hv|Hv].
  - by rewrite (arrayMap_invalid _ Hv).
  - apply Exists_app in Hex as [Hex|Hex]; [done|].
    apply not_Exists_Forall in Hv; [|apply _].
    rewrite (arrayMap_valid values).
    + by apply outer_invalid.
    + eapply Forall_impl; [exact Hv|]. intros f Hf. simpl in Hf.
      destruct (matchKey f); [by eexists|done].
Qed.

Lemma differenceBy_total array values :
  (∃ r, differenceBy flagToKey array values = Normal r)
  ∨ differenceBy flagToKey array values = Throw invalid.
Proof.
  destruct array as [|a array]; [left; by eexists|].
  destruct (decide (Exists (λ f, matchKey f = None) (values ++ a :: array))) as [H|H].
  - right. by apply differenceBy_invalid.
  - left. apply not_Exists_Forall in H; [|apply _].
    assert (Forall (λ f, is_Some (matchKey f)) (values ++ a :: array)) as Hall.
    { eapply Forall_impl; [exact H|]. intros f Hf. simpl in Hf.
      destruct (matchKey f); [by eexists|done]. }
    apply Forall_app in Hall as [Hv Ha]. eexists. by apply differenceBy_valid.
Qed.

Lemma getKanikoFlags_closed flags topLevelFlags :
  Forall (λ f, is_Some (matchKey f)) (default [] flags ++ default [] topLevelFlags) →
  getKanikoFlags flags topLevelFlags
  = Normal (default [] flags
            ++ without (default [] flags) (default [] topLevelFlags)
            ++ without (from_option id (default [] topLevelFlags) flags)
                 DEFAULT_KANIKO_FLAGS).
Proof.
  intros Hall. apply Forall_app in Hall as [Hf Ht].
  assert (Forall (λ f, is_Some (matchKey f)) DEFAULT_KANIKO_FLAGS) as Hd.
  { repeat constructor. by eexists. }
  unfold getKanikoFlags.
  destruct flags as [fl|], topLevelFlags as [tl|];
    cbv beta iota delta [from_option id] in *.
  - by rewrite (differenceBy_valid _ _ Hd Hf), (differenceBy_valid _ _ Ht Hf).
  - by rewrite (differenceBy_valid _ _ Hd Hf).
  - by rewrite (differenceBy_valid _ _ Hd Ht), (differenceBy_valid _ _ Ht Hf).
  - done.
Qed.

(** X20.  When every flag has a "--", [getKanikoFlags] returns the flags of
    the build, then the top-level flags whose key (the "--" and the letters
    after it) is not the key of a flag of the build, then the default
    "--cache=true" unless a flag has the key "--cache": a flag of the build
    if it has flags (also an empty list), a top-level flag otherwise. *)
Theorem getKanikoFlags_overrides flags topLevelFlags :
  Forall (λ f, is_Some (matchKey f)) (default [] flags ++ default [] topLevelFlags) →
  getKanikoFlags flags topLevelFlags
  = Normal (default [] flags
            ++ filter (λ flag, matchKey flag ∉ matchKey <$> default [] flags)
                 (default [] topLevelFlags)
            ++ (if decide (Some "--cache"
                           ∈ matchKey <$> from_option id (default [] topLevelFlags) flags)
                then [] else ["--cache=true"])).
Proof.
  intros Hall. rewrite (getKanikoFlags_closed _ _ Hall). do 3 f_equal.
  unfold DEFAULT_KANIKO_FLAGS. rewrite filter_cons.
  change (matchKey "--cache=true") with (Some "--cache").
  destruct (decide (Some "--cache"
                    ∈ matchKey <$> from_option id (default [] topLevelFlags) flags)).
  - by rewrite decide_False by (intros Hn; by apply Hn).
  - by rewrite decide_True.
Qed.

(** X21.  [getKanikoFlags] throws exactly when one of the flags it is given
    has no "--" in it, and what it throws is the configuration error
    "Invalid format for a kaniko flag". *)
Theorem getKanikoFlags_invalid flags topLevelFlags :
  ((∃ e, getKanikoFlags flags topLevelFlags = Throw e)
   ↔ ∃ f, f ∈ default [] flags ++ default [] topLevelFlags ∧ matchKey f = None)
  ∧ ∀ e, getKanikoFlags flags topLevelFlags = Throw e → e = invalid.
Proof.
  assert (∀ e, getKanikoFlags flags topLevelFlags = Throw e → e = invalid) as Hinv.
  { intros e. unfold getKanikoFlags.
    destruct flags as [fl|], topLevelFlags as [tl|];
      cbv beta iota delta [from_option id]; try done.
    all: match goal with
         | |- context [differenceBy flagToKey DEFAULT_KANIKO_FLAGS ?v] =>
             destruct (differenceBy_total DEFAULT_KANIKO_FLAGS v) as [[r ->]| ->]
         end; [|congruence].
    all: match goal with
         | |- context [differenceBy flagToKey ?a ?v] =>
             destruct (differenceBy_total a v) as [[r' ->]| ->]
         end; congruence. }
  split; [|exact Hinv]. split.
  - intros [e He].
    destruct (decide (Exists (λ f, matchKey f = None)
                        (default [] flags ++ default [] topLevelFlags))) as [H|H].
    { apply Exists_exists in H as (f & Hf & Hk). by exists f. }
    apply not_Exists_Forall in H; [|apply _].
    rewrite getKanikoFlags_closed in He; [done|].
    eapply Forall_impl; [exact H|]. intros f Hf. simpl in Hf.
    destruct (matchKey f); [by eexists|done].
  - intros (f & Hf & Hk). exists invalid.
    assert (DEFAULT_KANIKO_FLAGS ≠ []) as Hd by done.
    unfold getKanikoFlags.
    destruct flags as [fl|], topLevelFlags as [tl|];
      cbv beta iota delta [from_option id] in *.
    + apply elem_of_app in Hf as [Hf|Hf].
      * rewrite (differenceBy_invalid DEFAULT_KANIKO_FLAGS fl Hd); [done|].
        apply Exists_app. left. apply Exists_exists. by exists f.
      * destruct (differenceBy_total DEFAULT_KANIKO_FLAGS fl) as [[r ->]| ->]; [|done].
        rewrite (differenceBy_invalid tl fl); [done| |].
        -- intros ->. by apply elem_of_nil in Hf.
        -- apply Exists_app. right. apply Exists_exists. by exists f.
    + rewrite app_nil_r in Hf.
      rewrite (differenceBy_invalid DEFAULT_KANIKO_FLAGS fl Hd); [done|].
      apply Exists_app. left. apply Exists_exists. by exists f.
    + rewrite (differenceBy_invalid DEFAULT_KANIKO_FLAGS tl Hd); [done|].
      apply Exists_app. left. apply Exists_exists. by exists f.
    + by apply elem_of_nil in Hf.
Qed.

(** X22.  A top-level flag with the key "--cache" replaces the default
    "--cache=true" only for a build without flags of its own: when the build
    has flags, none with the key "--cache", the result has the top-level
    flag and "--cache=true" as well. *)
Theorem getKanikoFlags_keeps_default flags topLevelFlags flag :
  Forall (λ f, is_Some (matchKey f)) (flags ++ topLevelFlags) →
  Some "--cache" ∉ matchKey <$> flags →
  flag ∈ topLevelFlags →
  matchKey flag = Some "--cache" →
  flag ≠ "--cache=true" →
  (∃ r, getKanikoFlags (Some flags) (Some topLevelFlags) = Normal r
        ∧ flag ∈ r ∧ "--cache=true" ∈ r)
  ∧ (∃ r, getKanikoFlags None (Some topLevelFlags) = Normal r
          ∧ flag ∈ r ∧ ("--cache=true" ∈ r → "--cache=true" ∈ topLevelFlags)).
Proof.
  intros Hall Hnone Hin Hk Hne. split.
  - rewrite (getKanikoFlags_closed (Some flags) (Some topLevelFlags) Hall).
    eexists. split; [done|]. simpl. split.
    + apply elem_of_app. right. apply elem_of_app. left.
      apply list_elem_of_filter. split; [|done]. by rewrite Hk.
    + apply elem_of_app. right. apply elem_of_app. right.
      apply list_elem_of_filter. split; [done|]. apply list_elem_of_here.
  - apply Forall_app in Hall as [_ Ht].
    rewrite (getKanikoFlags_closed None (Some topLevelFlags)) by done.
    eexists. split; [done|]. simpl. split.
    + apply elem_of_app. left. apply list_elem_of_filter. split; [|done].
      intros H. by apply elem_of_nil in H.
    + intros H. apply elem_of_app in H as [H|H].
      * by apply list_elem_of_filter in H as [_ H].
      * apply list_elem_of_filter in H as [H _]. destruct H.
        change (matchKey "--cache=true") with (Some "--cache").
        rewrite <- Hk. by apply list_elem_of_fmap_2.
Qed.

Lemma getKanikoFlags_prefix flags topLevelFlags r :
  getKanikoFlags flags topLevelFlags = Normal r →
  ∃ rest, r = default [] flags ++ rest.
Proof.
  unfold getKanikoFlags.
  destruct flags as [fl|], topLevelFlags as [tl|];
    cbv beta iota delta [from_option id].
  4: { intros [= <-]. by eexists. }
  all: match goal with
       | |- context [differenceBy flagToKey DEFAULT_KANIKO_FLAGS ?v] =>
           destruct (differenceBy flagToKey DEFAULT_KANIKO_FLAGS v);
             [|intros; discriminate]
       end.
  all: match goal with
       | |- context [differenceBy flagToKey ?a ?v] =>
           destruct (differenceBy flagToKey a v); [|intros; discriminate]
       end.
  all: intros [= <-]; eexists; reflexivity.
Qed.

(** X23.  The arguments [kanikoBuild] runs kaniko with hold the
    [extraFlags] of the build twice: once right after the destination, where
    [getKanikoFlags] puts them, and once at the very end, where
    [getDockerBuildFlags] puts them. *)
Theorem kanikoArgs_repeat_extraFlags {Number} (isNaN : Number → bool)
    (numberToString : Number → string) (action : Container.ContainerBuildAction)
    deploymentImageId topLevelFlags insecure args :
  kanikoArgs isNaN numberToString action deploymentImageId topLevelFlags insecure
  = Normal args →
  ∃ between,
    args = ["--context"; "dir:///.garden/context"; "--dockerfile";
            default "Dockerfile" (truthy (Container.dockerfile (Container.getSpec action)));
            "--destination"; deploymentImageId]
           ++ default [] (Container.extraFlags (Container.getSpec action))
           ++ between
           ++ default [] (Container.extraFlags (Container.getSpec action)).
Proof.
  unfold kanikoArgs.
  destruct (getKanikoFlags (Container.extraFlags (Container.getSpec action))
              topLevelFlags) as [flags|e] eqn:Hflags; [|intros; discriminate].
  apply getKanikoFlags_prefix in Hflags as [rest ->]. intros [= <-].
  unfold Container.getDockerBuildFlags.
  exists (rest ++ (if insecure then ["--insecure"] else [])
          ++ (Container.getDockerBuildArgs isNaN numberToString
                (Container.versionString action)
                (Container.buildArgs (Container.getSpec action))
                ≫= λ arg, ["--build-arg"; arg])
          ++ match truthy (Container.targetStage (Container.getSpec action)) with
             | Some stage => ["--target"; stage]
             | None => []
             end).
  rewrite <- !app_assoc. reflexivity.
Qed.

End KanikoFacts.

(** ** tasks/test.ts: [filterTestConfigs] *)

Section TestConfigsFacts.
Import TestConfigs.
Variable minimatch : string → string → bool.
Variable moduleTestNameToActionName : string → string → string.

(** X24.  [filterTestConfigs] keeps the tests of the module that are not
    disabled and, when filter names are given, whose action name matches one
    of them.  (A name that is the empty string is taken out: a test whose
    first match is the empty name is not kept.) *)
Theorem filterTestConfigs_matches module filterNames test :
  "" ∉ default [] filterNames →
  test ∈ filterTestConfigs minimatch moduleTestNameToActionName module filterNames
  ↔ test ∈ testConfigs module
    ∧ disabled test = false
    ∧ (default [] filterNames = []
       ∨ ∃ n, n ∈ default [] filterNames
              ∧ minimatch (moduleTestNameToActionName (moduleName module) (name test)) n
                = true).
Proof.
  intros Hempty. unfold filterTestConfigs. rewrite list_elem_of_filter.
  unfold acceptableTestConfig.
  destruct (disabled test); [split; [by intros [? _]|by intros (_ & ? & _)]|].
  destruct filterNames as [[|n0 names]|]; cbv beta iota zeta delta [from_option id] in *.
  - split; [intros [_ ?]|intros (? & _)]; auto.
  - destruct (list_find (λ n, minimatch _ n = true) (n0 :: names)) as [[i n]|] eqn:Hfind.
    + apply list_find_Some in Hfind as (Hi & Hn & _).
      apply list_elem_of_lookup_2 in Hi.
      rewrite bool_decide_eq_true. split.
      * intros [_ Ht]. split; [done|]. split; [done|]. right. by exists n.
      * intros (Ht & _). split; [|done]. intros ->. by apply Hempty.
    + apply list_find_None in Hfind.
      split; [by intros [? _]|]. intros (_ & _ & [?|(n & Hn & Hm)]); [done|].
      eapply Forall_forall in Hfind; [|exact Hn]. done.
  - split; [intros [_ ?]|intros (? & _)]; auto.
Qed.

End TestConfigsFacts.

(** ** The Kubernetes workload of a container deploy *)

Section WorkloadFacts.
Import Workload.
Variable gardenAnnotationKey : string → string.

(** X25.  The selector of the workload that [workloadConfig] returns
    matches the pods of its template: every label of the selector is a label
    of the template, with the same value.  The selector has no module label,
    and the template and the workload have the same labels. *)
Theorem workload_selector_matches_template action blueGreen :
  matchLabels (workloadConfig gardenAnnotationKey action blueGreen)
    ⊆ templateLabels (workloadConfig gardenAnnotationKey action blueGreen)
  ∧ matchLabels (workloadConfig gardenAnnotationKey action blueGreen)
      !! gardenAnnotationKey "module" = None
  ∧ templateLabels (workloadConfig gardenAnnotationKey action blueGreen)
    = metadataLabels (workloadConfig gardenAnnotationKey action blueGreen).
Proof.
  simpl. unfold getDeploymentSelector. split; [apply delete_subseteq|].
  split; [apply lookup_delete_eq|done].
Qed.

Lemma append_inj_r (s t1 t2 : string) : s +:+ t1 = s +:+ t2 → t1 = t2.
Proof.
  induction s as [|c s IH]; [done|].
  change (String c (s +:+ t1) = String c (s +:+ t2) → t1 = t2).
  intros [= H]. by apply IH.
Qed.

(** X26.  A blue-green deployment is told apart by its version, a rolling
    one is not: with [blueGreen], two versions of a deploy get different
    workload names and different selectors (when the key of the version label
    is not that of the module label); without it they get the same name and
    the same selector. *)
Theorem blueGreen_by_version action version1 version2 :
  gardenAnnotationKey "version" ≠ gardenAnnotationKey "module" →
  version1 ≠ version2 →
  (getDeploymentName (name action) true version1
   ≠ getDeploymentName (name action) true version2
   ∧ getDeploymentSelector gardenAnnotationKey (atVersion action version1) true
     ≠ getDeploymentSelector gardenAnnotationKey (atVersion action version2) true)
  ∧ (getDeploymentName (name action) false version1
     = getDeploymentName (name action) false version2
     ∧ getDeploymentSelector gardenAnnotationKey (atVersion action version1) false
       = getDeploymentSelector gardenAnnotationKey (atVersion action version2) false).
Proof.
  intros Hkey Hne. split; [split|by split].
  - unfold getDeploymentName. intros Heq. apply Hne.
    by do 2 apply append_inj_r in Heq.
  - intros Heq. apply Hne.
    assert (∀ v, getDeploymentSelector gardenAnnotationKey (atVersion action v) true
                 !! gardenAnnotationKey "version" = Some v) as Hv.
    { intros v. unfold getDeploymentSelector, getDeploymentLabels.
      rewrite lookup_delete_ne by done. by rewrite lookup_insert_eq. }
    pose proof (Hv version1) as H1. rewrite Heq, Hv in H1. by injection H1.
Qed.

End WorkloadFacts.

(** ** The routers and [silent] *)

Section EnginePropertiesFacts3.
Context {World DependencyResults ExecutedAction : Type}.
Context `{!Env World DependencyResults ExecutedAction}.

Lemma logEffects_written p uid et ek ls pl :
  interactive p = false →
  ObsEmit {| eventName := "log"; payload := PLog pl |} ∈ logEffects p uid et ek ls →
  ∃ origin,
    ObsLog (LogInfo (renderOutputStream (l_data pl) origin)) ∈ logEffects p uid et ek ls.
Proof.
  intros Hi Hin. unfold logEffects in *. rewrite Hi in *.
  apply list_elem_of_bind in Hin as (l & Hin & Hl).
  exists (origin l). apply list_elem_of_bind. exists l. split; [|done].
  mem Hin. simpl. apply list_elem_of_here.
Qed.

Lemma reached_written k ev et ek ty p fx c pl :
  reached k ev et ek ty p fx c →
  interactive p = false →
  ObsEmit {| eventName := "log"; payload := PLog pl |} ∈ fx →
  ∃ origin, ObsLog (LogInfo (renderOutputStream (l_data pl) origin)) ∈ fx.
Proof.
  intros Hr Hi Hin.
  destruct (reached_shape _ _ _ _ _ _ _ _ Hr)
    as (uid & d & path & t & [(_ & -> & _)|(ls & hc & post & -> & Hpost & _)]);
    unfold collected, statusEmitted in Hin; simpl in Hin; mem Hin.
  - destruct (logEffects_written _ _ _ _ _ _ Hi Hin) as [o Ho]. exists o.
    do 4 apply list_elem_of_further. apply elem_of_app. by left.
  - destruct (Hpost _ Hin) as [(?&?&?&[=])|[(?&Hs)|(?&[=])]].
    unfold statusEmitted in Hs. discriminate Hs.
Qed.

(** X27.  [silent] does not silence the routers: unless [interactive] is
    set, every "log" event that [run] of the Run or the Test router sends on
    to the event bus is also written to the log with [log.info], whatever
    [silent] is. *)
Theorem silent_run_still_logs p (s : St World) pl :
  interactive p = false →
  (ObsEmit {| eventName := "log"; payload := PLog pl |} ∈ effects (runRouter_run p) s →
   ∃ origin, ObsLog (LogInfo (renderOutputStream (l_data pl) origin))
               ∈ effects (runRouter_run p) s)
  ∧ (ObsEmit {| eventName := "log"; payload := PLog pl |} ∈ effects (testRouter_run p) s →
     ∃ origin, ObsLog (LogInfo (renderOutputStream (l_data pl) origin))
                 ∈ effects (testRouter_run p) s).
Proof.
  intros Hi. split; intros Hin.
  - destruct (runRouter_run_shape p s) as [_ [Hn|Hr]].
    + by destruct (notReached_elem _ _ _ Hn Hin) as [[=]|[? [=]]].
    + by eapply reached_written.
  - destruct (testRouter_run_shape p s) as [_ [Hn|Hr]].
    + by destruct (notReached_elem _ _ _ Hn Hin) as [[=]|[? [=]]].
    + by eapply reached_written.
Qed.

End EnginePropertiesFacts3.

(** ** The theorems on the example project *)

Import Fixture.

Lemma before_elem_of (x y : Obs) l : before x y l → x ∈ l ∧ y ∈ l.
Proof.
  intros (l1 & l2 & l3 & ->). split.
  - apply elem_of_app. right. apply list_elem_of_here.
  - apply elem_of_app. right. apply list_elem_of_further, elem_of_app. right.
    apply list_elem_of_here.
Qed.

Lemma status_events_around_handler_witness :
  ∃ uid t,
    before (statusEmitted "taskStatus" (action execRun) (Some uid) (runningStatus t))
      (ObsHandler Run "run" (handlerParams execRun "/tmp/garden-1"))
      (effects (runRouter_run execRun) start)
    ∧ before (ObsHandlerDone (Normal (ok passed {["log" := JStr "bla bla"]})))
        (statusEmitted "taskStatus" (action execRun) (Some uid)
           (runStatus (Some passed)))
        (effects (runRouter_run execRun) start).
Proof.
  destruct (proj1 (status_events_around_handler execRun start)
              (handlerParams execRun "/tmp/garden-1")) as (uid & t & Hb & Hd).
  { vm_compute. do 3 apply list_elem_of_further. apply list_elem_of_here. }
  exists uid, t. split; [exact Hb|].
  apply (Hd (ok passed {["log" := JStr "bla bla"]})).
  - vm_compute. do 6 apply list_elem_of_further. apply list_elem_of_here.
  - reflexivity.
Defined.

(** C8 as the claim states it fails: the handler of [wrongRun] returns a
    result, its outputs do not pass validation, and no second taskStatus
    event follows. *)
Lemma status_event_missing_after_invalid_outputs :
  ¬ emitsStatusAround anyResult Run "taskStatus" (action wrongRun)
      (effects (runRouter_run wrongRun) start).
Proof.
  intros H.
  destruct (H (handlerParams wrongRun "/tmp/garden-1")) as (uid & t & _ & Hd).
  { vm_compute. do 3 apply list_elem_of_further. apply list_elem_of_here. }
  specialize (Hd (ok passed {["foo" := JNum 123]})).
  apply before_elem_of in Hd as [_ Hin].
  - set (fx := effects (runRouter_run wrongRun) start) in Hin.
    vm_compute in fx. subst fx. unfold statusEmitted in Hin. mem Hin.
  - vm_compute. do 4 apply list_elem_of_further. apply list_elem_of_here.
  - exact I.
Qed.





(** C5 as the claim states it fails: the router's [getResult] throws an
    error that is no configuration error, and [getStatus] throws it too. *)
Lemma status_check_error_is_thrown :
  ¬ failsOpen exampleRouter throwingTask tt start.
Proof.
  intros H.
  assert ((RunTask_getStatus exampleRouter throwingTask tt start).1 = Normal None)
    as Hnull.
  { apply (H (taskAction throwingTask)
             (seen (ObsLog (LogNew "task-a" "Checking result...")) start)
             (RuntimeError "connection refused")
             (runRouter_getResult (routerParams (taskAction throwingTask) false false)
                (seen (ObsLog (LogNew "task-a" "Checking result...")) start)).2).
    - reflexivity.
    - vm_compute. reflexivity.
    - intros m. discriminate. }
  vm_compute in Hnull. discriminate Hnull.
Qed.

Lemma getStatus_rethrows_router_error_witness :
  RunTask_getStatus exampleRouter throwingTask tt start
  = (Throw (RuntimeError "connection refused"),
     seen (ObsLog (LogSetError None))
       (runRouter_getResult (routerParams (taskAction throwingTask) false false)
          (seen (ObsLog (LogNew "task-a" "Checking result...")) start)).2).
Proof.
  apply (getStatus_rethrows_router_error exampleRouter throwingTask tt start
           (taskAction throwingTask)
           (seen (ObsLog (LogNew "task-a" "Checking result...")) start)).
  - reflexivity.
  - vm_compute. reflexivity.
Defined.

Lemma publish_depends_on_build_only_witness :
  PublishTask_resolveProcessDependencies forcedBuild
  = [BuildTask {| base := base forcedBuild;
                  taskAction := taskAction forcedBuild;
                  force := true;
                  tagTemplate := None;
                  taskSilent := None;
                  taskInteractive := None |}].
Proof.
  apply (proj1 (proj1 (publish_depends_on_build_only (World := World) forcedBuild)
                  ltac:(discriminate))).
Defined.

Lemma publish_disabled_skips_handler_witness :
  PublishTask_resolveProcessDependencies privateBuild = []
  ∧ PublishTask_process exampleRouter privateBuild tt start
    = (Normal {| state := Ready;
                 detail := Some {| published := false; message := None;
                                   identifier := None |};
                 outputs := ∅ |},
       {| trace := [ObsLog (LogInfo "Publishing disabled (allowPublish=false set on build)")];
          world := 0 |}).
Proof.
  destruct (publish_disabled_skips_handler exampleRouter privateBuild tt start eq_refl)
    as (Hdeps & Hprocess & _).
  split; [exact Hdeps|exact Hprocess].
Defined.


Lemma build_tasks_capped_at_five_witness :
  ∃ s, rtc (step 10 50) (processTasks (buildTasks 6)) s
       ∧ inProcessOfType "build" s = 5%nat
       ∧ (inProcessOfType "build" s ≤ 5)%nat
       ∧ ∀ i, startTask 10 50 i s = None.
Proof.
  assert (∃ s, rtc (step 10 50) (processTasks (buildTasks 6)) s
               ∧ inProcessOfType "build" s = 5%nat
               ∧ ∀ i, startTask 10 50 i s = None) as (s & Hrtc & Hfive & Hfull).
  { eexists. split; [|split].
    - do 5 (eapply rtc_l; [apply step_start with (i := 0%nat); reflexivity|]).
      apply rtc_refl.
    - reflexivity.
    - intros [|i]; reflexivity. }
  exists s. split; [exact Hrtc|]. split; [exact Hfive|]. split; [|exact Hfull].
  apply (proj2 (build_tasks_capped_at_five 10 50 (buildTasks 6) s) Hrtc).
Defined.


(** ** More on the routers and tasks, on the example project *)

Lemma interactive_run_writes_no_log_witness :
  (ObsLog (LogInfo "hello") ∉ effects (runRouter_run (routerParams
      (exampleAction Run "task-a" "exec") false true)) start)
  ∧ (ObsLog (LogInfo "hello") ∉ effects (testRouter_run (routerParams
      (exampleAction Run "task-a" "exec") false true)) start).
Proof.
  apply (interactive_run_writes_no_log
           (routerParams (exampleAction Run "task-a" "exec") false true) start).
  reflexivity.
Defined.

Lemma run_setup_failure_witness :
  runRouter_run (Env0 := Outage.env) execRun start
  = (Throw Outage.diskFull, {| trace := [ObsTmpDir]; world := 2 |})
  ∧ runRouter_run (Env0 := Outage.env) execRun {| trace := []; world := 2 |}
    = (Throw Outage.diskFull,
       {| trace := [ObsTmpDir; ObsRealpath "/tmp/garden-1"]; world := 5 |}).
Proof.
  split.
  - apply (proj1 (run_setup_failure (Env0 := Outage.env) execRun start "uid-0" 1
                    Outage.diskFull 2 eq_refl)).
    reflexivity.
  - apply (proj2 (run_setup_failure (Env0 := Outage.env) execRun
                    {| trace := []; world := 2 |} "uid-2" 3 Outage.diskFull 4 eq_refl)
             "/tmp/garden-1" 5); reflexivity.
Defined.

Lemma PublishTask_process_passes_result_witness :
  PublishTask_process (Env0 := Outage.env) Outage.refusingRouter Outage.taggedPublish
    tt start
  = (Normal Outage.refused,
     {| trace := [ObsLog (LogNew "build.module-a" "Publishing with tag v1.0");
                  ObsLog (LogSetWarn "image is up to date")];
        world := 0 |})
  ∧ (truthy (tagTemplate Outage.taggedPublish) = None →
     Some "v1.0" = None ∧ start = start).
Proof.
  apply (PublishTask_process_passes_result (Env0 := Outage.env) Outage.refusingRouter
           Outage.taggedPublish tt start (taskAction Outage.taggedPublish) start
           (Some "v1.0") start (Normal Outage.refused)
           {| trace := [ObsLog (LogNew "build.module-a" "Publishing with tag v1.0")];
              world := 0 |}).
  - discriminate.
  - reflexivity.
  - reflexivity.
  - reflexivity.
Defined.

Lemma BuildTask_process_sync_failure_witness :
  BuildTask_process (Env0 := Outage.env) Outage.refusingRouter
    (taskOn (exampleAction Build "module-a" "container")) tt {| trace := []; world := 5 |}
  = (Throw Outage.diskFull,
     {| trace := [ObsLog (LogNew "module-a" "");
                  ObsLog (LogInfo "Building version v-1234567890...");
                  ObsLog (LogVerbose "Syncing module sources...");
                  ObsSyncFromSrc (exampleAction Build "module-a" "container")];
        world := 6 |})
  ∧ BuildTask_process (Env0 := Outage.env) Outage.refusingRouter
      (taskOn (exampleAction Build "module-a" "container")) tt
      {| trace := []; world := 6 |}
    = (Throw Outage.diskFull,
       {| trace := [ObsLog (LogNew "module-a" "");
                    ObsLog (LogInfo "Building version v-1234567890...");
                    ObsLog (LogVerbose "Syncing module sources...");
                    ObsSyncFromSrc (exampleAction Build "module-a" "container");
                    ObsLog (LogSetSuccess "Done");
                    ObsSyncDependencyProducts (exampleAction Build "module-a" "container")];
          world := 8 |}).
Proof.
  split.
  - apply (proj1 (BuildTask_process_sync_failure (Env0 := Outage.env)
                    Outage.refusingRouter
                    (taskOn (exampleAction Build "module-a" "container")) tt
                    {| trace := []; world := 5 |}
                    (exampleAction Build "module-a" "container")
                    {| trace := []; world := 5 |} Outage.diskFull eq_refl) 6).
    reflexivity.
  - apply (proj2 (BuildTask_process_sync_failure (Env0 := Outage.env)
                    Outage.refusingRouter
                    (taskOn (exampleAction Build "module-a" "container")) tt
                    {| trace := []; world := 6 |}
                    (exampleAction Build "module-a" "container")
                    {| trace := []; world := 6 |} Outage.diskFull eq_refl) 7 8);
      reflexivity.
Defined.

Lemma getStatus_of_build_and_test_witness :
  BuildTask_getStatus exampleRouter (taskOn (exampleAction Build "module-a" "container"))
    tt start
  = (Normal (Some (withExecuted (exampleAction Build "module-a" "container") built)), start)
  ∧ TestTask_getStatus exampleRouter (taskOn (exampleAction Test "unit" "throwing"))
      tt start
    = (Throw (RuntimeError "connection refused"),
       {| trace := [ObsHandler Test "getResult"
                      (routerParams (exampleAction Test "unit" "throwing") false false);
                    ObsHandlerDone (Throw (RuntimeError "connection refused"))];
          world := 1 |}).
Proof.
  split.
  - apply (proj1 (getStatus_of_build_and_test (Env0 := exampleEnv) exampleRouter
                    (taskOn (exampleAction Build "module-a" "container")) tt start
                    (exampleAction Build "module-a" "container") start eq_refl)
             (Normal built) start).
    reflexivity.
  - apply (proj2 (getStatus_of_build_and_test (Env0 := exampleEnv) exampleRouter
                    (taskOn (exampleAction Test "unit" "throwing")) tt start
                    (exampleAction Test "unit" "throwing") start eq_refl)).
    reflexivity.
Defined.

(** ** The logger, the container plugin and the workloads, on the examples *)

Lemma findLogEntry_prefers_children_witness :
  LoggerUtil.findLogEntry Examples.logRoot Examples.isError = Some Examples.deployError
  ∧ LoggerUtil.getChildNodes Examples.logRoot
    = [Examples.building; Examples.nestedError; Examples.deployError].
Proof.
  split; [|reflexivity].
  apply (findLogEntry_prefers_children Examples.logRoot Examples.isError
           [Examples.building] Examples.deployError []).
  - reflexivity.
  - repeat constructor.
  - reflexivity.
Defined.

Lemma getDockerBuildArgs_spec_wins_witness :
  Container.getDockerBuildArgs Examples.neverNaN pretty "v-1234567890"
    (Container.buildArgs Examples.buildSpec)
  = ["GARDEN_MODULE_VERSION=v-1234567890"; "GARDEN_BUILD_VERSION=custom"; "FOO=bar";
     "DEBUG"; "RETRIES=0"].
Proof.
  rewrite (getDockerBuildArgs_spec_wins Examples.neverNaN pretty "v-1234567890"
             (Container.buildArgs Examples.buildSpec)).
  - vm_compute. reflexivity.
  - vm_compute. repeat (constructor; [mem_not|]). constructor.
  - repeat (constructor; [reflexivity|]). constructor.
Defined.

Lemma getDockerBuildFlags_version_first_witness :
  ["--build-arg"; "GARDEN_MODULE_VERSION=v-1234567890"]
    `prefix_of` Container.getDockerBuildFlags Examples.neverNaN pretty
                  Examples.containerBuild
  ∧ ["--cache-from"; "some-image:latest"]
      `suffix_of` Container.getDockerBuildFlags Examples.neverNaN pretty
                    Examples.containerBuild.
Proof.
  apply (getDockerBuildFlags_version_first Examples.neverNaN pretty
           Examples.containerBuild).
  - vm_compute. repeat (constructor; [mem_not|]). constructor.
  - repeat (constructor; [reflexivity|]). constructor.
  - vm_compute. mem_not.
  - discriminate.
Defined.

Lemma buildContainer_needs_Dockerfile_witness :
  Container.buildContainer Examples.neverNaN pretty Examples.containerBuild Examples.idle
  = (Throw (ConfigurationError (Container.dockerfileNotFound Examples.containerBuild)),
     Examples.idle)
  ∧ contains "Dockerfile not found at prod.Dockerfile for build module-a"
      (Container.dockerfileNotFound Examples.containerBuild).
Proof.
  apply (proj1 (buildContainer_needs_Dockerfile (ContainerHelpers0 := Examples.dockerHost)
                  Examples.neverNaN pretty
                  Examples.containerBuild Examples.idle "20.10.17" 0 false 0
                  eq_refl eq_refl eq_refl)).
  reflexivity.
Defined.

Lemma getKanikoFlags_overrides_witness :
  Kaniko.getKanikoFlags (Some ["--cache=false"; "--snapshotMode=redo"])
    (Some ["--cache-dir=/tmp"; "--verbosity=debug"])
  = Normal ["--cache=false"; "--snapshotMode=redo"; "--verbosity=debug"].
Proof.
  rewrite (getKanikoFlags_overrides (Some ["--cache=false"; "--snapshotMode=redo"])
             (Some ["--cache-dir=/tmp"; "--verbosity=debug"])).
  - vm_compute. reflexivity.
  - repeat (constructor; [by eexists|]). constructor.
Defined.

Lemma getKanikoFlags_keeps_default_witness :
  (∃ r, Kaniko.getKanikoFlags (Some ["--snapshotMode=redo"]) (Some ["--cache=false"])
        = Normal r
        ∧ "--cache=false" ∈ r ∧ "--cache=true" ∈ r)
  ∧ (∃ r, Kaniko.getKanikoFlags None (Some ["--cache=false"]) = Normal r
          ∧ "--cache=false" ∈ r
          ∧ ("--cache=true" ∈ r → "--cache=true" ∈ ["--cache=false"])).
Proof.
  apply (getKanikoFlags_keeps_default ["--snapshotMode=redo"] ["--cache=false"]
           "--cache=false").
  - repeat (constructor; [by eexists|]). constructor.
  - vm_compute. mem_not.
  - apply list_elem_of_here.
  - reflexivity.
  - discriminate.
Defined.

Lemma kanikoArgs_repeat_extraFlags_witness :
  ∃ between,
    ["--context"; "dir:///.garden/context"; "--dockerfile"; "prod.Dockerfile";
     "--destination"; "registry.example.com/module-a:v-1234567890";
     "--snapshotMode=redo"; "--cache=false"; "--cache=true"; "--insecure";
     "--build-arg"; "GARDEN_MODULE_VERSION=v-1234567890";
     "--build-arg"; "GARDEN_BUILD_VERSION=custom";
     "--build-arg"; "FOO=bar"; "--build-arg"; "DEBUG"; "--build-arg"; "RETRIES=0";
     "--target"; "prod"; "--snapshotMode=redo"]
    = ["--context"; "dir:///.garden/context"; "--dockerfile"; "prod.Dockerfile";
       "--destination"; "registry.example.com/module-a:v-1234567890"]
      ++ ["--snapshotMode=redo"]
      ++ between
      ++ ["--snapshotMode=redo"].
Proof.
  apply (kanikoArgs_repeat_extraFlags Examples.neverNaN pretty
           (Examples.flagged ["--snapshotMode=redo"])
           "registry.example.com/module-a:v-1234567890" (Some ["--cache=false"]) true).
  vm_compute. reflexivity.
Defined.

Lemma filterTestConfigs_matches_witness :
  {| TestConfigs.name := "unit"; TestConfigs.disabled := false |}
    ∈ TestConfigs.filterTestConfigs Examples.globMatch Examples.actionName
        Examples.exampleModule (Some ["module-a-u*"])
  ↔ {| TestConfigs.name := "unit"; TestConfigs.disabled := false |}
      ∈ TestConfigs.testConfigs Examples.exampleModule
    ∧ false = false
    ∧ (["module-a-u*"] = []
       ∨ ∃ n, n ∈ ["module-a-u*"] ∧ Examples.globMatch "module-a-unit" n = true).
Proof.
  apply (filterTestConfigs_matches Examples.globMatch Examples.actionName
           Examples.exampleModule (Some ["module-a-u*"])
           {| TestConfigs.name := "unit"; TestConfigs.disabled := false |}).
  simpl. mem_not.
Defined.

Lemma blueGreen_by_version_witness :
  (Workload.getDeploymentName "api" true "v-1" ≠ Workload.getDeploymentName "api" true "v-2"
   ∧ Workload.getDeploymentSelector Examples.annotationKey
       (Workload.atVersion Examples.apiDeploy "v-1") true
     ≠ Workload.getDeploymentSelector Examples.annotationKey
         (Workload.atVersion Examples.apiDeploy "v-2") true)
  ∧ (Workload.getDeploymentName "api" false "v-1"
     = Workload.getDeploymentName "api" false "v-2"
     ∧ Workload.getDeploymentSelector Examples.annotationKey
         (Workload.atVersion Examples.apiDeploy "v-1") false
       = Workload.getDeploymentSelector Examples.annotationKey
           (Workload.atVersion Examples.apiDeploy "v-2") false).
Proof.
  apply (blueGreen_by_version Examples.annotationKey Examples.apiDeploy "v-1" "v-2");
    discriminate.
Defined.


Lemma silent_run_still_logs_witness :
  ∃ origin,
    ObsLog (LogInfo (renderOutputStream "hello" origin))
      ∈ effects (runRouter_run (routerParams (exampleAction Run "task-a" "exec") true false))
          start.
Proof.
  apply (proj1 (silent_run_still_logs (Env0 := exampleEnv)
                  (routerParams (exampleAction Run "task-a" "exec") true false) start
                  {| l_timestamp := 15; l_actionUid := "uid-0"; l_entityType := "task";
                     l_entityKey := "task-a"; l_moduleName := "module-a";
                     l_data := "hello" |} eq_refl)).
  vm_compute. do 5 apply list_elem_of_further. apply list_elem_of_here.
Defined.
